(** * tmux-ai-status: the status inference and stability engine

    A shallow embedding of [main.go] (package [main]) and the properties of
    its classification, stability and unread logic.

    Conventions of the embedding:
    - a Go [string] is a sequence of bytes: Rocq's [string], one [ascii] per
      byte; non-ASCII literals are their UTF-8 bytes, as in the Go source;
    - a Go [int] is a [Z]; where a value can leave the 64-bit range the
      wrap-around is written out;
    - a [time.Time] is a [Z], the reading in nanoseconds of the monotonic
      clock that [time.Now] attaches and [Time.Sub] compares;
    - the package-level maps keyed by window are [gmap string _], gathered
      in the record [store]; a function that writes them takes the store and
      returns the new one; the per-cycle pane cache is passed the same way;
    - the function variable [capturePaneOutput], the clock and [/proc] are
      arguments of the functions that consult them;
    - the two [tmux] commands issued by [setWindowStatus] are returned as
      values of type [command];
    - the output of [tmux list-panes], the order in which Go ranges over
      the window summaries and the tables of the [unicode] package beyond
      Latin-1 are arguments as well;
    - [collectDescendants], whose loop need not end, takes the number of
      iterations it may run and returns [None] when they do not suffice;
      so do the functions that call it.

    The file has three parts: the embedding (the Go library functions the
    program calls, then the program, then the notions the statements use),
    the properties (of the classification, stability and unread logic
    first, then of the process scan, the status of a pane, the cycle and
    the daemon), and the repository's tests replayed on the embedding. *)

From Stdlib Require Import ZArith Lia List Bool Ascii String Permutation.
From Stdlib Require Import DecimalString DecimalPos.
From stdpp Require Import gmap strings.

Local Open Scope Z_scope.

(** ** The parts of Go's [unicode/utf8], [unicode], [strings] and [strconv]
       packages that the program calls *)

Module utf8.

Definition byte (c : ascii) : Z := Z.of_N (N_of_ascii c).
Definition chr (b : Z) : ascii := ascii_of_N (Z.to_N b).

Definition RuneError : Z := 0xFFFD.
Definition RuneSelf : Z := 0x80.
Definition MaxRune : Z := 0x10FFFF.

(** The table [first] of the package, for a lead byte [>= RuneSelf]: the
    length of the sequence and the range accepted for its second byte;
    [None] is the entry [xx] (not a lead byte). *)
Definition first (b0 : Z) : option (nat * Z * Z) :=
  if b0 <? 0xC2 then None
  else if b0 <=? 0xDF then Some (2%nat, 0x80, 0xBF)
  else if b0 =? 0xE0 then Some (3%nat, 0xA0, 0xBF)
  else if b0 <=? 0xEC then Some (3%nat, 0x80, 0xBF)
  else if b0 =? 0xED then Some (3%nat, 0x80, 0x9F)
  else if b0 <=? 0xEF then Some (3%nat, 0x80, 0xBF)
  else if b0 =? 0xF0 then Some (4%nat, 0x90, 0xBF)
  else if b0 <=? 0xF3 then Some (4%nat, 0x80, 0xBF)
  else if b0 =? 0xF4 then Some (4%nat, 0x80, 0x8F)
  else None.

Definition within (lo hi : Z) (c : ascii) : bool :=
  (lo <=? byte c) && (byte c <=? hi).

(** [utf8.DecodeRuneInString]: the first rune of [s] and its width in
    bytes; [(RuneError, 0)] for the empty string and [(RuneError, 1)] for
    an encoding that is invalid or cut short. *)
Definition DecodeRuneInString (s : string) : Z * nat :=
  match s with
  | EmptyString => (RuneError, 0%nat)
  | String c0 s1 =>
    let b0 := byte c0 in
    if b0 <? RuneSelf then (b0, 1%nat)
    else
      match first b0 with
      | None => (RuneError, 1%nat)
      | Some (sz, lo, hi) =>
        match s1 with
        | EmptyString => (RuneError, 1%nat)
        | String c1 s2 =>
          if negb (within lo hi c1) then (RuneError, 1%nat)
          else if (sz <=? 2)%nat then
            (Z.lor (Z.shiftl (Z.land b0 0x1F) 6) (Z.land (byte c1) 0x3F), 2%nat)
          else
            match s2 with
            | EmptyString => (RuneError, 1%nat)
            | String c2 s3 =>
              if negb (within 0x80 0xBF c2) then (RuneError, 1%nat)
              else if (sz <=? 3)%nat then
                (Z.lor (Z.lor (Z.shiftl (Z.land b0 0x0F) 12)
                              (Z.shiftl (Z.land (byte c1) 0x3F) 6))
                       (Z.land (byte c2) 0x3F), 3%nat)
              else
                match s3 with
                | EmptyString => (RuneError, 1%nat)
                | String c3 _ =>
                  if negb (within 0x80 0xBF c3) then (RuneError, 1%nat)
                  else
                    (Z.lor (Z.lor (Z.lor (Z.shiftl (Z.land b0 0x07) 18)
                                         (Z.shiftl (Z.land (byte c1) 0x3F) 12))
                                  (Z.shiftl (Z.land (byte c2) 0x3F) 6))
                           (Z.land (byte c3) 0x3F), 4%nat)
                end
            end
        end
      end
  end.

(** [utf8.RuneStart]: the byte is not a continuation byte. *)
Definition RuneStart (c : ascii) : bool :=
  negb (Z.land (byte c) 0xC0 =? 0x80).

Fixpoint strrev (acc s : string) : string :=
  match s with
  | EmptyString => acc
  | String c s' => strrev (String c acc) s'
  end.

(** [utf8.DecodeLastRuneInString], on the string read backwards: [rs] is
    the reversal of the Go argument.  The lead byte is searched among the
    three bytes before the last one; the rune counts only if its encoding
    ends exactly at the end of the string. *)
Definition DecodeLastRuneInString (rs : string) : Z * nat :=
  match rs with
  | EmptyString => (RuneError, 0%nat)
  | String c0 r1 =>
    if byte c0 <? RuneSelf then (byte c0, 1%nat)
    else
      let attempt (enc : string) (n : nat) :=
        let '(r, size) := DecodeRuneInString enc in
        if (size =? n)%nat then (r, size) else (RuneError, 1%nat) in
      match r1 with
      | EmptyString => (RuneError, 1%nat)
      | String c1 r2 =>
        if RuneStart c1 then attempt (String c1 (String c0 EmptyString)) 2%nat
        else
          match r2 with
          | EmptyString => (RuneError, 1%nat)
          | String c2 r3 =>
            if RuneStart c2 then
              attempt (String c2 (String c1 (String c0 EmptyString))) 3%nat
            else
              match r3 with
              | EmptyString => (RuneError, 1%nat)
              | String c3 _ =>
                if RuneStart c3 then
                  attempt (String c3 (String c2 (String c1 (String c0 EmptyString)))) 4%nat
                else (RuneError, 1%nat)
              end
          end
      end
  end.

(** [utf8.AppendRune] to the empty string: the encoding of [r], the one of
    [RuneError] for a surrogate or a value out of range. *)
Definition EncodeRune (r : Z) : string :=
  let cont (x : Z) := chr (Z.lor 0x80 (Z.land x 0x3F)) in
  let three (x : Z) :=
    String (chr (Z.lor 0xE0 (Z.shiftr x 12)))
      (String (cont (Z.shiftr x 6)) (String (cont x) EmptyString)) in
  if (0 <=? r) && (r <=? 0x7F) then String (chr r) EmptyString
  else if (0 <=? r) && (r <=? 0x7FF) then
    String (chr (Z.lor 0xC0 (Z.shiftr r 6))) (String (cont r) EmptyString)
  else if (r <? 0) || (MaxRune <? r) || ((0xD800 <=? r) && (r <=? 0xDFFF)) then
    three RuneError
  else if r <=? 0xFFFF then three r
  else
    String (chr (Z.lor 0xF0 (Z.shiftr r 18)))
      (String (cont (Z.shiftr r 12))
         (String (cont (Z.shiftr r 6)) (String (cont r) EmptyString))).

End utf8.

Module unicode.

(** [unicode.IsSpace]: the Latin-1 cases and the [White_Space] table. *)
Definition IsSpace (r : Z) : bool :=
  ((0x09 <=? r) && (r <=? 0x0D)) || (r =? 0x20) || (r =? 0x85) || (r =? 0xA0)
  || (r =? 0x1680) || ((0x2000 <=? r) && (r <=? 0x200A))
  || (r =? 0x2028) || (r =? 0x2029) || (r =? 0x202F) || (r =? 0x205F)
  || (r =? 0x3000).

(** [unicode.ToLower]: ASCII is handled in the function itself; above
    ASCII it consults the case tables of the Unicode database, [caseTable]
    here ([To(LowerCase, r)]). *)
Definition ToLower (caseTable : Z -> Z) (r : Z) : Z :=
  if r <=? 0x7F then
    if (0x41 <=? r) && (r <=? 0x5A) then r + 0x20 else r
  else caseTable r.

Definition MaxLatin1 : Z := 0xFF.

(** [unicode.IsDigit]: the ASCII digits up to [MaxLatin1]; above it the
    table [Digit] of the Unicode database, [digitTable] here. *)
Definition IsDigit (digitTable : Z -> bool) (r : Z) : bool :=
  if r <=? MaxLatin1 then (0x30 <=? r) && (r <=? 0x39) else digitTable r.

(** [unicode.IsLetter]: up to [MaxLatin1] the entries of the package's
    table [properties] that carry a letter bit; above it the table
    [Letter] of the Unicode database, [letterTable] here. *)
Definition IsLetter (letterTable : Z -> bool) (r : Z) : bool :=
  if (0 <=? r) && (r <=? MaxLatin1) then
    ((0x41 <=? r) && (r <=? 0x5A)) || ((0x61 <=? r) && (r <=? 0x7A))
    || (r =? 0xAA) || (r =? 0xB5) || (r =? 0xBA)
    || ((0xC0 <=? r) && (r <=? 0xD6)) || ((0xD8 <=? r) && (r <=? 0xF6))
    || ((0xF8 <=? r) && (r <=? 0xFF))
  else letterTable r.

End unicode.

Module GoStrings.

(** The newline byte; [nl] is the Go literal with the escape [\n]. *)
Definition nl : string := String "010" EmptyString.

Definition len (s : string) : Z := Z.of_nat (String.length s).

(** [s[n:]] for [0 <= n <= len(s)]. *)
Fixpoint sliceFrom (n : nat) (s : string) : string :=
  match n, s with
  | O, _ => s
  | S k, String _ s' => sliceFrom k s'
  | S _, EmptyString => EmptyString
  end.

Fixpoint HasPrefix (s prefix : string) {struct prefix} : bool :=
  match prefix, s with
  | EmptyString, _ => true
  | String p ps, String c cs => Ascii.eqb c p && HasPrefix cs ps
  | String _ _, EmptyString => false
  end.

Definition HasSuffix (s suffix : string) : bool :=
  (String.length suffix <=? String.length s)%nat
  && String.eqb (sliceFrom (String.length s - String.length suffix) s) suffix.

Definition TrimPrefix (s prefix : string) : string :=
  if HasPrefix s prefix then sliceFrom (String.length prefix) s else s.

Fixpoint Contains (s substr : string) : bool :=
  HasPrefix s substr
  || match s with
     | EmptyString => false
     | String _ s' => Contains s' substr
     end.

(** [strings.Split(s, sep)] for a separator of one byte, which is how the
    program calls it ([sep] is always [nl]). *)
Fixpoint Split (s : string) (sep : ascii) : list string :=
  match s with
  | EmptyString => [EmptyString]
  | String c s' =>
    if Ascii.eqb c sep then EmptyString :: Split s' sep
    else
      match Split s' sep with
      | piece :: rest => String c piece :: rest
      | [] => [String c EmptyString]
      end
  end.

Fixpoint Join (elems : list string) (sep : string) : string :=
  match elems with
  | [] => EmptyString
  | [e] => e
  | e :: rest => e +:+ sep +:+ Join rest sep
  end.

(** [strings.LastIndex(s, string(c))]: the index of the last byte [c] of
    [s], [-1] when there is none. *)
Fixpoint LastIndexByte (s : string) (c : ascii) : Z :=
  match s with
  | EmptyString => -1
  | String x s' =>
    let i := LastIndexByte s' c in
    if 0 <=? i then i + 1 else if Ascii.eqb x c then 0 else -1
  end.

(** [strings.TrimLeftFunc(s, unicode.IsSpace)]: runes are decoded from the
    left and dropped while they are white space.  [skip] counts the bytes
    of the current rune still to be passed. *)
Fixpoint trimLeftSpace (skip : nat) (s : string) : string :=
  match s with
  | EmptyString => EmptyString
  | String _ s' =>
    match skip with
    | S k => trimLeftSpace k s'
    | O =>
      let '(r, w) := utf8.DecodeRuneInString s in
      if unicode.IsSpace r then trimLeftSpace (w - 1)%nat s' else s
    end
  end.

(** [strings.TrimRightFunc(s, unicode.IsSpace)] on the reversed string:
    runes are decoded from the end with [DecodeLastRuneInString]. *)
Fixpoint trimRightSpaceRev (skip : nat) (rs : string) : string :=
  match rs with
  | EmptyString => EmptyString
  | String _ rs' =>
    match skip with
    | S k => trimRightSpaceRev k rs'
    | O =>
      let '(r, w) := utf8.DecodeLastRuneInString rs in
      if unicode.IsSpace r then trimRightSpaceRev (w - 1)%nat rs' else rs
    end
  end.

(** [strings.TrimSpace]: its ASCII fast path agrees with
    [TrimFunc(s, unicode.IsSpace)], which is what it falls back to. *)
Definition TrimSpace (s : string) : string :=
  utf8.strrev EmptyString
    (trimRightSpaceRev 0 (utf8.strrev EmptyString (trimLeftSpace 0 s))).

Definition flush (cur : option string) : list string :=
  match cur with Some f => [f] | None => [] end.

(** [strings.Fields]: the maximal runs of runes that are not white space.
    [cur] is the field being read, if any. *)
Fixpoint fieldsFrom (skip : nat) (cur : option string) (s : string) : list string :=
  match s with
  | EmptyString => flush cur
  | String c s' =>
    match skip with
    | S k => fieldsFrom k (option_map (fun f => f +:+ String c EmptyString) cur) s'
    | O =>
      let '(r, w) := utf8.DecodeRuneInString s in
      if unicode.IsSpace r then flush cur ++ fieldsFrom (w - 1)%nat None s'
      else fieldsFrom (w - 1)%nat (Some (default EmptyString cur +:+ String c EmptyString)) s'
    end
  end.

Definition Fields (s : string) : list string := fieldsFrom 0 None s.

(** [strings.Map(mapping, s)]: every rune (an invalid byte reads as
    [RuneError]) is replaced by the encoding of its image, and dropped
    when the image is negative. *)
Fixpoint mapFrom (mapping : Z -> Z) (skip : nat) (s : string) : string :=
  match s with
  | EmptyString => EmptyString
  | String _ s' =>
    match skip with
    | S k => mapFrom mapping k s'
    | O =>
      let '(r, w) := utf8.DecodeRuneInString s in
      let r' := mapping r in
      (if r' <? 0 then EmptyString else utf8.EncodeRune r')
        +:+ mapFrom mapping (w - 1)%nat s'
    end
  end.

Definition Map (mapping : Z -> Z) (s : string) : string := mapFrom mapping 0 s.

Fixpoint isASCII (s : string) : bool :=
  match s with
  | EmptyString => true
  | String c s' => (utf8.byte c <? utf8.RuneSelf) && isASCII s'
  end.

Fixpoint lowerASCII (s : string) : string :=
  match s with
  | EmptyString => EmptyString
  | String c s' =>
    let b := utf8.byte c in
    String (if (0x41 <=? b) && (b <=? 0x5A) then utf8.chr (b + 0x20) else c)
           (lowerASCII s')
  end.

(** [strings.ToLower]: bytewise on a string that is all ASCII, through
    [Map(unicode.ToLower, s)] otherwise. *)
Definition ToLower (caseTable : Z -> Z) (s : string) : string :=
  if isASCII s then lowerASCII s else Map (unicode.ToLower caseTable) s.

(** [s[:n]] for [0 <= n <= len(s)]. *)
Fixpoint sliceTo (n : nat) (s : string) : string :=
  match n, s with
  | S k, String c s' => String c (sliceTo k s')
  | _, _ => EmptyString
  end.

Definition TrimSuffix (s suffix : string) : string :=
  if HasSuffix s suffix then sliceTo (String.length s - String.length suffix) s
  else s.

(** [strings.Index(s, substr)]: where [substr] first occurs in [s], [-1]
    when it does not. *)
Fixpoint Index (s substr : string) : Z :=
  if HasPrefix s substr then 0
  else
    match s with
    | EmptyString => -1
    | String _ s' => let i := Index s' substr in if i <? 0 then -1 else i + 1
    end.

(** [strings.ReplaceAll(s, string(old), new)] for one byte [old]. *)
Fixpoint ReplaceAll (s : string) (old : ascii) (new : string) : string :=
  match s with
  | EmptyString => EmptyString
  | String c s' =>
    (if Ascii.eqb c old then new else String c EmptyString) +:+ ReplaceAll s' old new
  end.

(** [strings.FieldsFunc(s, f)]: the maximal runs of runes that do not
    satisfy [f]; [cur] is the field being read, if any. *)
Fixpoint fieldsFuncFrom (f : Z -> bool) (skip : nat) (cur : option string)
    (s : string) : list string :=
  match s with
  | EmptyString => flush cur
  | String c s' =>
    match skip with
    | S k =>
      fieldsFuncFrom f k (option_map (fun w => w +:+ String c EmptyString) cur) s'
    | O =>
      let '(r, w) := utf8.DecodeRuneInString s in
      if f r then flush cur ++ fieldsFuncFrom f (w - 1)%nat None s'
      else
        fieldsFuncFrom f (w - 1)%nat
          (Some (default EmptyString cur +:+ String c EmptyString)) s'
    end
  end.

Definition FieldsFunc (s : string) (f : Z -> bool) : list string :=
  fieldsFuncFrom f 0 None s.

(** [[]rune(s)]: the runes of [s], an invalid byte reading as
    [RuneError]. *)
Fixpoint runesFrom (skip : nat) (s : string) : list Z :=
  match s with
  | EmptyString => []
  | String _ s' =>
    match skip with
    | S k => runesFrom k s'
    | O => let '(r, w) := utf8.DecodeRuneInString s in r :: runesFrom (w - 1)%nat s'
    end
  end.

Definition runes (s : string) : list Z := runesFrom 0 s.

(** [string(rs)] for a slice of runes. *)
Fixpoint fromRunes (rs : list Z) : string :=
  match rs with
  | [] => EmptyString
  | r :: rest => utf8.EncodeRune r +:+ fromRunes rest
  end.

Fixpoint inCutset (cutset : string) (c : ascii) : bool :=
  match cutset with
  | EmptyString => false
  | String x rest => Ascii.eqb c x || inCutset rest c
  end.

Fixpoint trimLeftBytes (cutset : string) (s : string) : string :=
  match s with
  | EmptyString => EmptyString
  | String c s' => if inCutset cutset c then trimLeftBytes cutset s' else s
  end.

(** [strings.Trim(s, cutset)] for a cutset of several bytes, all ASCII:
    the bytes of the cutset are dropped from the end and from the start. *)
Definition Trim (s cutset : string) : string :=
  trimLeftBytes cutset
    (utf8.strrev EmptyString (trimLeftBytes cutset (utf8.strrev EmptyString s))).

End GoStrings.

Module strconv.

Definition maxInt64 : Z := 2 ^ 63 - 1.
Definition minInt64 : Z := - 2 ^ 63.

Definition maxUint64 : Z := 2 ^ 64 - 1.

Inductive numError := ErrSyntax | ErrRange.

(** [strconv.ParseUint(s, 10, 64)] from the accumulator [n] on: a byte that
    is no digit is a syntax error (value [0]); an overflow is a range error
    (value [maxUint64]), reported at once, before the bytes that follow are
    looked at. *)
Fixpoint parseUint (n : Z) (s : string) : Z * option numError :=
  match s with
  | EmptyString => (n, None)
  | String c s' =>
    let d := utf8.byte c - 0x30 in
    if negb ((0 <=? d) && (d <=? 9)) then (0, Some ErrSyntax)
    else if maxUint64 / 10 + 1 <=? n then (maxUint64, Some ErrRange)
    else
      let n1 := n * 10 + d in
      if maxUint64 <? n1 then (maxUint64, Some ErrRange) else parseUint n1 s'
  end.

(** [strconv.ParseInt(s, 10, 0)] on a 64-bit platform. *)
Definition ParseInt (s : string) : Z * option numError :=
  match s with
  | EmptyString => (0, Some ErrSyntax)
  | _ =>
    let '(neg, body) :=
      match s with
      | String "-" s' => (true, s')
      | String "+" s' => (false, s')
      | _ => (false, s)
      end in
    match body with
    | EmptyString => (0, Some ErrSyntax)
    | _ =>
      match parseUint 0 body with
      | (_, Some ErrSyntax) => (0, Some ErrSyntax)
      | (un, _) =>
        if negb neg && (2 ^ 63 <=? un) then (maxInt64, Some ErrRange)
        else if neg && (2 ^ 63 <? un) then (minInt64, Some ErrRange)
        else (if neg then - un else un, None)
      end
    end
  end.

(** [strconv.Atoi], as the value and whether the error is [nil]: its fast
    path for short strings computes what [ParseInt] does. *)
Definition Atoi (s : string) : Z * bool :=
  let '(n, err) := ParseInt s in
  (n, match err with None => true | Some _ => false end).

End strconv.

Module bufio.

Definition MaxScanTokenSize : Z := 64 * 1024.

(** [dropCR]: the line without one carriage return at its end. *)
Fixpoint dropCR (line : string) : string :=
  match line with
  | EmptyString => EmptyString
  | String c EmptyString => if Ascii.eqb c "013" then EmptyString else line
  | String c rest => String c (dropCR rest)
  end.

(** The tokens that the calls of [Scan] yield on a [Scanner] over the text,
    with the split function [ScanLines] and the default buffer: the lines,
    each without its newline and without a carriage return before it; a
    last line needs no newline.  [cur] is the line being read and [n] its
    length.  A line that does not end within [MaxScanTokenSize] bytes does
    not fit the buffer: [Scan] returns [false] there and the scan is over. *)
Fixpoint scanFrom (n : Z) (cur : string) (s : string) : list string :=
  match s with
  | EmptyString => if n =? 0 then [] else [dropCR cur]
  | String c s' =>
    if Ascii.eqb c "010" then dropCR cur :: scanFrom 0 EmptyString s'
    else if MaxScanTokenSize <=? n + 1 then []
    else scanFrom (n + 1) (cur +:+ String c EmptyString) s'
  end.

Definition ScanLines (s : string) : list string := scanFrom 0 EmptyString s.

End bufio.

Import GoStrings.

(** ** Pane-text classifier (main.go, [classifyPaneContent] and below) *)

(** The four scans of the captured text share one loop:
    [for i := len(lines) - 1; i >= 0 && checked < cap; i--], skipping the
    lines that are empty once trimmed and counting the others.  [lines] is
    the text's lines from the last to the first; [visit] is the loop body
    after [checked++], [Some r] standing for [return r]; [dflt] is the value
    returned after the loop.  ([checked] never exceeds [cap]: a [nat].) *)
Fixpoint scanUp {A : Type} (cap : nat) (visit : string -> option A) (dflt : A)
    (checked : nat) (lines : list string) : A :=
  match lines with
  | [] => dflt
  | raw :: above =>
    if (cap <=? checked)%nat then dflt
    else
      let line := TrimSpace raw in
      if String.eqb line "" then scanUp cap visit dflt checked above
      else
        match visit line with
        | Some r => r
        | None => scanUp cap visit dflt (S checked) above
        end
  end.

(** [strings.Split(content, "\n")], from the last line to the first. *)
Definition linesUp (content : string) : list string :=
  rev (Split content "010").

Definition hasSpinnerMarker (line : string) : bool :=
  HasPrefix line "· " || HasPrefix line "• " || HasPrefix line "✢ "
  || HasPrefix line "✻ " || HasPrefix line "* ".

Definition hasActiveMarker (line : string) : bool :=
  if Contains line "esc to interrupt" then true
  else if negb (hasSpinnerMarker line) then false
  else Contains line "ing…" || Contains line "ing...".

Definition isCompletionLine (line : string) : bool :=
  HasPrefix line "─ Worked for "
  || String.eqb line "Done." || HasPrefix line "Done. "
  || String.eqb line "All set." || HasPrefix line "All set. ".

Definition classifyPaneContent (content : string) : bool :=
  scanUp 12
    (fun line =>
       if isCompletionLine line then Some false
       else if hasActiveMarker line then Some true
       else None)
    false 0 (linesUp content).

Definition classifyPaneActiveSignature (content : string) : string :=
  scanUp 12 (fun line => if hasActiveMarker line then Some line else None)
    "" 0 (linesUp content).

Definition detectPromptSignature (content : string) : string :=
  scanUp 12
    (fun line =>
       if HasPrefix line "› " || String.eqb line "›" then Some ("codex:" +:+ line)
       else if HasPrefix line "❯ " || String.eqb line "❯" then Some ("claude:" +:+ line)
       else None)
    "" 0 (linesUp content).

Definition classifyPaneAttentionSignature (content : string) : string :=
  if classifyPaneContent content then "" else detectPromptSignature content.

Definition classifyPaneNeedsAttention (content : string) : bool :=
  negb (String.eqb (classifyPaneAttentionSignature content) "").

Definition classifyPaneCompletionSignature (content : string) : string :=
  scanUp 20 (fun line => if isCompletionLine line then Some line else None)
    "" 0 (linesUp content).

(** ** Unread/attention decision ([shouldMarkUnread], [hasPromptText]) *)

Definition isWorkingStatus (status : string) : bool :=
  negb (String.eqb status "") && negb (HasSuffix status "💤").

Definition statusPriority (status : string) : Z :=
  if isWorkingStatus status then 2
  else if negb (String.eqb status "") then 1
  else 0.

Definition hasPromptText (promptSig : string) : bool :=
  if String.eqb promptSig "" then false
  else if HasPrefix promptSig "codex:" then
    let p := TrimSpace (TrimPrefix promptSig "codex:") in
    negb (String.eqb p "") && negb (String.eqb p "›")
  else if HasPrefix promptSig "claude:" then
    let p := TrimSpace (TrimPrefix promptSig "claude:") in
    negb (String.eqb p "") && negb (String.eqb p "❯")
  else false.

Definition shouldMarkUnread (wasWorking focused isWorking : bool)
    (rawStatus : string) (seenBefore : bool)
    (promptSig prevPromptSig doneSig prevDoneSig : string) : bool :=
  if focused || isWorking || String.eqb rawStatus "" then false
  else if wasWorking then true
  else if negb seenBefore then hasPromptText promptSig
  else if negb (String.eqb doneSig "") && negb (String.eqb doneSig prevDoneSig) then true
  else if negb (String.eqb promptSig "") && negb (String.eqb promptSig prevPromptSig) then true
  else false.

Definition formatStatusWithTopic (status topic : string) : string :=
  if String.eqb status "" || String.eqb topic "" then status
  else status +:+ " " +:+ topic.

(** ** Package-level state *)

Record windowState := {
  applied : string;  (* status currently shown in tmux *)
  pending : string;  (* candidate status seen last cycle *)
  count : Z;         (* consecutive cycles pending has been seen *)
  unread : bool      (* agent finished work while window was unfocused *)
}.

(** [&windowState{}] *)
Definition newWindowState : windowState :=
  {| applied := ""; pending := ""; count := 0; unread := false |}.

Record paneCapture := { content : string; ok : bool }.

(** The maps declared at package level, all keyed by window. *)
Record store := {
  lastActive : gmap string Z;
  statusState : gmap string windowState;
  windowWasWorking : gmap string bool;
  windowSeen : gmap string bool;
  windowPromptSig : gmap string string;
  windowDoneSig : gmap string string;
  windowActiveSig : gmap string string;
  windowActiveAt : gmap string Z;
  windowTopic : gmap string string
}.

Definition emptyStore : store :=
  {| lastActive := ∅; statusState := ∅; windowWasWorking := ∅; windowSeen := ∅;
     windowPromptSig := ∅; windowDoneSig := ∅; windowActiveSig := ∅;
     windowActiveAt := ∅; windowTopic := ∅ |}.

Definition withLastActive (m : gmap string Z) (st : store) : store :=
  {| lastActive := m; statusState := statusState st;
     windowWasWorking := windowWasWorking st; windowSeen := windowSeen st;
     windowPromptSig := windowPromptSig st; windowDoneSig := windowDoneSig st;
     windowActiveSig := windowActiveSig st; windowActiveAt := windowActiveAt st;
     windowTopic := windowTopic st |}.

Definition withStatusState (m : gmap string windowState) (st : store) : store :=
  {| lastActive := lastActive st; statusState := m;
     windowWasWorking := windowWasWorking st; windowSeen := windowSeen st;
     windowPromptSig := windowPromptSig st; windowDoneSig := windowDoneSig st;
     windowActiveSig := windowActiveSig st; windowActiveAt := windowActiveAt st;
     windowTopic := windowTopic st |}.

Definition withActiveMarker (sigs : gmap string string) (ats : gmap string Z)
    (st : store) : store :=
  {| lastActive := lastActive st; statusState := statusState st;
     windowWasWorking := windowWasWorking st; windowSeen := windowSeen st;
     windowPromptSig := windowPromptSig st; windowDoneSig := windowDoneSig st;
     windowActiveSig := sigs; windowActiveAt := ats;
     windowTopic := windowTopic st |}.

Definition withWindowTopic (m : gmap string string) (st : store) : store :=
  {| lastActive := lastActive st; statusState := statusState st;
     windowWasWorking := windowWasWorking st; windowSeen := windowSeen st;
     windowPromptSig := windowPromptSig st; windowDoneSig := windowDoneSig st;
     windowActiveSig := windowActiveSig st; windowActiveAt := windowActiveAt st;
     windowTopic := m |}.

(** ** Time *)

Definition Second : Z := 1000000000.

(** [t.Sub(u)]: the difference, saturated to the range of [time.Duration]. *)
Definition Sub (t u : Z) : Z :=
  Z.max strconv.minInt64 (Z.min strconv.maxInt64 (t - u)).

Definition activeGrace : Z := 10 * Second.
Definition staleActiveThreshold : Z := 12 * Second.

(** ** Pane capture, cached per cycle ([getPaneContent]) *)

(** [capture] stands for the function variable [capturePaneOutput]:
    [None] is a non-nil error. *)
Definition getPaneContent (capture : string -> option string) (window : string)
    (cache : gmap string paneCapture) : string * bool * gmap string paneCapture :=
  match cache !! window with
  | Some c => (content c, ok c, cache)
  | None =>
    match capture window with
    | None => ("", false, <[window := {| content := ""; ok := false |}]> cache)
    | Some out => (out, true, <[window := {| content := out; ok := true |}]> cache)
    end
  end.

(** ** Stability engine: staleness and grace period *)

Definition clearActiveMarker (window : string) (st : store) : store :=
  withActiveMarker (delete window (windowActiveSig st))
                   (delete window (windowActiveAt st)) st.

Definition isStaleActiveMarker (window content : string) (now : Z) (st : store)
    : bool * store :=
  let activeSig := classifyPaneActiveSignature content in
  if String.eqb activeSig "" then (false, st)
  else
    let fresh :=
      withActiveMarker (<[window := activeSig]> (windowActiveSig st))
                       (<[window := now]> (windowActiveAt st)) st in
    let promptSig := detectPromptSignature content in
    if String.eqb promptSig "" then (false, fresh)
    else
      match windowActiveSig st !! window with
      | None => (false, fresh)
      | Some prevSig =>
        if negb (String.eqb prevSig activeSig) then (false, fresh)
        else
          match windowActiveAt st !! window with
          | None =>
            (false, withActiveMarker (windowActiveSig st)
                                     (<[window := now]> (windowActiveAt st)) st)
          | Some startedAt => (staleActiveThreshold <=? Sub now startedAt, st)
          end
      end.

(** The first half of [isPaneActive], up to [lastActiveMu.Lock()]: the
    value of the local [active] and the effects on the cache and on the
    tracked active marker. *)
Definition paneActiveNow (capture : string -> option string) (window : string)
    (now : Z) (cache : gmap string paneCapture) (st : store)
    : bool * gmap string paneCapture * store :=
  let '(content, ok, cache') := getPaneContent capture window cache in
  if ok then
    if classifyPaneContent content then
      let '(stale, st') := isStaleActiveMarker window content now st in
      (negb stale, cache', st')
    else (false, cache', clearActiveMarker window st)
  else (false, cache', clearActiveMarker window st).

(** [now] is the reading of [time.Now()] taken on entry. *)
Definition isPaneActive (capture : string -> option string) (window : string)
    (now : Z) (cache : gmap string paneCapture) (st : store)
    : bool * gmap string paneCapture * store :=
  let '(active, cache', st') := paneActiveNow capture window now cache st in
  if active then
    (true, cache', withLastActive (<[window := now]> (lastActive st')) st')
  else
    match lastActive st' !! window with
    | Some last =>
      if Sub now last <? activeGrace then (true, cache', st')
      else (false, cache', withLastActive (delete window (lastActive st')) st')
    | None => (false, cache', st')
    end.

(** ** Stability engine: hysteresis ([setWindowStatus]) and the unread flag *)

(** The two external commands [setWindowStatus] runs. *)
Inductive command :=
| RenameWindow (window status : string)   (* tmux rename-window -t window status *)
| AutomaticRenameOn (window : string).    (* tmux set-option -t window automatic-rename on *)

(** [n] as a Go [int] (64 bits, two's complement). *)
Definition wrapInt (n : Z) : Z := (n + 2 ^ 63) mod 2 ^ 64 - 2 ^ 63.

Definition stabilityThreshold : Z := 1.

(** [setWindowStatus] with the constant [stabilityThreshold] as a
    parameter, so that the mechanism can be stated for every threshold; the
    command run, if any, is returned. *)
Definition setWindowStatusAt (threshold : Z) (window status : string) (st : store)
    : option command * store :=
  let ws := default newWindowState (statusState st !! window) in
  let put (ws' : windowState) := withStatusState (<[window := ws']> (statusState st)) st in
  if String.eqb status (applied ws) then
    (None, put {| applied := applied ws; pending := ""; count := 0; unread := unread ws |})
  else
    let ws1 :=
      if String.eqb status (pending ws) then
        {| applied := applied ws; pending := pending ws;
           count := wrapInt (count ws + 1); unread := unread ws |}
      else
        {| applied := applied ws; pending := status; count := 1; unread := unread ws |} in
    if count ws1 <? threshold then (None, put ws1)
    else
      (Some (if negb (String.eqb status "") then RenameWindow window status
             else AutomaticRenameOn window),
       put {| applied := status; pending := ""; count := 0; unread := unread ws1 |}).

Definition setWindowStatus : string -> string -> store -> option command * store :=
  setWindowStatusAt stabilityThreshold.

Definition markUnread (window : string) (st : store) : store :=
  let ws := default newWindowState (statusState st !! window) in
  withStatusState
    (<[window := {| applied := applied ws; pending := pending ws;
                    count := count ws; unread := true |}]> (statusState st)) st.

Definition clearUnread (window : string) (st : store) : store :=
  match statusState st !! window with
  | Some ws =>
    withStatusState
      (<[window := {| applied := applied ws; pending := pending ws;
                      count := count ws; unread := false |}]> (statusState st)) st
  | None => st
  end.

Definition isUnread (window : string) (st : store) : bool :=
  match statusState st !! window with
  | Some ws => unread ws
  | None => false
  end.

(** ** Topic memory ([rememberWindowTopic]) and the end-of-cycle clean-up *)

(** [classifyPaneTopic] enters only through its result: the properties
    below hold whatever word it extracts, so it is a parameter here. *)
Definition rememberWindowTopic (classifyPaneTopic : string -> string)
    (capture : string -> option string) (window : string)
    (cache : gmap string paneCapture) (st : store)
    : string * gmap string paneCapture * store :=
  let '(content, ok, cache') := getPaneContent capture window cache in
  if negb ok then (default "" (windowTopic st !! window), cache', st)
  else
    let topic := classifyPaneTopic content in
    let st' :=
      if negb (String.eqb topic "") then
        withWindowTopic (<[window := topic]> (windowTopic st)) st
      else st in
    (default "" (windowTopic st' !! window), cache', st').

(** [for w := range m { if !seenWindows[w] { delete(m, w) } }] *)
Definition prune {V : Type} (seenWindows : gset string) (m : gmap string V)
    : gmap string V :=
  filter (fun kv => kv.1 ∈ seenWindows) m.

(** The block "Clean up stale entries" that ends [updateAllPanes];
    [seenWindows] holds the windows of this cycle's pane list. *)
Definition cleanUp (seenWindows : gset string) (st : store) : store :=
  {| lastActive := prune seenWindows (lastActive st);
     statusState := prune seenWindows (statusState st);
     windowWasWorking := prune seenWindows (windowWasWorking st);
     windowSeen := prune seenWindows (windowSeen st);
     windowPromptSig := prune seenWindows (windowPromptSig st);
     windowDoneSig := prune seenWindows (windowDoneSig st);
     windowActiveSig := prune seenWindows (windowActiveSig st);
     windowActiveAt := prune seenWindows (windowActiveAt st);
     windowTopic := prune seenWindows (windowTopic st) |}.

(** ** Process topology ([buildChildMap], [readPPID], [parsePPIDFromStat]) *)

Definition parsePPIDFromStat (stat : string) : Z :=
  let i := LastIndexByte stat ")" in
  if (i <? 0) || (len stat <=? i + 2) then 0
  else
    let fields := Fields (sliceFrom (Z.to_nat (i + 2)) stat) in
    match fields with
    | _ :: ppid :: _ => fst (strconv.Atoi ppid)
    | _ => 0
    end.

Record dirEntry := { Name : string; IsDir : bool }.

(** What the program sees of [/proc]: the result of [os.ReadDir("/proc")]
    ([None] for an error) and the files [os.ReadFile] can read, by path. *)
Record procfs := {
  readDir : option (list dirEntry);
  files : gmap string string
}.

(** [fmt.Sprintf("%d", n)] *)
Definition itoa (n : Z) : string :=
  NilZero.string_of_int (Z.to_int n).

Definition readPPID (fs : procfs) (pid : Z) : Z :=
  match files fs !! ("/proc/" +:+ itoa pid +:+ "/stat") with
  | None => 0
  | Some data => parsePPIDFromStat data
  end.

(** [childMap[pid]]: [nil] for a missing key. *)
Definition children (m : gmap Z (list Z)) (pid : Z) : list Z :=
  default [] (m !! pid).

(** The body of the loop over the directory entries. *)
Definition addEntry (fs : procfs) (m : gmap Z (list Z)) (e : dirEntry)
    : gmap Z (list Z) :=
  if negb (IsDir e) then m
  else
    let '(pid, noErr) := strconv.Atoi (Name e) in
    if negb noErr then m
    else
      let ppid := readPPID fs pid in
      if 0 <? ppid then <[ppid := children m ppid ++ [pid]]> m else m.

Definition buildChildMap (fs : procfs) : gmap Z (list Z) :=
  match readDir fs with
  | None => ∅
  | Some entries => fold_left (addEntry fs) entries ∅
  end.

(** ** Descendant classifier ([classifyChildren], [containsAny]) *)

Definition containsAny (s : string) (substrs : list string) : bool :=
  existsb (Contains s) substrs.

Definition buildMarkers : list string :=
  ["make"; "gcc"; "g++"; "cc1"; "rustc"; "javac"; "tsc"; "webpack"; "vite";
   "esbuild"; "rollup"; "coordinator/cli.ts build"; " next build";
   "npm run build"; "pnpm run build"; "yarn build"; "go build"; "cargo build"].
Definition testMarkers : list string :=
  ["jest"; "vitest"; "pytest"; "mocha"; "phpunit"; "rspec"].
Definition packageMarkers : list string :=
  ["npm"; "yarn"; "pnpm"; "pip"; "apt"; "brew"; "pacman"].
Definition networkMarkers : list string := ["curl"; "wget"].

Section Classifier.

(** The lower-case mapping of the Unicode tables above ASCII, which
    [strings.ToLower] consults; every result below holds for any table. *)
Variable caseTable : Z -> Z.

Definition classifyChildren (names : list string) : string :=
  let joined := ToLower caseTable (Join names nl) in
  if containsAny joined buildMarkers then "🔨"
  else if containsAny joined testMarkers then "🧪"
  else if containsAny joined packageMarkers then "📦"
  else if containsAny joined ["git"] then "🔀"
  else if containsAny joined networkMarkers then "🌐"
  else "⚙️".

End Classifier.

(** ** Every mutation of the package-level state, as an event

    The functions above and the assignments of [updateAllPanes] are the only
    code that writes the package-level maps; a run of the program is a
    sequence of these events, starting from the empty maps. *)

Definition withCycleRecord (working seen : gmap string bool)
    (prompts dones : gmap string string) (st : store) : store :=
  {| lastActive := lastActive st; statusState := statusState st;
     windowWasWorking := working; windowSeen := seen;
     windowPromptSig := prompts; windowDoneSig := dones;
     windowActiveSig := windowActiveSig st; windowActiveAt := windowActiveAt st;
     windowTopic := windowTopic st |}.

(** The four assignments of [updateAllPanes] after the unread decision:
    [windowWasWorking[window] = isWorking], [windowSeen[window] = true],
    [windowPromptSig[window] = promptSig], [windowDoneSig[window] = doneSig]. *)
Definition recordCycle (window : string) (isWorking : bool)
    (promptSig doneSig : string) (st : store) : store :=
  withCycleRecord (<[window := isWorking]> (windowWasWorking st))
                  (<[window := true]> (windowSeen st))
                  (<[window := promptSig]> (windowPromptSig st))
                  (<[window := doneSig]> (windowDoneSig st)) st.

Inductive event :=
| IsPaneActive (capture : string -> option string) (window : string) (now : Z)
    (cache : gmap string paneCapture)
| MarkUnread (window : string)
| ClearUnread (window : string)
| RecordCycle (window : string) (isWorking : bool) (promptSig doneSig : string)
| RememberWindowTopic (capture : string -> option string) (window : string)
    (cache : gmap string paneCapture)
| SetWindowStatus (window status : string)
| CleanUp (seenWindows : gset string).

(** The hysteresis record of [window], [&windowState{}] when there is none. *)
Definition windowRecord (st : store) (window : string) : windowState :=
  default newWindowState (statusState st !! window).

Section Run.

(** The value of [stabilityThreshold] and the function [classifyPaneTopic]. *)
Variable threshold : Z.
Variable classifyPaneTopic : string -> string.

Definition step (st : store) (ev : event) : store :=
  match ev with
  | IsPaneActive capture window now cache =>
    (isPaneActive capture window now cache st).2
  | MarkUnread window => markUnread window st
  | ClearUnread window => clearUnread window st
  | RecordCycle window isWorking promptSig doneSig =>
    recordCycle window isWorking promptSig doneSig st
  | RememberWindowTopic capture window cache =>
    (rememberWindowTopic classifyPaneTopic capture window cache st).2
  | SetWindowStatus window status => (setWindowStatusAt threshold window status st).2
  | CleanUp seenWindows => cleanUp seenWindows st
  end.

Definition run (events : list event) (st : store) : store :=
  fold_left step events st.

(** The calls of [setWindowStatus] for [window] along a run from [st], in
    order: the argument of each, and the status that was applied (shown)
    when it was made. *)
Fixpoint callLog (window : string) (events : list event) (st : store)
    : list (string * string) :=
  match events with
  | [] => []
  | ev :: rest =>
    match ev with
    | SetWindowStatus w status =>
      if String.eqb w window then [(status, applied (windowRecord st window))]
      else []
    | _ => []
    end ++ callLog window rest (step st ev)
  end.

End Run.

(** [n] calls of [setWindowStatus] for [window] that alternate between [a]
    and [b], starting with [a]. *)
Fixpoint alternating (window a b : string) (n : nat) : list event :=
  match n with
  | O => []
  | S k => SetWindowStatus window a :: alternating window b a k
  end.

(** The event keeps [window]: it is not a clean-up of a cycle whose pane
    list lacks the window. *)
Definition keepsWindow (window : string) (ev : event) : Prop :=
  match ev with
  | CleanUp seenWindows => window ∈ seenWindows
  | _ => True
  end.

(** ** The pane list ([listPanes]) *)

Module paneInfo.
Record t := { window : string; pid : Z; focused : bool }.
End paneInfo.

(** The body of the loop over the lines of the command's output:
    [None] stands for [continue]. *)
Definition parsePane (line : string) : option paneInfo.t :=
  match Fields line with
  | w :: p :: f :: _ =>
    let '(pid, noErr) := strconv.Atoi p in
    if noErr then
      Some {| paneInfo.window := w; paneInfo.pid := pid;
              paneInfo.focused := String.eqb f "1" |}
    else None
  | _ => None
  end.

(** [out] is what the function variable [listPanesOutput] returns, [None]
    for a non-nil error. *)
Definition listPanes (out : option string) : list paneInfo.t :=
  match out with
  | None => []
  | Some text => omap parsePane (bufio.ScanLines text)
  end.

(** ** Reading a process ([readCmdline], [readComm]) and finding the agent *)

Definition readCmdline (fs : procfs) (pid : Z) : string :=
  match files fs !! ("/proc/" +:+ itoa pid +:+ "/cmdline") with
  | None => ""
  | Some data => ReplaceAll data "000" " "
  end.

Definition readComm (fs : procfs) (pid : Z) : string :=
  match files fs !! ("/proc/" +:+ itoa pid +:+ "/comm") with
  | None => ""
  | Some data => TrimSpace data
  end.

Definition isAgentLikeProcess (comm cmdline : string) : bool :=
  if String.eqb comm "" && String.eqb cmdline "" then true
  else if (Contains comm "codex" || Contains comm "claude" || String.eqb comm "node")
          && (String.eqb cmdline "" || Contains cmdline "codex"
              || Contains cmdline "claude") then true
  else Contains cmdline "codex" || Contains cmdline "claude".

Definition unknownChildStatus (prefix : string) (paneActive needsAttention : bool)
    : string :=
  if needsAttention then prefix +:+ "💤"
  else if paneActive then prefix +:+ "🧠"
  else prefix +:+ "⚙️".

(** [collectDescendants]: the loop [for len(queue) > 0] run for at most
    [fuel] iterations; [None] when the queue is not empty by then. *)
Fixpoint drainQueue (fuel : nat) (childMap : gmap Z (list Z)) (queue result : list Z)
    : option (list Z) :=
  match queue with
  | [] => Some result
  | p :: queue' =>
    match fuel with
    | O => None
    | S fuel' =>
      drainQueue fuel' childMap (queue' ++ children childMap p) (result ++ [p])
    end
  end.

Definition collectDescendants (fuel : nat) (pid : Z) (childMap : gmap Z (list Z))
    : option (list Z) :=
  drainQueue fuel childMap (children childMap pid) [].

Definition paneNeedsAttention (capture : string -> option string) (window : string)
    (cache : gmap string paneCapture) : bool * gmap string paneCapture :=
  let '(content, ok, cache') := getPaneContent capture window cache in
  if negb ok then (false, cache') else (classifyPaneNeedsAttention content, cache').

Definition paneSignals (capture : string -> option string) (window : string)
    (cache : gmap string paneCapture) : string * string * gmap string paneCapture :=
  let '(content, ok, cache') := getPaneContent capture window cache in
  if negb ok then ("", "", cache')
  else (classifyPaneAttentionSignature content,
        classifyPaneCompletionSignature content, cache').

Module windowSummary.
Record t := { status : string; focused : bool }.
End windowSummary.

(** What one run of [updateAllPanes] carries from pane to pane and from
    window to window: its locals [seenWindows], [summaries] and [paneCache],
    the package-level maps, and the commands run so far. *)
Module cycle.
Record t := {
  seenWindows : gset string;
  summaries : gmap string windowSummary.t;
  paneCache : gmap string paneCapture;
  state : store;
  commands : list command
}.
End cycle.

Section Cycle.

(** The case table of [strings.ToLower], the function [classifyPaneTopic],
    the function variable [capturePaneOutput] and the content of [/proc]. *)
Variable caseTable : Z -> Z.
Variable classifyPaneTopic : string -> string.
Variable capture : string -> option string.
Variable fs : procfs.

(** The two tests [findAgent] makes on a command line. *)
Definition agentOf (pid : Z) : option string :=
  let lower := ToLower caseTable (readCmdline fs pid) in
  if Contains lower "claude" then Some "claude"
  else if Contains lower "codex" then Some "codex"
  else None.

(** The inner loop of [findAgent], over the grandchildren. *)
Fixpoint firstAgent (pids : list Z) : option (Z * string) :=
  match pids with
  | [] => None
  | gc :: rest =>
    match agentOf gc with
    | Some name => Some (gc, name)
    | None => firstAgent rest
    end
  end.

Fixpoint findAgentAmong (childMap : gmap Z (list Z)) (pids : list Z) : Z * string :=
  match pids with
  | [] => (0, "")
  | child :: rest =>
    match agentOf child with
    | Some name => (child, name)
    | None =>
      match firstAgent (children childMap child) with
      | Some found => found
      | None => findAgentAmong childMap rest
      end
    end
  end.

Definition findAgent (panePID : Z) (childMap : gmap Z (list Z)) : Z * string :=
  findAgentAmong childMap (children childMap panePID).

(** The body of the loop of [getStatus] over the descendants; [None]
    stands for [continue]. *)
Definition childSignal (d : Z) : option string :=
  let comm := ToLower caseTable (readComm fs d) in
  let cmdline := ToLower caseTable (readCmdline fs d) in
  if isAgentLikeProcess comm cmdline then None
  else
    let signal := if String.eqb cmdline "" then comm else cmdline in
    if String.eqb signal "" then None else Some signal.

(** [now] is what [time.Now()] reads in the call of [isPaneActive], if
    one is made; [None] when [collectDescendants] does not return within
    [fuel] iterations. *)
Definition getStatus (fuel : nat) (window : string) (panePID : Z)
    (childMap : gmap Z (list Z)) (now : Z) (cache : gmap string paneCapture)
    (st : store) : option (string * gmap string paneCapture * store) :=
  let '(agentPID, agentName) := findAgent panePID childMap in
  if agentPID =? 0 then Some ("", cache, st)
  else
    let prefix := if String.eqb agentName "codex" then "x " else "c " in
    match collectDescendants fuel agentPID childMap with
    | None => None
    | Some descendants =>
      match omap childSignal descendants with
      | [] =>
        let '(needsAttention, cache1) := paneNeedsAttention capture window cache in
        if needsAttention then Some (prefix +:+ "💤", cache1, st)
        else
          let '(paneActive, cache2, st2) := isPaneActive capture window now cache1 st in
          Some (if paneActive then prefix +:+ "🧠" else prefix +:+ "💤", cache2, st2)
      | childSignals =>
        let childStatus := classifyChildren caseTable childSignals in
        if String.eqb childStatus "⚙️" then
          let '(paneActive, cache1, st1) := isPaneActive capture window now cache st in
          let '(needsAttention, cache2) := paneNeedsAttention capture window cache1 in
          Some (unknownChildStatus prefix paneActive needsAttention, cache2, st1)
        else Some (prefix +:+ childStatus, cache, st)
      end
    end.

(** The pane's status joins the summary of its window: the end of the
    body of the first loop of [updateAllPanes]. *)
Definition summarize (summaries : gmap string windowSummary.t) (window : string)
    (rawStatus : string) (focused : bool) : gmap string windowSummary.t :=
  match summaries !! window with
  | None =>
    <[window := {| windowSummary.status := rawStatus;
                   windowSummary.focused := focused |}]> summaries
  | Some prev =>
    <[window :=
        {| windowSummary.status :=
             if statusPriority (windowSummary.status prev) <? statusPriority rawStatus
             then rawStatus else windowSummary.status prev;
           windowSummary.focused := windowSummary.focused prev || focused |}]>
      summaries
  end.

(** The first loop, [for _, p := range panes], from pane number [k] on;
    [clock k] is the time read while pane number [k] is dealt with. *)
Fixpoint visitPanes (fuel : nat) (childMap : gmap Z (list Z)) (clock : nat -> Z)
    (k : nat) (panes : list paneInfo.t) (c : cycle.t) : option cycle.t :=
  match panes with
  | [] => Some c
  | p :: rest =>
    match getStatus fuel (paneInfo.window p) (paneInfo.pid p) childMap (clock k)
            (cycle.paneCache c) (cycle.state c) with
    | None => None
    | Some (rawStatus, cache', st') =>
      visitPanes fuel childMap clock (S k) rest
        {| cycle.seenWindows := {[ paneInfo.window p ]} ∪ cycle.seenWindows c;
           cycle.summaries :=
             summarize (cycle.summaries c) (paneInfo.window p) rawStatus
               (paneInfo.focused p);
           cycle.paneCache := cache';
           cycle.state := st';
           cycle.commands := cycle.commands c |}
    end
  end.

(** The body of the second loop, [for window, s := range summaries]. *)
Definition reportWindow (window : string) (s : windowSummary.t) (c : cycle.t)
    : cycle.t :=
  let rawStatus := windowSummary.status s in
  let focused := windowSummary.focused s in
  let st := cycle.state c in
  let wasWorking := default false (windowWasWorking st !! window) in
  let isWorking := isWorkingStatus rawStatus in
  let seenBefore := default false (windowSeen st !! window) in
  let '(promptSig, doneSig, cache1) :=
    if negb isWorking && negb (String.eqb rawStatus "") then
      paneSignals capture window (cycle.paneCache c)
    else ("", "", cycle.paneCache c) in
  let prevPromptSig := default "" (windowPromptSig st !! window) in
  let prevDoneSig := default "" (windowDoneSig st !! window) in
  let st1 :=
    if shouldMarkUnread wasWorking focused isWorking rawStatus seenBefore
         promptSig prevPromptSig doneSig prevDoneSig
    then markUnread window st else st in
  let st2 := if focused then clearUnread window st1 else st1 in
  let st3 := if isWorking then clearUnread window st2 else st2 in
  let st4 := recordCycle window isWorking promptSig doneSig st3 in
  let effectiveStatus :=
    if negb isWorking && negb (String.eqb rawStatus "") && isUnread window st4 then
      if HasSuffix rawStatus "💤" then TrimSuffix rawStatus "💤" +:+ "📬"
      else rawStatus
    else rawStatus in
  let '(effectiveStatus', cache2, st5) :=
    if negb (String.eqb effectiveStatus "") then
      let '(topic, cache2, st5) :=
        rememberWindowTopic classifyPaneTopic capture window cache1 st4 in
      (formatStatusWithTopic effectiveStatus topic, cache2, st5)
    else (effectiveStatus, cache1, st4) in
  let '(cmd, st6) := setWindowStatus window effectiveStatus' st5 in
  {| cycle.seenWindows := cycle.seenWindows c;
     cycle.summaries := cycle.summaries c;
     cycle.paneCache := cache2;
     cycle.state := st6;
     cycle.commands :=
       cycle.commands c ++ match cmd with Some issued => [issued] | None => [] end |}.

(** The second loop visits the keys of [summaries], each once, in an order
    the language leaves open: [order]. *)
Definition reportWindows (order : list string) (c : cycle.t) : cycle.t :=
  fold_left
    (fun c window =>
       match cycle.summaries c !! window with
       | Some s => reportWindow window s c
       | None => c
       end)
    order c.

(** One cycle: the commands run and the package-level maps afterwards;
    [None] when a call of [collectDescendants] does not return within
    [fuel] iterations. *)
Definition updateAllPanes (fuel : nat) (listPanesOutput : option string)
    (clock : nat -> Z) (order : list string) (st : store)
    : option (list command * store) :=
  match listPanes listPanesOutput with
  | [] => Some ([], st)
  | panes =>
    let childMap := buildChildMap fs in
    match visitPanes fuel childMap clock 0 panes
            {| cycle.seenWindows := ∅; cycle.summaries := ∅; cycle.paneCache := ∅;
               cycle.state := st; cycle.commands := [] |} with
    | None => None
    | Some c =>
      let c' := reportWindows order c in
      Some (cycle.commands c', cleanUp (cycle.seenWindows c') (cycle.state c'))
    end
  end.

End Cycle.

(** ** The daemon ([main]) *)

(** What a cycle finds around it: the function variable
    [capturePaneOutput], the content of [/proc], what the function variable
    [listPanesOutput] returns, the clock, and the order in which the second
    loop of [updateAllPanes] visits the summaries. *)
Module world.
Record t := {
  capture : string -> option string;
  proc : procfs;
  listing : option string;
  clock : nat -> Z;
  order : list string
}.
End world.

Section Main.

Variable caseTable : Z -> Z.
Variable classifyPaneTopic : string -> string.

(** [for { updateAllPanes(); time.Sleep(2 * time.Second) }], for as many
    cycles as [worlds] has elements: the commands run and the
    package-level maps at the end; [None] when a cycle does not return
    within [fuel] iterations of [collectDescendants]. *)
Fixpoint cycles (fuel : nat) (worlds : list world.t) (st : store)
    : option (list command * store) :=
  match worlds with
  | [] => Some ([], st)
  | w :: rest =>
    match updateAllPanes caseTable classifyPaneTopic (world.capture w) (world.proc w)
            fuel (world.listing w) (world.clock w) (world.order w) st with
    | None => None
    | Some (issued, st') =>
      match cycles fuel rest st' with
      | None => None
      | Some (later, st'') => Some (issued ++ later, st'')
      end
    end
  end.

(** The program starts with its package-level maps empty. *)
Definition main (fuel : nat) (worlds : list world.t) : option (list command * store) :=
  cycles fuel worlds emptyStore.

End Main.

(** ** The topic word ([classifyPaneTopic] and below) *)

Definition topicMaxRunes : Z := 8.

Definition topicStopWords : list string :=
  ["a"; "an"; "and"; "are"; "as"; "at"; "be"; "by";
   "do"; "for"; "from"; "i"; "if"; "in"; "into"; "is";
   "it"; "its"; "me"; "my"; "now"; "of"; "on"; "or";
   "our"; "please"; "run"; "show"; "that"; "the"; "this";
   "to"; "up"; "us"; "we"; "with"; "your";
   "app"; "page"; "file"; "issue"; "task";
   "filename"; "codebase"; "change"; "changes"; "commit"; "commits"; "current";
   "add"; "check"; "create"; "deploy"; "explain"; "fix";
   "make"; "remove"; "summarize"; "update"; "write";
   "clean"; "debug"; "improve"; "investigate"; "refactor";
   "test"; "tests"; "work";
   "thinking"; "planning"; "implementing"; "accomplishing";
   "brewing"; "leavening"; "perusing"; "pondering"; "transfiguring"].

Definition topicAlias : list (string * string) :=
  [("auth", "auth"); ("authentication", "auth"); ("authorize", "auth");
   ("login", "auth"); ("signin", "auth"); ("oauth", "auth");
   ("nav", "nav"); ("navbar", "nav"); ("navigation", "nav");
   ("menu", "menu"); ("menus", "menu"); ("hamburger", "menu"); ("drawer", "menu");
   ("search", "search"); ("query", "search");
   ("shop", "shop"); ("checkout", "checkout"); ("cart", "cart");
   ("payment", "payment"); ("shipping", "shipping");
   ("promo", "promo"); ("promotions", "promo"); ("campaign", "promo");
   ("image", "image"); ("images", "image"); ("photo", "image");
   ("parser", "parser"); ("scrape", "scrape"); ("crawler", "scrape");
   ("db", "db"); ("database", "db"); ("sql", "sql"); ("api", "api");
   ("cache", "cache"); ("redis", "cache");
   ("deploy", "deploy"); ("release", "deploy")].

Definition topicPreferred : list string :=
  ["auth"; "nav"; "menu"; "search"; "shop"; "promo";
   "checkout"; "cart"; "payment"; "shipping";
   "parser"; "scrape"; "db"; "api"; "cache"; "deploy"].

(** [_, ok := m[key]] for a map used as a set. *)
Definition hasKey (keys : list string) (key : string) : bool :=
  existsb (String.eqb key) keys.

(** [v, ok := m[key]] for a map literal, whose keys are distinct. *)
Fixpoint lookupKey (m : list (string * string)) (key : string) : option string :=
  match m with
  | [] => None
  | (k, v) :: rest => if String.eqb key k then Some v else lookupKey rest key
  end.

Definition maxInt (a b : Z) : Z := if b <? a then a else b.

(** The cutset of [trimTopic]: [_-.:,;!?()[]{}], the double quote, the
    single quote and the backquote. *)
Definition topicCutset : string :=
  "_-.:,;!?()[]{}" +:+ String "034" "'`".

Definition trimTopic (token : string) : string :=
  let token := Trim token topicCutset in
  if String.eqb token "" then ""
  else
    let r := runes token in
    if topicMaxRunes <? Z.of_nat (length r) then
      fromRunes (take (Z.to_nat topicMaxRunes) r)
    else token.

Section Topic.

(** The tables of the Unicode database that [strings.ToLower],
    [unicode.IsLetter] and [unicode.IsDigit] consult above Latin-1 (above
    ASCII for the first). *)
Variable caseTable : Z -> Z.
Variable letterTable : Z -> bool.
Variable digitTable : Z -> bool.

Definition tokenizeTopicWords (text : string) : list string :=
  FieldsFunc text
    (fun r => negb (unicode.IsLetter letterTable r)
              && negb (unicode.IsDigit digitTable r)).

Definition isNumericWord (word : string) : bool :=
  if String.eqb word "" then false
  else forallb (unicode.IsDigit digitTable) (runes word).

Definition normalizeTopicToken (raw : string) : string :=
  let raw := ToLower caseTable raw in
  if String.eqb raw "" || isNumericWord raw then ""
  else if hasKey topicStopWords raw then ""
  else
    match lookupKey topicAlias raw with
    | Some alias => trimTopic alias
    | None =>
      let token := trimTopic raw in
      if String.eqb token "" || isNumericWord token then "" else token
    end.

(** [idx] is below the number of tokens, which is below half the length
    of a string: [idx * 2] is within the range of [int]. *)
Definition topicScore (raw token : string) (idx total : Z) : Z :=
  let score := Z.of_nat (length (runes token)) in
  let score := if hasKey topicPreferred token then score + 7 else score in
  let score :=
    match lookupKey topicAlias raw with
    | Some alias => if String.eqb alias token then score + 4 else score
    | None => score
    end in
  let score := if HasSuffix raw "ing" then score - 3 else score in
  score + Z.quot (idx * 2) (maxInt total 1).

(** The first loop of [extractTopicWord], over the fields: the first
    command after a slash that normalizes to a word. *)
Fixpoint slashCommand (fields : list string) : option string :=
  match fields with
  | [] => None
  | field :: rest =>
    let cmd :=
      if HasPrefix field "/" && (1 <? len field) then
        match tokenizeTopicWords (TrimPrefix field "/") with
        | first :: _ => normalizeTopicToken first
        | [] => ""
        end
      else "" in
    if negb (String.eqb cmd "") then Some cmd else slashCommand rest
  end.

(** The second loop of [extractTopicWord], from token number [i] on. *)
Fixpoint bestToken (total : Z) (i : Z) (tokens : list string)
    (best : string) (bestScore : Z) : string :=
  match tokens with
  | [] => best
  | rawToken :: rest =>
    let token := normalizeTopicToken rawToken in
    if String.eqb token "" then bestToken total (i + 1) rest best bestScore
    else
      let score := topicScore rawToken token i total in
      if bestScore <? score then bestToken total (i + 1) rest token score
      else bestToken total (i + 1) rest best bestScore
  end.

Definition extractTopicWord (text : string) : string :=
  let lower := ToLower caseTable text in
  match slashCommand (Fields lower) with
  | Some cmd => cmd
  | None =>
    let tokens := tokenizeTopicWords lower in
    bestToken (Z.of_nat (length tokens)) 0 tokens "" (-1)
  end.

(** The word of an active line: the line without its spinner glyph and
    without what follows the first [" ("]. *)
Definition activityOf (line : string) : string :=
  let activity :=
    if hasSpinnerMarker line && (2 <? len line) then TrimSpace (sliceFrom 2 line)
    else line in
  let cut := Index activity " (" in
  if 0 <? cut then sliceTo (Z.to_nat cut) activity else activity.

Definition classifyPaneTopic (content : string) : string :=
  let found (text : string) : option string :=
    let topic := extractTopicWord text in
    if negb (String.eqb topic "") then Some topic else None in
  scanUp 24
    (fun line =>
       if HasPrefix line "› " || String.eqb line "›" then
         found (TrimSpace (TrimPrefix line "›"))
       else if HasPrefix line "❯ " || String.eqb line "❯" then
         found (TrimSpace (TrimPrefix line "❯"))
       else if hasActiveMarker line then found (activityOf line)
       else None)
    "" 0 (linesUp content).

End Topic.

(** ** Specification-side notions *)

(** The lines a scan of depth [cap] looks at: the lines of the text from
    the bottom upward, trimmed, without the empty ones, the first [cap]. *)
Definition scannedLines (cap : nat) (content : string) : list string :=
  take cap (List.filter (fun l => negb (String.eqb l "")) (map TrimSpace (linesUp content))).

(** A line that counts as a marker for the active/idle decision. *)
Definition isMarkerLine (line : string) : bool :=
  isCompletionLine line || hasActiveMarker line.

(** A prompt line of the agent whose prompt glyph is [glyph]: the bare
    glyph, or the glyph, a space and more text. *)
Definition isPromptLine (glyph line : string) : bool :=
  String.eqb line glyph || HasPrefix line (glyph +:+ " ").

Definition promptTag (line : string) : string :=
  if isPromptLine "›" line then "codex:" else "claude:".

(** The spec's "carries non-trivial text beyond a bare prompt glyph": what
    follows the agent tag is, once trimmed, neither empty nor the glyph. *)
Definition carriesPromptText (promptSig : string) : Prop :=
  (exists rest, promptSig = "codex:" +:+ rest
                /\ TrimSpace rest <> "" /\ TrimSpace rest <> "›")
  \/ (exists rest, promptSig = "claude:" +:+ rest
                   /\ TrimSpace rest <> "" /\ TrimSpace rest <> "❯").

(** The value a scan returns on the lines it looks at. *)
Fixpoint firstVisit {A : Type} (visit : string -> option A) (dflt : A)
    (lines : list string) : A :=
  match lines with
  | [] => dflt
  | line :: above =>
    match visit line with
    | Some r => r
    | None => firstVisit visit dflt above
    end
  end.

(** The raw classification of this cycle is inactive: the capture missed,
    or [classifyPaneContent] says idle. *)
Definition rawInactive (capture : string -> option string) (window : string)
    (cache : gmap string paneCapture) : Prop :=
  (getPaneContent capture window cache).1.2 = false
  \/ classifyPaneContent (getPaneContent capture window cache).1.1 = false.

(** [pid] names a directory entry of the scan. *)
Definition scanned (fs : procfs) (pid : Z) : Prop :=
  exists entries e,
    readDir fs = Some entries /\ In e entries
    /\ IsDir e = true /\ strconv.Atoi (Name e) = (pid, true).

(** The map has the edge from parent [p] to child [c]. *)
Definition edge (m : gmap Z (list Z)) (p c : Z) : Prop := In c (children m p).

(** The topology as the spec states it: the edges are those of positive
    recorded parent ids, and a self-referential or zero recorded parent id
    produces no edge. *)
Definition edgesAsStated (fs : procfs) : Prop :=
  (forall p c : Z,
     edge (buildChildMap fs) p c <-> scanned fs c /\ readPPID fs c = p /\ 0 < p)
  /\ (forall p c : Z,
        scanned fs c -> readPPID fs c = c \/ readPPID fs c = 0 ->
        ~ edge (buildChildMap fs) p c).

(** Only non-empty topic words are ever stored. *)
Definition topicsNonEmpty (st : store) : Prop :=
  forall w topic, windowTopic st !! w = Some topic -> topic <> "".

(** The hysteresis fields of two records agree. *)
Definition sameHysteresis (r r' : windowState) : Prop :=
  applied r' = applied r /\ pending r' = pending r /\ count r' = count r.

(** No byte of [m] is the newline. *)
Fixpoint noNewline (m : string) : bool :=
  match m with
  | EmptyString => true
  | String c m' => negb (Ascii.eqb c "010") && noNewline m'
  end.

(** The markers are free of newlines and non-empty. *)
Definition plainMarkers (markers : list string) : bool :=
  forallb (fun m => noNewline m && negb (String.eqb m "")) markers.

(** [classifyChildren] on the elements already lower-cased. *)
Definition classifyLowered (lowered : list string) : string :=
  let has (markers : list string) :=
    existsb (fun e => containsAny e markers) lowered in
  if has buildMarkers then "🔨"
  else if has testMarkers then "🧪"
  else if has packageMarkers then "📦"
  else if has ["git"] then "🔀"
  else if has networkMarkers then "🌐"
  else "⚙️".

(** Along a run from the start of the program, the count of a window
    stays below the threshold, and it counts the most recent calls for
    the window: each was made with the pending status as its argument,
    while the applied status was the present one. *)
Definition hysteresisInv (threshold : Z) (classifyPaneTopic : string -> string)
  (events : list event) (st : store) : Prop :=
  forall w,
    let r := windowRecord st w in
    0 <= count r < threshold
    /\ exists earlier,
         callLog threshold classifyPaneTopic w events emptyStore
         = earlier ++ repeat (pending r, applied r) (Z.to_nat (count r)).

(** [t] does not begin with a white-space rune. *)
Definition noLeadingSpace (t : string) : Prop :=
  t = "" \/ unicode.IsSpace (utf8.DecodeRuneInString t).1 = false.

(** [rt], a string read backwards, does not end with a white-space rune. *)
Definition noTrailingSpaceRev (rt : string) : Prop :=
  rt = "" \/ unicode.IsSpace (utf8.DecodeLastRuneInString rt).1 = false.

(** ** Sample inputs *)

(** The text whose lines are [ls], each ended by a newline. *)
Definition text (ls : list string) : string :=
  fold_right (fun l rest => l +:+ nl +:+ rest) "" ls.

Definition doneBelowSpinner : string :=
  "· Thinking… (5s · esc to interrupt)" +:+ nl +:+ "Done." +:+ nl +:+ nl
  +:+ "› Explain this codebase" +:+ nl +:+ "  gpt-5.3-codex · 87% left" +:+ nl.

Definition doneThenPrompt : string :=
  "Done." +:+ nl +:+ nl +:+ "› Explain this codebase" +:+ nl.

Definition spinnerAbovePrompt : string :=
  "◦ Planning broad tests and monitoring (1m 03s • esc to interrupt)" +:+ nl
  +:+ "› Find and fix a bug in @filename" +:+ nl.

Definition spinnerTracked : store :=
  withActiveMarker
    (<[ "test:stale-active" := classifyPaneActiveSignature spinnerAbovePrompt ]> ∅)
    (<[ "test:stale-active" := 0 ]> ∅) emptyStore.

Definition graceStore (last : Z) : store :=
  withLastActive (<[ "test:99" := last ]> ∅) emptyStore.

(** A process table in which process 5 records itself as its parent. *)
Definition selfParentProc : procfs :=
  {| readDir := Some [ {| Name := "5"; IsDir := true |};
                       {| Name := "7"; IsDir := true |};
                       {| Name := "uptime"; IsDir := false |} ];
     files := <[ "/proc/5/stat" := "5 (loop) S 5 5 5 0 -1 4194560" ]>
                (<[ "/proc/7/stat" := "7 (kthreadd) S 0 0 0 0 -1 2129984" ]> ∅) |}.

Definition reviewTopic (content : string) : string :=
  if Contains content "review" then "review" else "".

(** ** Notions and sample inputs for the rest of the program *)

(** Every byte of [s] satisfies [P]. *)
Fixpoint allBytes (P : Z -> bool) (s : string) : bool :=
  match s with
  | EmptyString => true
  | String c s' => P (utf8.byte c) && allBytes P s'
  end.

(** A printable ASCII byte other than the space. *)
Definition graphic (b : Z) : bool := (0x21 <=? b) && (b <=? 0x7E).
Definition isDigit (b : Z) : bool := (0x30 <=? b) && (b <=? 0x39).
Definition differs (c : ascii) (b : Z) : bool := negb (b =? utf8.byte c).

(** A line of [/proc/<pid>/stat] as the kernel writes it: the process id,
    the command name in parentheses, the state, the parent's id and the
    fields that follow. *)
Definition statLine (pid : Z) (comm : string) (state : ascii) (ppid : Z)
    (rest : string) : string :=
  itoa pid +:+ " (" +:+ comm +:+ ") "
  +:+ String state (" " +:+ itoa ppid +:+ " " +:+ rest).

(** The process id that a directory entry of [/proc] stands for, if any. *)
Definition entryPid (e : dirEntry) : option Z :=
  if IsDir e then
    let '(pid, noErr) := strconv.Atoi (Name e) in
    if noErr then Some pid else None
  else None.

(** The process ids of a scan, in the order of the directory listing. *)
Definition scannedPids (fs : procfs) : list Z :=
  match readDir fs with
  | None => []
  | Some entries => omap entryPid entries
  end.




(** The prefix [getStatus] gives the status of an agent of this name. *)
Definition agentPrefix (agentName : string) : string :=
  if String.eqb agentName "codex" then "x " else "c ".

(** The categories of [classifyChildren] other than the unknown one. *)
Definition childIcons : list string := ["🔨"; "🧪"; "📦"; "🔀"; "🌐"].

(** Two stores agree on everything that is not about [window]: the maps
    that [isPaneActive] writes agree at every other window, the other maps
    are the same. *)
Definition sameButActivity (window : string) (st st' : store) : Prop :=
  statusState st' = statusState st
  /\ windowWasWorking st' = windowWasWorking st
  /\ windowSeen st' = windowSeen st
  /\ windowPromptSig st' = windowPromptSig st
  /\ windowDoneSig st' = windowDoneSig st
  /\ windowTopic st' = windowTopic st
  /\ forall other, other <> window ->
       lastActive st' !! other = lastActive st !! other
       /\ windowActiveSig st' !! other = windowActiveSig st !! other
       /\ windowActiveAt st' !! other = windowActiveAt st !! other.

(** No candidate status is being counted for any window.  With the
    threshold of the source this holds between any two calls of
    [setWindowStatus]. *)
Definition settled (st : store) : Prop :=
  forall w r, statusState st !! w = Some r -> count r = 0.

(** The text a window's tab is given: the status of its most significant
    pane, the idle icon replaced by the unread one when the window is
    unread, and the topic, if any, after a space. *)
Definition shownStatus (rawStatus : string) (isUnread : bool) (topic : string)
    : string :=
  formatStatusWithTopic
    (if isUnread && HasSuffix rawStatus "💤"
     then TrimSuffix rawStatus "💤" +:+ "📬" else rawStatus)
    topic.

(** The command that makes a window's tab show [status]. *)
Definition showCommand (window status : string) : command :=
  if negb (String.eqb status "") then RenameWindow window status
  else AutomaticRenameOn window.

(** What the program remembers of a window from one cycle to the next is
    the same in two stores. *)
Definition sameMemory (window : string) (st st' : store) : Prop :=
  statusState st' !! window = statusState st !! window
  /\ windowWasWorking st' !! window = windowWasWorking st !! window
  /\ windowSeen st' !! window = windowSeen st !! window
  /\ windowPromptSig st' !! window = windowPromptSig st !! window
  /\ windowDoneSig st' !! window = windowDoneSig st !! window.

(** The prompt and completion signatures the second loop of
    [updateAllPanes] computes for a window: those of the pane text when the
    status is an idle one, empty otherwise. *)
Definition windowSignals (capture : string -> option string) (window : string)
    (rawStatus : string) (cache : gmap string paneCapture) : string * string :=
  if negb (isWorkingStatus rawStatus) && negb (String.eqb rawStatus "") then
    (paneSignals capture window cache).1
  else ("", "").

(** The unread decision the second loop takes for a window, from what the
    store remembers of it. *)
Definition marksUnread (capture : string -> option string) (window : string)
    (s : windowSummary.t) (cache : gmap string paneCapture) (st : store) : bool :=
  let rawStatus := windowSummary.status s in
  let '(promptSig, doneSig) := windowSignals capture window rawStatus cache in
  shouldMarkUnread (default false (windowWasWorking st !! window))
    (windowSummary.focused s) (isWorkingStatus rawStatus) rawStatus
    (default false (windowSeen st !! window))
    promptSig (default "" (windowPromptSig st !! window))
    doneSig (default "" (windowDoneSig st !! window)).

(** The first loop of [updateAllPanes] as far as the summaries go: the
    panes' windows, statuses and focus flags join the summaries in turn. *)
Definition summarizeAll (entries : list (string * string * bool))
    (summaries : gmap string windowSummary.t) : gmap string windowSummary.t :=
  fold_left (fun m e => summarize m e.1.1 e.1.2 e.2) entries summaries.

(** The entries of the panes of [window]. *)
Definition panesOf (window : string) (entries : list (string * string * bool))
    : list (string * string * bool) :=
  List.filter (fun e => String.eqb e.1.1 window) entries.

(** [s] sums up the pane entries [mine] of a window: its status is the
    first among them of the highest priority, and it is focused when one
    of them is. *)
Definition sumsUp (s : windowSummary.t) (mine : list (string * string * bool)) : Prop :=
  (exists before after,
     map (fun e => e.1.2) mine = before ++ windowSummary.status s :: after
     /\ Forall (fun r => statusPriority r < statusPriority (windowSummary.status s)) before
     /\ Forall (fun r => statusPriority r <= statusPriority (windowSummary.status s)) after)
  /\ windowSummary.focused s = existsb snd mine.

(** The windows of a pane list. *)
Definition paneWindows (panes : list paneInfo.t) : list string :=
  map paneInfo.window panes.

(** The entries that the first loop feeds the summaries: the panes with
    the statuses [getStatus] found for them. *)
Definition paneEntries (panes : list paneInfo.t) (statuses : list string)
    : list (string * string * bool) :=
  zip_with (fun p r => (paneInfo.window p, r, paneInfo.focused p)) panes statuses.

(** The store holds nothing about the window. *)
Definition forgotten (st : store) (w : string) : Prop :=
  lastActive st !! w = None /\ statusState st !! w = None
  /\ windowWasWorking st !! w = None /\ windowSeen st !! w = None
  /\ windowPromptSig st !! w = None /\ windowDoneSig st !! w = None
  /\ windowActiveSig st !! w = None /\ windowActiveAt st !! w = None
  /\ windowTopic st !! w = None.

(** The line that [tmux list-panes] prints for a pane with the format the
    program asks for: the window, the process id and the focus flag. *)
Definition paneLine (p : paneInfo.t) : string :=
  paneInfo.window p +:+ " " +:+ itoa (paneInfo.pid p) +:+ " "
  +:+ (if paneInfo.focused p then "1" else "0").

(** A pane whose line [listPanes] can read back: the name of the window
    is not empty and is made of printable ASCII bytes without a space, the
    process id is an [int], and the line fits the scanner's buffer. *)
Definition readable (p : paneInfo.t) : Prop :=
  paneInfo.window p <> ""
  /\ allBytes graphic (paneInfo.window p) = true
  /\ strconv.minInt64 <= paneInfo.pid p <= strconv.maxInt64
  /\ len (paneLine p) < bufio.MaxScanTokenSize.

(** A process table in which the shell of a pane, process 100, runs the
    agent as process 200, and the agent runs [make] as process 300. *)
Definition agentProc : procfs :=
  {| readDir := Some [ {| Name := "100"; IsDir := true |};
                       {| Name := "200"; IsDir := true |};
                       {| Name := "300"; IsDir := true |};
                       {| Name := "self"; IsDir := true |} ];
     files :=
       <[ "/proc/100/stat" := "100 (bash) S 1 100 100 34816 100 4194304" ]>
       (<[ "/proc/200/stat" := "200 (node) S 100 200 100 34816 200 4194304" ]>
       (<[ "/proc/300/stat" := "300 (make) R 200 200 100 34816 200 4194304" ]>
       (<[ "/proc/100/cmdline" := "-bash" +:+ String "000" "" ]>
       (<[ "/proc/200/cmdline" :=
             "node" +:+ String "000" ("/usr/local/bin/claude" +:+ String "000" "") ]>
       (<[ "/proc/300/cmdline" := "make" +:+ String "000" ("all" +:+ String "000" "") ]>
       (<[ "/proc/200/comm" := "node" +:+ nl ]>
       (<[ "/proc/300/comm" := "make" +:+ nl ]> ∅))))))) |}.

(** The same table once [make] has ended. *)
Definition idleAgentProc : procfs :=
  {| readDir := Some [ {| Name := "100"; IsDir := true |};
                       {| Name := "200"; IsDir := true |} ];
     files := files agentProc |}.

(** A cycle over one pane, in window [s:1], whose agent runs no child and
    shows a prompt below a completion line; the store remembers a window
    that is gone. *)
Definition sampleCycle : option (list command * store) :=
  updateAllPanes (fun r => r) reviewTopic (fun _ => Some doneThenPrompt) idleAgentProc
    10 (Some (text ["s:1 100 0"])) (fun _ => 0) ["s:1"] (graceStore 0).

(** The state of a cycle that is about to report its windows, over the
    empty maps. *)
Definition freshCycle : cycle.t :=
  {| cycle.seenWindows := {[ "s:1" ]}; cycle.summaries := ∅; cycle.paneCache := ∅;
     cycle.state := emptyStore; cycle.commands := [] |}.

Definition idleSummary (focused : bool) : windowSummary.t :=
  {| windowSummary.status := "x 💤"; windowSummary.focused := focused |}.

(** The rune that [[]rune] reads back from the encoding of [r]: [r]
    itself when it is a Unicode scalar value, [RuneError] otherwise. *)
Definition encoded (r : Z) : Z :=
  if (r <? 0) || (utf8.MaxRune <? r) || ((0xD800 <=? r) && (r <=? 0xDFFF))
  then utf8.RuneError else r.

(** A topic word as the tab can carry it: at most [topicMaxRunes] runes,
    and not a number. *)
Definition topicWord (digitTable : Z -> bool) (topic : string) : Prop :=
  Z.of_nat (length (runes topic)) <= topicMaxRunes
  /\ isNumericWord digitTable topic = false.

(** The active signature of a window and the time it was first seen are
    tracked together. *)
Definition trackedTogether (st : store) : Prop :=
  forall w, is_Some (windowActiveSig st !! w) <-> is_Some (windowActiveAt st !! w).

(** What holds of the package-level maps between any two cycles: nothing
    is being counted, a signature and its time go together, the windows
    seen are flagged [true], and the topics stored are not empty. *)
Definition wellKept (st : store) : Prop :=
  settled st
  /\ trackedTogether st
  /\ (forall w seen, windowSeen st !! w = Some seen -> seen = true)
  /\ topicsNonEmpty st.

(** The text mentions one of the two agents. *)
Definition mentionsAgent (s : string) : bool :=
  Contains s "codex" || Contains s "claude".

(** Two cycles of the daemon: the agent of window [s:1] waits at a prompt,
    then it runs [make] while the pane shows a spinner. *)
Definition sampleWorlds : list world.t :=
  [ {| world.capture := fun _ => Some doneThenPrompt; world.proc := idleAgentProc;
       world.listing := Some (text ["s:1 100 0"]); world.clock := fun _ => 0;
       world.order := ["s:1"] |};
    {| world.capture := fun _ => Some spinnerAbovePrompt; world.proc := agentProc;
       world.listing := Some (text ["s:1 100 1"]); world.clock := fun _ => 2 * Second;
       world.order := ["s:1"] |} ].

Definition sampleDaemon : option (list command * store) :=
  main (fun r => r) reviewTopic 10 sampleWorlds.

(** The same two cycles with the topic function of the program, over
    Unicode tables that know nothing beyond Latin-1. *)
Definition sampleTopicDaemon : option (list command * store) :=
  main (fun r => r)
    (classifyPaneTopic (fun r => r) (fun _ => false) (fun _ => false)) 10 sampleWorlds.

(** * Properties *)

(** ** Strings *)

Lemma app_cons (c : ascii) (s t : string) : String c s +:+ t = String c (s +:+ t).
Proof. reflexivity. Qed.

Lemma HasPrefix_app (p rest : string) : HasPrefix (p +:+ rest) p = true.
Proof.
  induction p as [|c p IH]; [reflexivity|].
  rewrite app_cons. simpl. rewrite Ascii.eqb_refl. exact IH.
Qed.

Lemma sliceFrom_app (p rest : string) : sliceFrom (String.length p) (p +:+ rest) = rest.
Proof. induction p as [|c p IH]; [reflexivity|]. rewrite app_cons. exact IH. Qed.

Lemma HasPrefix_split (s p : string) :
  HasPrefix s p = true -> s = p +:+ sliceFrom (String.length p) s.
Proof.
  revert s. induction p as [|c p IH]; intros s H; [reflexivity|].
  destruct s as [|d s]; [discriminate|]. simpl in H.
  apply andb_true_iff in H as [Hc Hp]. apply Ascii.eqb_eq in Hc. subst d.
  rewrite app_cons. simpl. f_equal. apply IH, Hp.
Qed.

Lemma TrimPrefix_app (p rest : string) : TrimPrefix (p +:+ rest) p = rest.
Proof. unfold TrimPrefix. rewrite HasPrefix_app. apply sliceFrom_app. Qed.

Lemma eqb_false_iff (s t : string) : String.eqb s t = false <-> s <> t.
Proof. apply String.eqb_neq. Qed.

Lemma app_assoc_str (a b c : string) : (a +:+ b) +:+ c = a +:+ b +:+ c.
Proof. induction a as [|x a IH]; [reflexivity|]. rewrite !app_cons. now rewrite IH. Qed.

Lemma app_nil_l_str (s : string) : "" +:+ s = s.
Proof. reflexivity. Qed.

Lemma app_nil_r_str (s : string) : s +:+ "" = s.
Proof. induction s as [|x s IH]; [reflexivity|]. rewrite app_cons. now rewrite IH. Qed.

(** ** Scans *)

Lemma scanUp_firstVisit {A : Type} (cap : nat) (visit : string -> option A)
    (dflt : A) (lines : list string) (checked : nat) :
  scanUp cap visit dflt checked lines =
  firstVisit visit dflt
    (take (cap - checked)
       (List.filter (fun l => negb (String.eqb l "")) (map TrimSpace lines))).
Proof.
  revert checked. induction lines as [|raw above IH]; intros checked; simpl.
  - now rewrite take_nil.
  - destruct (Nat.leb_spec cap checked) as [Hle|Hlt].
    + replace (cap - checked)%nat with 0%nat by lia. reflexivity.
    + destruct (String.eqb (TrimSpace raw) "") eqn:He; simpl.
      * apply IH.
      * replace (cap - checked)%nat with (S (cap - S checked)) by lia. simpl.
        destruct (visit (TrimSpace raw)); [reflexivity|]. apply IH.
Qed.

Lemma scanUp_scannedLines {A : Type} (cap : nat) (visit : string -> option A)
    (dflt : A) (content : string) :
  scanUp cap visit dflt 0 (linesUp content) =
  firstVisit visit dflt (scannedLines cap content).
Proof. rewrite scanUp_firstVisit, Nat.sub_0_r. reflexivity. Qed.

Lemma firstVisit_skip {A : Type} (visit : string -> option A) (dflt : A)
    (below rest : list string) :
  Forall (fun l => visit l = None) below ->
  firstVisit visit dflt (below ++ rest) = firstVisit visit dflt rest.
Proof.
  induction 1 as [|l below Hl _ IH]; [reflexivity|]. simpl. now rewrite Hl.
Qed.

Lemma scannedLines_nonempty (cap : nat) (content : string) :
  Forall (fun l => l <> "") (scannedLines cap content).
Proof.
  unfold scannedLines. apply Forall_take, List.Forall_forall.
  intros l Hl. apply List.filter_In in Hl as [_ Hne].
  now apply negb_true_iff, eqb_false_iff in Hne.
Qed.

(** [isStaleActiveMarker] is called only on content that
    [classifyPaneContent] finds active, and such content has an active
    signature. *)
Lemma classifyPaneContent_active_signature (content : string) :
  classifyPaneContent content = true ->
  classifyPaneActiveSignature content <> "".
Proof.
  unfold classifyPaneContent, classifyPaneActiveSignature.
  rewrite !scanUp_scannedLines.
  induction (scannedLines_nonempty 12 content) as [|l ls Hl _ IH]; [discriminate|].
  simpl. destruct (isCompletionLine l); [discriminate|].
  destruct (hasActiveMarker l); [intros _; exact Hl | exact IH].
Qed.

(** ** Trimming is idempotent *)

Lemma strrev_app (acc s : string) : utf8.strrev acc s = utf8.strrev "" s +:+ acc.
Proof.
  revert acc. induction s as [|c s IH]; intros acc; [reflexivity|].
  simpl. rewrite (IH (String c acc)), (IH (String c "")).
  now rewrite app_assoc_str.
Qed.

Lemma strrev_append (a b : string) :
  utf8.strrev "" (a +:+ b) = utf8.strrev "" b +:+ utf8.strrev "" a.
Proof.
  induction a as [|c a IH]; [now rewrite app_nil_r_str|].
  rewrite app_cons. simpl.
  rewrite (strrev_app (String c "") (a +:+ b)), (strrev_app (String c "") a), IH.
  now rewrite app_assoc_str.
Qed.

Lemma strrev_involutive (s : string) : utf8.strrev "" (utf8.strrev "" s) = s.
Proof.
  induction s as [|c s IH]; [reflexivity|].
  simpl. rewrite (strrev_app (String c "") s), strrev_append, IH. reflexivity.
Qed.

Lemma trimLeftSpace_noLeadingSpace (s : string) (skip : nat) :
  noLeadingSpace (trimLeftSpace skip s).
Proof.
  revert skip. induction s as [|c s IH]; intros skip; [now left|].
  cbn [trimLeftSpace]. destruct skip as [|k]; [|apply IH].
  destruct (utf8.DecodeRuneInString (String c s)) as [r w] eqn:Hd.
  destruct (unicode.IsSpace r) eqn:Hr; [apply IH|].
  right. now rewrite Hd.
Qed.

Lemma trimRightSpaceRev_noTrailingSpace (rs : string) (skip : nat) :
  noTrailingSpaceRev (trimRightSpaceRev skip rs).
Proof.
  revert skip. induction rs as [|c rs IH]; intros skip; [now left|].
  cbn [trimRightSpaceRev]. destruct skip as [|k]; [|apply IH].
  destruct (utf8.DecodeLastRuneInString (String c rs)) as [r w] eqn:Hd.
  destruct (unicode.IsSpace r) eqn:Hr; [apply IH|].
  right. now rewrite Hd.
Qed.

Lemma trimLeftSpace_fixed (t : string) :
  noLeadingSpace t -> trimLeftSpace 0 t = t.
Proof.
  intros [-> | H]; [reflexivity|]. destruct t as [|c t]; [reflexivity|].
  cbn [trimLeftSpace]. destruct (utf8.DecodeRuneInString (String c t)) as [r w].
  simpl in H. now rewrite H.
Qed.

Lemma trimRightSpaceRev_fixed (rt : string) :
  noTrailingSpaceRev rt -> trimRightSpaceRev 0 rt = rt.
Proof.
  intros [-> | H]; [reflexivity|]. destruct rt as [|c rt]; [reflexivity|].
  cbn [trimRightSpaceRev]. destruct (utf8.DecodeLastRuneInString (String c rt)) as [r w].
  simpl in H. now rewrite H.
Qed.

(** What [trimRightSpaceRev] returns is the end of its argument. *)
Lemma trimRightSpaceRev_suffix (rs : string) (skip : nat) :
  exists dropped, rs = dropped +:+ trimRightSpaceRev skip rs.
Proof.
  revert skip. induction rs as [|c rs IH]; intros skip; [now exists ""|].
  cbn [trimRightSpaceRev].
  assert (Hrec : forall k, exists dropped, String c rs = dropped +:+ trimRightSpaceRev k rs).
  { intros k. destruct (IH k) as [d Hd]. exists (String c d).
    rewrite app_cons. now rewrite <- Hd. }
  destruct skip as [|k]; [|apply Hrec].
  destruct (utf8.DecodeLastRuneInString (String c rs)) as [r w].
  destruct (unicode.IsSpace r); [apply Hrec | now exists ""].
Qed.

(** Cutting a string short leaves the rune decoded at its head as it was,
    or turns it into [RuneError]. *)
Lemma decode_prefix (c : ascii) (u x : string) :
  utf8.DecodeRuneInString (String c u)
  = utf8.DecodeRuneInString (String c u +:+ x)
  \/ utf8.DecodeRuneInString (String c u) = (utf8.RuneError, 1%nat).
Proof.
  rewrite app_cons. unfold utf8.DecodeRuneInString.
  destruct (utf8.byte c <? utf8.RuneSelf); [now left|].
  destruct (utf8.first (utf8.byte c)) as [[[sz lo] hi]|]; [|now left].
  destruct u as [|c1 u]; [now right|]. rewrite app_cons.
  destruct (negb (utf8.within lo hi c1)); [now left|].
  destruct (sz <=? 2)%nat; [now left|].
  destruct u as [|c2 u]; [now right|]. rewrite app_cons.
  destruct (negb (utf8.within 128 191 c2)); [now left|].
  destruct (sz <=? 3)%nat; [now left|].
  destruct u as [|c3 u]; [now right|]. rewrite app_cons.
  now left.
Qed.

Lemma noLeadingSpace_prefix (u x : string) :
  noLeadingSpace (u +:+ x) -> noLeadingSpace u.
Proof.
  destruct u as [|c u]; [now left|].
  intros [H | H]; [discriminate|]. right.
  destruct (decode_prefix c u x) as [-> | ->]; [exact H | reflexivity].
Qed.

Lemma TrimSpace_idempotent (s : string) : TrimSpace (TrimSpace s) = TrimSpace s.
Proof.
  unfold TrimSpace.
  set (t := trimLeftSpace 0 s).
  set (r := trimRightSpaceRev 0 (utf8.strrev "" t)).
  assert (Hlead : noLeadingSpace (utf8.strrev "" r)).
  { destruct (trimRightSpaceRev_suffix (utf8.strrev "" t) 0) as [d Hd].
    fold r in Hd. apply (f_equal (utf8.strrev "")) in Hd.
    rewrite strrev_involutive, strrev_append in Hd.
    apply (noLeadingSpace_prefix _ (utf8.strrev "" d)). rewrite <- Hd.
    apply trimLeftSpace_noLeadingSpace. }
  rewrite (trimLeftSpace_fixed _ Hlead), strrev_involutive.
  now rewrite (trimRightSpaceRev_fixed r (trimRightSpaceRev_noTrailingSpace _ 0)).
Qed.

(** The lines a scan looks at are trimmed. *)
Lemma scannedLines_trimmed (cap : nat) (content : string) :
  Forall (fun l => TrimSpace l = l) (scannedLines cap content).
Proof.
  unfold scannedLines. apply Forall_take, List.Forall_forall.
  intros l Hl. apply List.filter_In in Hl as [Hin _].
  apply List.in_map_iff in Hin as (raw & <- & _). apply TrimSpace_idempotent.
Qed.

(** ** Unread/attention engine *)

Lemma hasPromptText_carries (promptSig : string) :
  hasPromptText promptSig = true <-> carriesPromptText promptSig.
Proof.
  unfold hasPromptText, carriesPromptText. split.
  - destruct (String.eqb promptSig ""); [discriminate|].
    destruct (HasPrefix promptSig "codex:") eqn:Hx.
    + intros H. apply andb_true_iff in H as [H1 H2].
      apply negb_true_iff, eqb_false_iff in H1, H2.
      left. exists (TrimPrefix promptSig "codex:"). repeat split; try assumption.
      unfold TrimPrefix. rewrite Hx. now apply HasPrefix_split.
    + destruct (HasPrefix promptSig "claude:") eqn:Hc; [|discriminate].
      intros H. apply andb_true_iff in H as [H1 H2].
      apply negb_true_iff, eqb_false_iff in H1, H2.
      right. exists (TrimPrefix promptSig "claude:"). repeat split; try assumption.
      unfold TrimPrefix. rewrite Hc. now apply HasPrefix_split.
  - intros [(rest & -> & H1 & H2)|(rest & -> & H1 & H2)].
    + rewrite HasPrefix_app, TrimPrefix_app.
      apply eqb_false_iff in H1, H2. now rewrite H1, H2.
    + change (HasPrefix ("claude:" +:+ rest) "codex:") with false.
      rewrite HasPrefix_app, TrimPrefix_app.
      apply eqb_false_iff in H1, H2. now rewrite H1, H2.
Qed.

Lemma eqb_app_l (p a b : string) : String.eqb (p +:+ a) (p +:+ b) = String.eqb a b.
Proof.
  induction p as [|c p IH]; [reflexivity|].
  rewrite !app_cons. simpl. now rewrite Ascii.eqb_refl.
Qed.

(** On a signature that [detectPromptSignature] produces, [hasPromptText]
    holds exactly when the signature is neither empty nor a tag with the
    bare glyph: the prompt line found has text after the glyph. *)
Lemma hasPromptText_detected (content : string) :
  let promptSig := detectPromptSignature content in
  hasPromptText promptSig
  = negb (String.eqb promptSig "") && negb (String.eqb promptSig "codex:›")
    && negb (String.eqb promptSig "claude:❯").
Proof.
  cbv zeta. unfold detectPromptSignature. rewrite scanUp_scannedLines.
  pose proof (scannedLines_trimmed 12 content) as Htrim.
  pose proof (scannedLines_nonempty 12 content) as Hne.
  induction (scannedLines 12 content) as [|l ls IH]; [reflexivity|].
  apply Forall_cons in Htrim as [Hl Htrim]. apply Forall_cons in Hne as [Hl0 Hne].
  apply eqb_false_iff in Hl0. cbn [firstVisit].
  destruct (HasPrefix l "› " || String.eqb l "›").
  - unfold hasPromptText. change (String.eqb ("codex:" +:+ l) "") with false.
    rewrite HasPrefix_app, TrimPrefix_app, Hl, Hl0. cbv iota.
    change "codex:›" with ("codex:" +:+ "›"). rewrite eqb_app_l.
    change (String.eqb ("codex:" +:+ l) "claude:❯") with false.
    cbn [negb andb]. now rewrite andb_true_r.
  - destruct (HasPrefix l "❯ " || String.eqb l "❯"); [|now apply IH].
    unfold hasPromptText. change (String.eqb ("claude:" +:+ l) "") with false.
    change (HasPrefix ("claude:" +:+ l) "codex:") with false.
    rewrite HasPrefix_app, TrimPrefix_app, Hl, Hl0. cbv iota.
    change "claude:❯" with ("claude:" +:+ "❯"). rewrite eqb_app_l.
    change (String.eqb ("claude:" +:+ l) "codex:›") with false.
    reflexivity.
Qed.

(** C5. [shouldMarkUnread] returns [false] whenever the window is focused,
    or the current status indicates active work ([isWorking]), or the raw
    status is empty; and it returns [true] whenever the window was working
    last cycle and is not working now, while unfocused and with a non-empty
    raw status. *)
Theorem shouldMarkUnread_guards_and_transition
    (wasWorking focused isWorking : bool) (rawStatus : string) (seenBefore : bool)
    (promptSig prevPromptSig doneSig prevDoneSig : string) :
  (focused = true \/ isWorking = true \/ rawStatus = "" ->
   shouldMarkUnread wasWorking focused isWorking rawStatus seenBefore
     promptSig prevPromptSig doneSig prevDoneSig = false)
  /\ (wasWorking = true -> isWorking = false -> focused = false -> rawStatus <> "" ->
      shouldMarkUnread wasWorking focused isWorking rawStatus seenBefore
        promptSig prevPromptSig doneSig prevDoneSig = true).
Proof.
  unfold shouldMarkUnread. split.
  - intros [-> | [-> | ->]].
    + reflexivity.
    + now rewrite orb_true_r.
    + now rewrite orb_true_r.
  - intros -> -> -> Hne. apply eqb_false_iff in Hne. now rewrite Hne.
Qed.

Lemma shouldMarkUnread_guards_and_transition_witness :
  shouldMarkUnread true true false "x 💤" true "codex:› new" "" "Done." "" = false
  /\ shouldMarkUnread true false false "x 💤" true "" "" "" "" = true.
Proof.
  split.
  - apply (proj1 (shouldMarkUnread_guards_and_transition
                    true true false "x 💤" true "codex:› new" "" "Done." "")).
    left. reflexivity.
  - apply (proj2 (shouldMarkUnread_guards_and_transition
                    true false false "x 💤" true "" "" "" ""));
      [reflexivity | reflexivity | reflexivity | discriminate].
Defined.

Lemma hasPromptText_attention (content : string) :
  let promptSig := classifyPaneAttentionSignature content in
  hasPromptText promptSig
  = negb (String.eqb promptSig "") && negb (String.eqb promptSig "codex:›")
    && negb (String.eqb promptSig "claude:❯").
Proof.
  cbv zeta. unfold classifyPaneAttentionSignature.
  destruct (classifyPaneContent content); [reflexivity|].
  apply hasPromptText_detected.
Qed.

(** C6. On the first cycle a window is observed ([seenBefore = false];
    unfocused, not working, non-empty raw status, not working last cycle),
    [shouldMarkUnread] returns [true] iff the prompt signature carries text
    beyond a bare prompt glyph; for the attention signature of a pane text
    this means that it is neither empty nor an agent tag with the bare
    glyph.  It returns [true] for the signature
    "codex:› Explain this codebase" and [false] for the bare "codex:›". *)
Theorem shouldMarkUnread_first_cycle
    (rawStatus promptSig prevPromptSig doneSig prevDoneSig : string) :
  rawStatus <> "" ->
  (shouldMarkUnread false false false rawStatus false
     promptSig prevPromptSig doneSig prevDoneSig = true
   <-> carriesPromptText promptSig)
  /\ (forall content : string,
        promptSig = classifyPaneAttentionSignature content ->
        (carriesPromptText promptSig
         <-> promptSig <> "" /\ promptSig <> "codex:›" /\ promptSig <> "claude:❯"))
  /\ shouldMarkUnread false false false rawStatus false
       "codex:› Explain this codebase" prevPromptSig doneSig prevDoneSig = true
  /\ shouldMarkUnread false false false rawStatus false
       "codex:›" prevPromptSig doneSig prevDoneSig = false.
Proof.
  intros Hne. apply eqb_false_iff in Hne. unfold shouldMarkUnread.
  rewrite Hne. simpl. split; [apply hasPromptText_carries|].
  split; [|split; vm_compute; reflexivity].
  intros content ->. rewrite <- hasPromptText_carries, hasPromptText_attention.
  rewrite !andb_true_iff, !negb_true_iff, !eqb_false_iff. tauto.
Qed.

Lemma shouldMarkUnread_first_cycle_witness :
  (shouldMarkUnread false false false "x 💤" false "claude:❯ fix the parser" "" "" "" = true
   <-> carriesPromptText "claude:❯ fix the parser")
  /\ shouldMarkUnread false false false "x 💤" false
       "codex:› Explain this codebase" "" "" "" = true
  /\ shouldMarkUnread false false false "x 💤" false "codex:›" "" "" "" = false.
Proof.
  destruct (shouldMarkUnread_first_cycle "x 💤" "claude:❯ fix the parser" "" "" "")
    as (Hiff & _ & Htext & Hbare); [discriminate|].
  exact (conj Hiff (conj Htext Hbare)).
Defined.

(** ** Pane-text classifier *)

(** C7. When, scanning the trimmed non-empty lines from the bottom upward
    within the 12-line cap, the first marker line met is a completion
    marker, [classifyPaneContent] returns idle ([false]), whatever the
    lines further up are (an active marker among them or not). *)
Theorem classifyPaneContent_completion_first
    (content : string) (below above : list string) (line : string) :
  scannedLines 12 content = below ++ line :: above ->
  Forall (fun l => isMarkerLine l = false) below ->
  isCompletionLine line = true ->
  classifyPaneContent content = false.
Proof.
  intros Hlines Hbelow Hline. unfold classifyPaneContent.
  rewrite scanUp_scannedLines, Hlines, firstVisit_skip.
  - simpl. now rewrite Hline.
  - eapply Forall_impl; [exact Hbelow|]. intros l Hl. simpl in Hl.
    unfold isMarkerLine in Hl. apply orb_false_iff in Hl as [-> ->]. reflexivity.
Qed.

Lemma classifyPaneContent_completion_first_witness :
  hasActiveMarker "· Thinking… (5s · esc to interrupt)" = true
  /\ classifyPaneContent doneBelowSpinner = false.
Proof.
  split; [reflexivity|].
  apply (classifyPaneContent_completion_first doneBelowSpinner
           ["gpt-5.3-codex · 87% left"; "› Explain this codebase"]
           ["· Thinking… (5s · esc to interrupt)"] "Done.").
  - vm_compute. reflexivity.
  - repeat constructor.
  - reflexivity.
Defined.

Lemma isPromptLine_codex (l : string) :
  HasPrefix l "› " || String.eqb l "›" = isPromptLine "›" l.
Proof. apply orb_comm. Qed.

Lemma isPromptLine_claude (l : string) :
  HasPrefix l "❯ " || String.eqb l "❯" = isPromptLine "❯" l.
Proof. apply orb_comm. Qed.

(** C8. The attention signature is empty whenever the content classifies
    as active; otherwise it is the first prompt line met scanning bottom-up
    (within the 12-line cap; empty when there is none), prefixed "codex:"
    for a line that is "›" or starts with "› " and "claude:" for a line
    that is "❯" or starts with "❯ ".  For the text
    "Done.\n\n› Explain this codebase\n" the attention signature is
    "codex:› Explain this codebase" and the completion signature "Done.". *)
Theorem attention_signature_spec (content : string) :
  classifyPaneAttentionSignature content =
    (if classifyPaneContent content then ""
     else
       match List.find (fun l => isPromptLine "›" l || isPromptLine "❯" l)
                       (scannedLines 12 content) with
       | Some line => promptTag line +:+ line
       | None => ""
       end)
  /\ classifyPaneAttentionSignature doneThenPrompt = "codex:› Explain this codebase"
  /\ classifyPaneCompletionSignature doneThenPrompt = "Done.".
Proof.
  split; [|split; vm_compute; reflexivity].
  unfold classifyPaneAttentionSignature.
  destruct (classifyPaneContent content); [reflexivity|].
  unfold detectPromptSignature. rewrite scanUp_scannedLines.
  induction (scannedLines 12 content) as [|l ls IH]; [reflexivity|].
  cbn [firstVisit List.find]. rewrite isPromptLine_codex, isPromptLine_claude.
  unfold promptTag at 1.
  destruct (isPromptLine "›" l) eqn:Hx; cbn [orb]; [now rewrite Hx|].
  destruct (isPromptLine "❯" l) eqn:Hc; [now rewrite Hx|].
  exact IH.
Qed.

(** ** Stability engine: staleness and grace period *)

Lemma Sub_lt (t u bound : Z) :
  strconv.minInt64 < bound <= strconv.maxInt64 ->
  (Sub t u <? bound) = (t - u <? bound).
Proof.
  unfold Sub, strconv.minInt64, strconv.maxInt64. intros H.
  destruct (Z.ltb_spec (t - u) bound); [apply Z.ltb_lt | apply Z.ltb_ge]; lia.
Qed.

Lemma Sub_ge (t u bound : Z) :
  strconv.minInt64 < bound <= strconv.maxInt64 ->
  (bound <=? Sub t u) = (bound <=? t - u).
Proof.
  unfold Sub, strconv.minInt64, strconv.maxInt64. intros H.
  destruct (Z.leb_spec bound (t - u)); [apply Z.leb_le | apply Z.leb_gt]; lia.
Qed.

Lemma isStaleActiveMarker_unfold (window content : string) (now : Z) (st : store) :
  classifyPaneActiveSignature content <> "" ->
  isStaleActiveMarker window content now st =
    let activeSig := classifyPaneActiveSignature content in
    let fresh :=
      withActiveMarker (<[window := activeSig]> (windowActiveSig st))
                       (<[window := now]> (windowActiveAt st)) st in
    if String.eqb (detectPromptSignature content) "" then (false, fresh)
    else
      match windowActiveSig st !! window with
      | None => (false, fresh)
      | Some prevSig =>
        if negb (String.eqb prevSig activeSig) then (false, fresh)
        else
          match windowActiveAt st !! window with
          | None =>
            (false, withActiveMarker (windowActiveSig st)
                                     (<[window := now]> (windowActiveAt st)) st)
          | Some startedAt => (12 * Second <=? now - startedAt, st)
          end
      end.
Proof.
  intros Hsig. apply eqb_false_iff in Hsig. unfold isStaleActiveMarker.
  rewrite Hsig. cbv zeta. unfold staleActiveThreshold.
  destruct (String.eqb (detectPromptSignature content) ""); [reflexivity|].
  destruct (windowActiveSig st !! window); [|reflexivity].
  destruct (negb _); [reflexivity|].
  destruct (windowActiveAt st !! window); [|reflexivity].
  rewrite Sub_ge; [reflexivity|].
  unfold strconv.minInt64, strconv.maxInt64, Second. lia.
Qed.

(** C2. For content that shows an active-signature line: when its text is
    the tracked text and a prompt signature is present, [isStaleActiveMarker]
    returns [false] while the time elapsed since the signature was first seen
    unchanged is below 12 seconds and [true] once it reaches 12 seconds
    (nothing is reset); when the text differs from the tracked text, or no
    prompt signature is present, it returns [false] and resets the tracked
    signature to the line and the first-seen time to [now]. *)
Theorem isStaleActiveMarker_spec (window content : string) (now : Z) (st : store) :
  let activeSig := classifyPaneActiveSignature content in
  activeSig <> "" ->
  (detectPromptSignature content <> "" ->
   windowActiveSig st !! window = Some activeSig ->
   forall firstSeen : Z,
     windowActiveAt st !! window = Some firstSeen ->
     (now - firstSeen < 12 * Second ->
      isStaleActiveMarker window content now st = (false, st))
     /\ (12 * Second <= now - firstSeen ->
         isStaleActiveMarker window content now st = (true, st)))
  /\ (detectPromptSignature content = ""
      \/ windowActiveSig st !! window <> Some activeSig ->
      isStaleActiveMarker window content now st =
        (false,
         withActiveMarker (<[window := activeSig]> (windowActiveSig st))
                          (<[window := now]> (windowActiveAt st)) st)).
Proof.
  intros activeSig Hsig. rewrite (isStaleActiveMarker_unfold _ _ _ _ Hsig).
  fold activeSig. cbv zeta. split.
  - intros Hprompt Htracked firstSeen Hat.
    apply eqb_false_iff in Hprompt. rewrite Hprompt, Htracked, Hat.
    rewrite String.eqb_refl. cbn [negb].
    split; intros H; f_equal; [apply Z.leb_gt | apply Z.leb_le]; lia.
  - intros [Hnone | Hdiff].
    + now rewrite Hnone.
    + destruct (String.eqb (detectPromptSignature content) ""); [reflexivity|].
      destruct (windowActiveSig st !! window) as [prevSig|]; [|reflexivity].
      destruct (String.eqb_spec prevSig activeSig) as [->|_]; [|reflexivity].
      now destruct Hdiff.
Qed.

Lemma lastActive_paneActiveNow (capture : string -> option string)
    (window : string) (now : Z) (cache : gmap string paneCapture) (st : store) :
  lastActive (paneActiveNow capture window now cache st).2 = lastActive st.
Proof.
  unfold paneActiveNow.
  destruct (getPaneContent capture window cache) as [[content ok] cache'].
  destruct ok; [|reflexivity].
  destruct (classifyPaneContent content); [|reflexivity].
  unfold isStaleActiveMarker.
  repeat (match goal with
          | |- context [if ?b then _ else _] => destruct b
          | |- context [match ?o with Some _ => _ | None => _ end] => destruct o
          end; try reflexivity).
Qed.

Lemma paneActiveNow_rawInactive (capture : string -> option string)
    (window : string) (now : Z) (cache : gmap string paneCapture) (st : store) :
  rawInactive capture window cache ->
  (paneActiveNow capture window now cache st).1.1 = false.
Proof.
  unfold rawInactive, paneActiveNow.
  destruct (getPaneContent capture window cache) as [[content ok] cache'].
  simpl. intros [-> | H]; [reflexivity|]. rewrite H. now destruct ok.
Qed.

(** The second half of [isPaneActive] when [active] is false: the grace
    period decides. *)
Lemma isPaneActive_inactive (capture : string -> option string) (window : string)
    (now : Z) (cache : gmap string paneCapture) (st : store) :
  (paneActiveNow capture window now cache st).1.1 = false ->
  ((isPaneActive capture window now cache st).1.1
   = match lastActive st !! window with
     | Some last => now - last <? 10 * Second
     | None => false
     end)
  /\ lastActive (isPaneActive capture window now cache st).2 !! window
     = match lastActive st !! window with
       | Some last => if now - last <? 10 * Second then Some last else None
       | None => None
       end.
Proof.
  intros Hact.
  pose proof (lastActive_paneActiveNow capture window now cache st) as Hlast.
  unfold isPaneActive.
  destruct (paneActiveNow capture window now cache st) as [[active cache'] st'].
  simpl in Hact, Hlast. subst active. rewrite Hlast.
  destruct (lastActive st !! window) as [last|] eqn:Hl; [|now rewrite <- Hlast in Hl].
  rewrite Sub_lt
    by (unfold strconv.minInt64, strconv.maxInt64, activeGrace, Second; lia).
  change activeGrace with (10 * Second).
  destruct (now - last <? 10 * Second); simpl.
  - now rewrite Hlast.
  - split; [reflexivity | apply lookup_delete_eq].
Qed.

(** C3. When this cycle's raw classification of the pane is inactive,
    [isPaneActive] still returns [true] if the stored last-active timestamp
    of the window is less than 10 seconds before [now] (and keeps it);
    otherwise it returns [false] and the window has no stored timestamp
    afterwards. *)
Theorem isPaneActive_grace (capture : string -> option string) (window : string)
    (now : Z) (cache : gmap string paneCapture) (st : store) :
  rawInactive capture window cache ->
  (forall last : Z,
     lastActive st !! window = Some last -> now - last < 10 * Second ->
     (isPaneActive capture window now cache st).1.1 = true
     /\ lastActive (isPaneActive capture window now cache st).2 !! window = Some last)
  /\ (lastActive st !! window = None
      \/ (exists last : Z,
            lastActive st !! window = Some last /\ 10 * Second <= now - last) ->
      (isPaneActive capture window now cache st).1.1 = false
      /\ lastActive (isPaneActive capture window now cache st).2 !! window = None).
Proof.
  intros Hraw.
  destruct (isPaneActive_inactive capture window now cache st
              (paneActiveNow_rawInactive capture window now cache st Hraw))
    as [Hres Hkept].
  rewrite Hres, Hkept. split.
  - intros last -> Hlt. apply Z.ltb_lt in Hlt. now rewrite Hlt.
  - intros [-> | (last & -> & Hge)]; [now split|].
    apply Z.ltb_ge in Hge. now rewrite Hge.
Qed.

Lemma isStaleActiveMarker_spec_witness :
  (isStaleActiveMarker "test:stale-active" spinnerAbovePrompt (11 * Second) spinnerTracked
     = (false, spinnerTracked)
   /\ isStaleActiveMarker "test:stale-active" spinnerAbovePrompt (12 * Second) spinnerTracked
     = (true, spinnerTracked))
  /\ isStaleActiveMarker "test:stale-active" spinnerAbovePrompt 0 emptyStore
     = (false, spinnerTracked).
Proof.
  assert (Hsig : classifyPaneActiveSignature spinnerAbovePrompt <> "")
    by (vm_compute; discriminate).
  split; [split|].
  - apply (proj1 (isStaleActiveMarker_spec "test:stale-active" spinnerAbovePrompt
                    (11 * Second) spinnerTracked Hsig)) with (firstSeen := 0).
    + vm_compute; discriminate.
    + vm_compute; reflexivity.
    + vm_compute; reflexivity.
    + vm_compute; reflexivity.
  - apply (proj1 (isStaleActiveMarker_spec "test:stale-active" spinnerAbovePrompt
                    (12 * Second) spinnerTracked Hsig)) with (firstSeen := 0).
    + vm_compute; discriminate.
    + vm_compute; reflexivity.
    + vm_compute; reflexivity.
    + vm_compute; discriminate.
  - apply (proj2 (isStaleActiveMarker_spec "test:stale-active" spinnerAbovePrompt
                    0 emptyStore Hsig)).
    right. vm_compute; discriminate.
Defined.

Lemma isPaneActive_grace_witness :
  ((isPaneActive (fun _ => None) "test:99" (9 * Second) ∅ (graceStore 0)).1.1 = true
   /\ lastActive (isPaneActive (fun _ => None) "test:99" (9 * Second) ∅ (graceStore 0)).2
        !! "test:99" = Some 0)
  /\ ((isPaneActive (fun _ => None) "test:99" (10 * Second) ∅ (graceStore 0)).1.1 = false
      /\ lastActive (isPaneActive (fun _ => None) "test:99" (10 * Second) ∅ (graceStore 0)).2
           !! "test:99" = None).
Proof.
  assert (Hraw : rawInactive (fun _ => None) "test:99" ∅)
    by (left; vm_compute; reflexivity).
  split.
  - apply (proj1 (isPaneActive_grace (fun _ => None) "test:99" (9 * Second) ∅
                    (graceStore 0) Hraw)).
    + vm_compute; reflexivity.
    + vm_compute; reflexivity.
  - apply (proj2 (isPaneActive_grace (fun _ => None) "test:99" (10 * Second) ∅
                    (graceStore 0) Hraw)).
    right. exists 0. split; vm_compute; [reflexivity | discriminate].
Defined.

(** ** Process topology *)

Lemma children_insert (m : gmap Z (list Z)) (k p : Z) (l : list Z) :
  children (<[k := l]> m) p = if decide (k = p) then l else children m p.
Proof.
  unfold children. rewrite lookup_insert. now destruct (decide (k = p)).
Qed.

Lemma addEntry_edge (fs : procfs) (m : gmap Z (list Z)) (e : dirEntry) (p c : Z) :
  edge (addEntry fs m e) p c <->
  edge m p c
  \/ (IsDir e = true /\ strconv.Atoi (Name e) = (c, true)
      /\ readPPID fs c = p /\ 0 < p).
Proof.
  unfold edge, addEntry.
  destruct (IsDir e); simpl; [|intuition discriminate].
  destruct (strconv.Atoi (Name e)) as [pid noErr].
  destruct noErr; simpl; [|intuition congruence].
  destruct (Z.ltb_spec 0 (readPPID fs pid)) as [Hpos|Hneg].
  - rewrite children_insert. destruct (decide (readPPID fs pid = p)) as [<-|Hne].
    + rewrite in_app_iff. simpl. split.
      * intros [H | [<- | []]]; [now left | right; auto].
      * intros [H | (_ & Heq & _)]; [now left | right; left; congruence].
    + split; [now left|].
      intros [H | (_ & Heq & Hp & _)]; [assumption|].
      injection Heq as ->. contradiction.
  - split; [now left|].
    intros [H | (_ & Heq & Hp & Hpos)]; [assumption|].
    injection Heq as ->. lia.
Qed.

Lemma fold_addEntry_edge (fs : procfs) (entries : list dirEntry)
    (m : gmap Z (list Z)) (p c : Z) :
  edge (fold_left (addEntry fs) entries m) p c <->
  edge m p c
  \/ (exists e, In e entries /\ IsDir e = true
                /\ strconv.Atoi (Name e) = (c, true)
                /\ readPPID fs c = p /\ 0 < p).
Proof.
  revert m. induction entries as [|e entries IH]; intros m; simpl.
  - split; [now left | intros [H | (e & [] & _)]; assumption].
  - rewrite IH, addEntry_edge. split.
    + intros [[H | H] | (e' & Hin & H)].
      * now left.
      * right. exists e. auto.
      * right. exists e'. auto.
    + intros [H | (e' & [<- | Hin] & H)].
      * left. now left.
      * left. now right.
      * right. exists e'. auto.
Qed.

Lemma buildChildMap_edge (fs : procfs) (p c : Z) :
  edge (buildChildMap fs) p c <-> scanned fs c /\ readPPID fs c = p /\ 0 < p.
Proof.
  unfold buildChildMap, scanned. destruct (readDir fs) as [entries|].
  - rewrite fold_addEntry_edge. split.
    + intros [[] | (e & Hin & Hd & Ha & Hp & Hpos)].
      split; [exists entries, e|]; auto.
    + intros ((entries' & e & Heq & Hin & Hd & Ha) & Hp & Hpos).
      injection Heq as <-. right. exists e. auto.
  - split; [intros [] | intros ((? & ? & ? & _) & _); discriminate].
Qed.

(** C4, as stated, fails: a self-referential parent id does produce an
    edge.  Process 5 is scanned, its recorded parent id is 5, and the map
    built has the edge from 5 to 5. *)
Lemma self_parent_has_edge :
  (scanned selfParentProc 5
   /\ readPPID selfParentProc 5 = 5
   /\ edge (buildChildMap selfParentProc) 5 5)
  /\ ~ edgesAsStated selfParentProc.
Proof.
  assert (Hs : scanned selfParentProc 5).
  { eexists _, {| Name := "5"; IsDir := true |}.
    split; [reflexivity|]. split; [now left|]. split; reflexivity. }
  assert (Hp : readPPID selfParentProc 5 = 5) by (vm_compute; reflexivity).
  assert (He : edge (buildChildMap selfParentProc) 5 5) by (vm_compute; now left).
  split; [auto|].
  intros [_ Hnone]. exact (Hnone 5 5 Hs (or_introl Hp) He).
Qed.

(** C4 (amended). The map built from a scan has an edge from parent [p] to
    child [c] iff [c] is a scanned process whose recorded parent id equals
    [p] and is positive; a zero (or negative) recorded parent id produces no
    edge; a self-referential parent id is not singled out: when positive it
    produces the edge from the process to itself. *)
Theorem buildChildMap_edges (fs : procfs) (p c : Z) :
  (edge (buildChildMap fs) p c <-> scanned fs c /\ readPPID fs c = p /\ 0 < p)
  /\ (readPPID fs c <= 0 -> ~ edge (buildChildMap fs) p c)
  /\ (scanned fs c -> readPPID fs c = c -> 0 < c -> edge (buildChildMap fs) c c).
Proof.
  split; [apply buildChildMap_edge|]. split.
  - intros Hz He. apply buildChildMap_edge in He as (_ & Hp & Hpos). lia.
  - intros Hs Hp Hpos. apply buildChildMap_edge. auto.
Qed.

Lemma buildChildMap_edges_witness :
  ~ edge (buildChildMap selfParentProc) 5 7
  /\ edge (buildChildMap selfParentProc) 5 5.
Proof.
  split.
  - apply (proj1 (proj2 (buildChildMap_edges selfParentProc 5 7))).
    vm_compute. discriminate.
  - apply (proj2 (proj2 (buildChildMap_edges selfParentProc 5 5))).
    + eexists _, {| Name := "5"; IsDir := true |}.
      split; [reflexivity|]. split; [now left|]. split; reflexivity.
    + vm_compute. reflexivity.
    + reflexivity.
Defined.

(** ** Runs of the program: clean-up and topic memory *)

Lemma lookup_prune {V : Type} (seenWindows : gset string) (m : gmap string V)
    (w : string) :
  prune seenWindows m !! w = if decide (w ∈ seenWindows) then m !! w else None.
Proof.
  unfold prune. rewrite map_lookup_filter.
  destruct (m !! w) as [v|]; simpl.
  - destruct (decide (w ∈ seenWindows)).
    + now rewrite option_guard_True.
    + now rewrite option_guard_False.
  - now destruct (decide (w ∈ seenWindows)).
Qed.

Section TopicMemory.

Variable threshold : Z.
Variable classifyPaneTopic : string -> string.

Local Abbreviation stepN := (step threshold classifyPaneTopic).
Local Abbreviation runN := (run threshold classifyPaneTopic).

Lemma windowTopic_isPaneActive capture window now cache st :
  windowTopic (isPaneActive capture window now cache st).2 = windowTopic st.
Proof.
  unfold isPaneActive, paneActiveNow, isStaleActiveMarker.
  destruct (getPaneContent capture window cache) as [[content ok] cache'].
  repeat (match goal with
          | |- context [if ?b then _ else _] => destruct b
          | |- context [match ?o with Some _ => _ | None => _ end] => destruct o
          end; try reflexivity).
Qed.

Lemma windowTopic_setWindowStatusAt window status st :
  windowTopic (setWindowStatusAt threshold window status st).2 = windowTopic st.
Proof.
  unfold setWindowStatusAt.
  repeat (match goal with
          | |- context [if ?b then _ else _] => destruct b
          end; try reflexivity).
Qed.

(** What a call of [rememberWindowTopic] returns and stores. *)
Lemma rememberWindowTopic_cases capture window cache st :
  let got := getPaneContent capture window cache in
  let result := rememberWindowTopic classifyPaneTopic capture window cache st in
  (got.1.2 = false \/ classifyPaneTopic got.1.1 = "" ->
   result.2 = st /\ result.1.1 = default "" (windowTopic st !! window))
  /\ (got.1.2 = true -> classifyPaneTopic got.1.1 <> "" ->
      result.1.1 = classifyPaneTopic got.1.1
      /\ windowTopic result.2 = <[window := classifyPaneTopic got.1.1]> (windowTopic st)).
Proof.
  unfold rememberWindowTopic.
  destruct (getPaneContent capture window cache) as [[content ok] cache'].
  simpl. split.
  - intros [-> | Hnone]; [now simpl|].
    destruct ok; [|now simpl]. simpl. rewrite Hnone. now simpl.
  - intros -> Hsome. apply eqb_false_iff in Hsome. simpl. rewrite Hsome. simpl.
    now rewrite lookup_insert_eq.
Qed.

Lemma topicsNonEmpty_step st ev :
  topicsNonEmpty st -> topicsNonEmpty (stepN st ev).
Proof.
  intros Hinv w topic. destruct ev as [c w' n k|w'|w'|w' i p d|c w' k|w' s|seen]; simpl.
  - rewrite windowTopic_isPaneActive. apply Hinv.
  - apply Hinv.
  - unfold clearUnread. destruct (statusState st !! w'); apply Hinv.
  - apply Hinv.
  - pose proof (rememberWindowTopic_cases c w' k st) as [Hsame Hnew].
    cbv zeta in Hsame, Hnew.
    destruct ((getPaneContent c w' k).1.2) eqn:Hok.
    + destruct (String.eqb_spec (classifyPaneTopic (getPaneContent c w' k).1.1) "")
        as [He|Hne].
      * destruct (Hsame (or_intror He)) as [-> _]. apply Hinv.
      * destruct (Hnew eq_refl Hne) as [_ ->].
        rewrite lookup_insert. destruct (decide (w' = w)); [|apply Hinv].
        intros [= <-]. exact Hne.
    + destruct (Hsame (or_introl eq_refl)) as [-> _]. apply Hinv.
  - rewrite windowTopic_setWindowStatusAt. apply Hinv.
  - rewrite lookup_prune. destruct (decide (w ∈ seen)); [apply Hinv | discriminate].
Qed.

Lemma topicsNonEmpty_run events st :
  topicsNonEmpty st -> topicsNonEmpty (runN events st).
Proof.
  revert st. induction events as [|ev events IH]; intros st H; [exact H|].
  apply IH, topicsNonEmpty_step, H.
Qed.

(** A stored topic is dropped only by the clean-up of a cycle whose pane
    list lacks the window. *)
Lemma stored_topic_dropped st ev window :
  is_Some (windowTopic st !! window) ->
  windowTopic (stepN st ev) !! window = None ->
  exists seenWindows, ev = CleanUp seenWindows /\ window ∉ seenWindows.
Proof.
  intros [topic Ht]. destruct ev as [c w' n k|w'|w'|w' i p d|c w' k|w' s|seen]; simpl.
  - rewrite windowTopic_isPaneActive. congruence.
  - congruence.
  - unfold clearUnread. destruct (statusState st !! w'); simpl; congruence.
  - congruence.
  - pose proof (rememberWindowTopic_cases c w' k st) as [Hsame Hnew].
    cbv zeta in Hsame, Hnew.
    destruct ((getPaneContent c w' k).1.2) eqn:Hok.
    + destruct (String.eqb_spec (classifyPaneTopic (getPaneContent c w' k).1.1) "")
        as [He|Hne].
      * destruct (Hsame (or_intror He)) as [-> _]. congruence.
      * destruct (Hnew eq_refl Hne) as [_ ->].
        rewrite lookup_insert. destruct (decide (w' = window)); congruence.
    + destruct (Hsame (or_introl eq_refl)) as [-> _]. congruence.
  - rewrite windowTopic_setWindowStatusAt. congruence.
  - rewrite lookup_prune. destruct (decide (window ∈ seen)); [congruence|].
    intros _. now exists seen.
Qed.

Lemma stored_topic_kept events st window :
  is_Some (windowTopic st !! window) ->
  Forall (keepsWindow window) events ->
  is_Some (windowTopic (runN events st) !! window).
Proof.
  revert st. induction events as [|ev events IH]; intros st Hs Hk; [exact Hs|].
  inversion Hk as [|? ? Hev Hrest]; subst. apply IH; [|exact Hrest].
  destruct (windowTopic (stepN st ev) !! window) eqn:Hl; [eauto|].
  destruct (stored_topic_dropped st ev window Hs Hl) as (seen & -> & Hnot).
  now destruct Hnot.
Qed.

(** C10. Once a topic word has been stored for a window (after the
    events [before], from the start of the program), every later call of
    [rememberWindowTopic] for it, as long as no clean-up in between lacks
    the window, returns a non-empty topic, which is the stored one
    afterwards: on a capture miss or content without a topic word the
    store is unchanged and the stored topic returned; a non-empty newly
    classified topic is returned (and stored).  A stored topic is removed
    only by the clean-up of a cycle whose pane list lacks the window. *)
Theorem rememberWindowTopic_memory (before after : list event) (window : string)
    (capture : string -> option string) (cache : gmap string paneCapture) :
  let stored := runN before emptyStore in
  let st := runN after stored in
  let got := getPaneContent capture window cache in
  let result := rememberWindowTopic classifyPaneTopic capture window cache st in
  is_Some (windowTopic stored !! window) ->
  Forall (keepsWindow window) after ->
  (result.1.1 <> "" /\ windowTopic result.2 !! window = Some result.1.1)
  /\ (got.1.2 = false \/ classifyPaneTopic got.1.1 = "" ->
      result.2 = st /\ windowTopic st !! window = Some result.1.1)
  /\ (got.1.2 = true -> classifyPaneTopic got.1.1 <> "" ->
      result.1.1 = classifyPaneTopic got.1.1)
  /\ (forall (st0 : store) (ev : event),
        is_Some (windowTopic st0 !! window) ->
        windowTopic (stepN st0 ev) !! window = None ->
        exists seenWindows, ev = CleanUp seenWindows /\ window ∉ seenWindows).
Proof.
  intros stored st got result Hstored Hkeep.
  assert (Hinv : topicsNonEmpty st).
  { apply topicsNonEmpty_run, topicsNonEmpty_run. intros w t. simpl.
    rewrite lookup_empty. discriminate. }
  destruct (stored_topic_kept after stored window Hstored Hkeep) as [topic Ht].
  fold st in Ht.
  pose proof (rememberWindowTopic_cases capture window cache st) as [Hsame Hnew].
  cbv zeta in Hsame, Hnew. fold got result in Hsame, Hnew.
  assert (Hmiss : got.1.2 = false \/ classifyPaneTopic got.1.1 = "" ->
                  result.2 = st /\ windowTopic st !! window = Some result.1.1).
  { intros H. destruct (Hsame H) as [Hst Hres]. split; [exact Hst|].
    rewrite Hres, Ht. reflexivity. }
  split; [|split; [exact Hmiss|split]].
  - destruct (got.1.2) eqn:Hok.
    + destruct (String.eqb_spec (classifyPaneTopic got.1.1) "") as [He|Hne].
      * destruct (Hmiss (or_intror He)) as [Hst Hres]. rewrite Hst.
        split; [|exact Hres]. eapply Hinv, Hres.
      * destruct (Hnew eq_refl Hne) as [Hres Hmap]. rewrite Hmap, Hres.
        split; [exact Hne | apply lookup_insert_eq].
    + destruct (Hmiss (or_introl eq_refl)) as [Hst Hres]. rewrite Hst.
      split; [|exact Hres]. eapply Hinv, Hres.
  - intros Hok Hne. apply (Hnew Hok Hne).
  - intros st0 ev. apply stored_topic_dropped.
Qed.

End TopicMemory.

Lemma rememberWindowTopic_memory_witness :
  let st :=
    run 1 reviewTopic
      [CleanUp {[ "s:1" ]}; SetWindowStatus "s:1" "x 💤 review"]
      (run 1 reviewTopic
         [RememberWindowTopic (fun _ => Some "› Run /review on my current changes") "s:1" ∅]
         emptyStore) in
  let result := rememberWindowTopic reviewTopic (fun _ => None) "s:1" ∅ st in
  result.1.1 <> "" /\ windowTopic result.2 !! "s:1" = Some result.1.1.
Proof.
  apply (proj1 (rememberWindowTopic_memory 1 reviewTopic
                  [RememberWindowTopic (fun _ => Some "› Run /review on my current changes") "s:1" ∅]
                  [CleanUp {[ "s:1" ]}; SetWindowStatus "s:1" "x 💤 review"]
                  "s:1" (fun _ => None) ∅
                  ltac:(eexists; vm_compute; reflexivity)
                  ltac:(constructor; [simpl; set_solver | constructor; [exact I | constructor]]))).
Defined.

(** ** Stability engine: hysteresis *)

Lemma wrapInt_small (n : Z) : strconv.minInt64 <= n <= strconv.maxInt64 -> wrapInt n = n.
Proof.
  unfold wrapInt, strconv.minInt64, strconv.maxInt64. intros H.
  rewrite Z.mod_small; lia.
Qed.

Lemma repeat_snoc {A : Type} (x : A) (n : nat) : repeat x n ++ [x] = repeat x (S n).
Proof. induction n as [|n IH]; [reflexivity|]. simpl. now rewrite IH. Qed.

Lemma setWindowStatus_or_other (ev : event) (w : string) :
  (exists s, ev = SetWindowStatus w s) \/ (forall s, ev <> SetWindowStatus w s).
Proof.
  destruct ev as [| | | | |w' s'|]; try (right; discriminate).
  destruct (String.eqb_spec w' w) as [->|Hne]; [left; eauto|].
  right. intros s [= Hw _]. contradiction.
Qed.

Section Hysteresis.

Variable threshold : Z.
Variable classifyPaneTopic : string -> string.

Local Abbreviation stepN := (step threshold classifyPaneTopic).
Local Abbreviation runN := (run threshold classifyPaneTopic).
Local Abbreviation callLogN := (callLog threshold classifyPaneTopic).

Lemma run_snoc events ev st : runN (events ++ [ev]) st = stepN (runN events st) ev.
Proof. unfold run. now rewrite fold_left_app. Qed.

Lemma callLog_app w events1 events2 st :
  callLogN w (events1 ++ events2) st
  = callLogN w events1 st ++ callLogN w events2 (runN events1 st).
Proof.
  revert st. induction events1 as [|ev events1 IH]; intros st; [reflexivity|].
  simpl. now rewrite IH, app_assoc.
Qed.

Lemma callLog_call w s st :
  callLogN w [SetWindowStatus w s] st = [(s, applied (windowRecord st w))].
Proof. simpl. now rewrite String.eqb_refl. Qed.

Lemma callLog_other w ev st :
  (forall s, ev <> SetWindowStatus w s) -> callLogN w [ev] st = [].
Proof.
  intros Hev. destruct ev; try reflexivity. simpl.
  destruct (String.eqb_spec window w) as [->|]; [|reflexivity].
  now destruct (Hev status).
Qed.

Lemma statusState_isPaneActive capture window now cache st :
  statusState (isPaneActive capture window now cache st).2 = statusState st.
Proof.
  unfold isPaneActive, paneActiveNow, isStaleActiveMarker.
  destruct (getPaneContent capture window cache) as [[content ok] cache'].
  repeat (match goal with
          | |- context [if ?b then _ else _] => destruct b
          | |- context [match ?o with Some _ => _ | None => _ end] => destruct o
          end; try reflexivity).
Qed.

Lemma statusState_rememberWindowTopic capture window cache st :
  statusState (rememberWindowTopic classifyPaneTopic capture window cache st).2
  = statusState st.
Proof.
  unfold rememberWindowTopic.
  destruct (getPaneContent capture window cache) as [[content ok] cache'].
  destruct ok; simpl; [|reflexivity].
  now destruct (negb (String.eqb (classifyPaneTopic content) "")).
Qed.

(** An event other than a [setWindowStatus] for the window leaves the
    hysteresis fields of its record alone, or deletes the record. *)
Lemma windowRecord_step_other st ev w :
  (forall s, ev <> SetWindowStatus w s) ->
  sameHysteresis (windowRecord st w) (windowRecord (stepN st ev) w)
  \/ windowRecord (stepN st ev) w = newWindowState.
Proof.
  intros Hev. unfold windowRecord.
  destruct ev as [c w' n k|w'|w'|w' i p d|c w' k|w' s|seen]; simpl.
  - rewrite statusState_isPaneActive. left. repeat split.
  - left. rewrite lookup_insert. destruct (decide (w' = w)) as [->|]; repeat split.
  - left. unfold clearUnread. destruct (statusState st !! w') as [r|] eqn:Hr;
      simpl; [|repeat split].
    rewrite lookup_insert. destruct (decide (w' = w)) as [->|]; [|repeat split].
    rewrite Hr. repeat split.
  - left. repeat split.
  - rewrite statusState_rememberWindowTopic. left. repeat split.
  - left. assert (w' <> w) by (intros ->; now apply (Hev s)).
    unfold setWindowStatusAt.
    repeat (match goal with
            | |- context [if ?b then _ else _] => destruct b
            end; simpl; rewrite ?lookup_insert_ne by assumption;
            try (repeat split; fail)).
  - rewrite lookup_prune. destruct (decide (w ∈ seen)); [left; repeat split | now right].
Qed.

(** The record of the window after [setWindowStatus], and the command:
    a no-op on the applied status; otherwise the count [n] of the
    candidate, kept while below the threshold and committed at it. *)
Lemma setWindowStatusAt_record st w s :
  let r := windowRecord st w in
  let out := setWindowStatusAt threshold w s st in
  let r' := windowRecord out.2 w in
  (s = applied r /\ out.1 = None /\ count r' = 0 /\ pending r' = "")
  \/ (s <> applied r /\
      let n := if String.eqb s (pending r) then wrapInt (count r + 1) else 1 in
      (n < threshold /\ out.1 = None /\ count r' = n /\ pending r' = s
       /\ applied r' = applied r)
      \/ (threshold <= n
          /\ out.1 = Some (if negb (String.eqb s "") then RenameWindow w s
                           else AutomaticRenameOn w)
          /\ count r' = 0 /\ pending r' = "" /\ applied r' = s)).
Proof.
  cbv zeta. unfold setWindowStatusAt, windowRecord.
  set (r := default newWindowState (statusState st !! w)).
  destruct (String.eqb_spec s (applied r)) as [Ha|Ha].
  - left. simpl. rewrite lookup_insert_eq. auto.
  - right. split; [exact Ha|].
    destruct (String.eqb_spec s (pending r)) as [Hp|Hp]; simpl.
    + destruct (Z.ltb_spec (wrapInt (count r + 1)) threshold); simpl;
        rewrite lookup_insert_eq; simpl; [left | right]; auto 10.
    + destruct (Z.ltb_spec 1 threshold); simpl;
        rewrite lookup_insert_eq; simpl; [left | right]; auto 10.
Qed.

Hypothesis threshold_pos : 1 <= threshold <= strconv.maxInt64.

Lemma hysteresisInv_run events :
  hysteresisInv threshold classifyPaneTopic events (runN events emptyStore).
Proof.
  induction events as [|ev events IH] using rev_ind.
  - intros w. unfold windowRecord. simpl. rewrite lookup_empty. simpl.
    split; [lia|]. now exists [].
  - rewrite run_snoc. intros w. specialize (IH w). cbv zeta in IH |- *.
    destruct IH as [Hc [earlier He]]. rewrite callLog_app.
    destruct (setWindowStatus_or_other ev w) as [[s ->] | Hev].
    + rewrite callLog_call.
      pose proof (setWindowStatusAt_record (runN events emptyStore) w s) as Hr.
      cbv zeta in Hr.
      destruct Hr as [(_ & _ & Hc' & _)
                     | (_ & [(Hlt & _ & Hc' & Hp' & Ha') | (_ & _ & Hc' & _)])].
      * simpl. rewrite Hc'. split; [lia|]. eexists. now rewrite app_nil_r.
      * simpl. rewrite Hc', Hp', Ha'.
        destruct (String.eqb_spec s (pending (windowRecord (runN events emptyStore) w)))
          as [Hp|Hp].
        -- rewrite wrapInt_small in Hlt |- *
             by (unfold strconv.minInt64, strconv.maxInt64 in *; lia).
           split; [lia|]. exists earlier.
           rewrite He, <- Hp, <- app_assoc, repeat_snoc. do 2 f_equal. lia.
        -- split; [lia|]. eexists. reflexivity.
      * simpl. rewrite Hc'. split; [lia|]. eexists. now rewrite app_nil_r.
    + rewrite (callLog_other w ev _ Hev), app_nil_r.
      destruct (windowRecord_step_other (runN events emptyStore) ev w Hev)
        as [(Ha' & Hp' & Hc') | Hnew].
      * rewrite Hc', Hp', Ha'. split; [exact Hc|]. now exists earlier.
      * rewrite Hnew. simpl. split; [lia|]. eexists. now rewrite app_nil_r.
Qed.

Lemma alternating_count (w : string) (n : nat) :
  forall (a b : string) (st : store),
    a <> b ->
    (count (windowRecord st w) = 0
     \/ (count (windowRecord st w) = 1 /\ pending (windowRecord st w) = b)) ->
    0 <= count (windowRecord (runN (alternating w a b n) st) w) <= 1.
Proof.
  induction n as [|n IH]; intros a b st Hab Hst.
  - simpl. destruct Hst as [-> | [-> _]]; lia.
  - change (runN (alternating w a b (S n)) st)
      with (runN (alternating w b a n) (stepN st (SetWindowStatus w a))).
    apply IH; [congruence|].
    pose proof (setWindowStatusAt_record st w a) as Hr. cbv zeta in Hr.
    change (setWindowStatusAt threshold w a st).2
      with (stepN st (SetWindowStatus w a)) in Hr.
    destruct Hr as [(_ & _ & Hc' & _) | (_ & [(_ & _ & Hc' & Hp' & _) | (_ & _ & Hc' & _)])].
    + now left.
    + right. split; [|exact Hp']. rewrite Hc'.
      destruct (String.eqb_spec a (pending (windowRecord st w))) as [Hp|Hp];
        [|reflexivity].
      destruct Hst as [-> | [_ Hb]]; [reflexivity | congruence].
    + now left.
Qed.

(** C1. For every threshold [N >= 1]: a call of [setWindowStatus] runs an
    external command (the rename, or the return to automatic naming for
    the empty status) only when its status differs from the applied
    status and the last [N] calls for that window, this one included,
    were all made with this status while that applied status was shown;
    and over any sequence of calls alternating between two distinct
    values, begun when the count is 0 or the pending candidate is not the
    first value, the consecutive-observation count never exceeds 1. *)
Theorem setWindowStatus_hysteresis :
  (forall (events : list event) (w s : string) (c : command),
     (setWindowStatusAt threshold w s (runN events emptyStore)).1 = Some c ->
     let shown := applied (windowRecord (runN events emptyStore) w) in
     s <> shown
     /\ (exists earlier,
           callLogN w (events ++ [SetWindowStatus w s]) emptyStore
           = earlier ++ repeat (s, shown) (Z.to_nat threshold))
     /\ c = (if negb (String.eqb s "") then RenameWindow w s
             else AutomaticRenameOn w))
  /\ (forall (w a b : string) (n : nat) (st : store),
        a <> b ->
        count (windowRecord st w) = 0 \/ pending (windowRecord st w) <> a ->
        0 <= count (windowRecord (runN (alternating w a b (S n)) st) w) <= 1).
Proof.
  split.
  - intros events w s c Hout shown.
    destruct (hysteresisInv_run events w) as [Hc [earlier He]].
    pose proof (setWindowStatusAt_record (runN events emptyStore) w s) as Hr.
    cbv zeta in Hr. rewrite Hout in Hr. fold shown in Hr, He.
    destruct Hr as [(_ & Hnone & _) | (Ha & [(_ & Hnone & _) | (Hge & Hcmd & _)])];
      try discriminate.
    split; [exact Ha|]. split; [|congruence].
    rewrite callLog_app, callLog_call. fold shown.
    destruct (String.eqb_spec s (pending (windowRecord (runN events emptyStore) w)))
      as [Hp|Hp].
    + rewrite wrapInt_small in Hge
        by (unfold strconv.minInt64, strconv.maxInt64 in *; lia).
      exists earlier. rewrite He, <- Hp, <- app_assoc, repeat_snoc.
      do 2 f_equal. lia.
    + eexists. do 2 f_equal. replace threshold with 1 by lia. reflexivity.
  - intros w a b n st Hab Hst.
    change (runN (alternating w a b (S n)) st)
      with (runN (alternating w b a n) (stepN st (SetWindowStatus w a))).
    apply alternating_count; [congruence|].
    pose proof (setWindowStatusAt_record st w a) as Hr. cbv zeta in Hr.
    change (setWindowStatusAt threshold w a st).2
      with (stepN st (SetWindowStatus w a)) in Hr.
    destruct Hr as [(_ & _ & Hc' & _) | (_ & [(_ & _ & Hc' & Hp' & _) | (_ & _ & Hc' & _)])].
    + now left.
    + right. split; [|exact Hp']. rewrite Hc'.
      destruct (String.eqb_spec a (pending (windowRecord st w))) as [Hp|Hp];
        [|reflexivity].
      destruct Hst as [-> | Hne]; [reflexivity | congruence].
    + now left.
Qed.

End Hysteresis.

(** X11. With the constant of the source, [stabilityThreshold = 1], the count
    is always 0 between calls, and a status that differs from the applied
    one is committed by the first call that carries it. *)
Lemma setWindowStatus_immediate (classifyPaneTopic : string -> string)
    (events : list event) (window status : string) :
  let st := run stabilityThreshold classifyPaneTopic events emptyStore in
  (setWindowStatus window status st).1
  = if String.eqb status (applied (windowRecord st window)) then None
    else Some (if negb (String.eqb status "") then RenameWindow window status
               else AutomaticRenameOn window).
Proof.
  intros st.
  assert (H1 : 1 <= stabilityThreshold <= strconv.maxInt64)
    by (unfold stabilityThreshold, strconv.maxInt64; lia).
  destruct (hysteresisInv_run stabilityThreshold classifyPaneTopic H1 events window)
    as [Hc _].
  fold st in Hc.
  pose proof (setWindowStatusAt_record stabilityThreshold st window status) as Hr.
  cbv zeta in Hr. fold (setWindowStatus window status st) in Hr.
  destruct Hr as [(Ha & Hnone & _) | (Ha & [(Hlt & _) | (_ & Hcmd & _)])].
  - apply String.eqb_eq in Ha. now rewrite Ha.
  - exfalso. replace (count (windowRecord st window)) with 0 in Hlt
      by (unfold stabilityThreshold in Hc; lia).
    unfold stabilityThreshold in Hlt.
    destruct (String.eqb status (pending (windowRecord st window)));
      [change (wrapInt (0 + 1)) with 1 in Hlt|]; lia.
  - apply eqb_false_iff in Ha. now rewrite Ha.
Qed.

Lemma setWindowStatus_hysteresis_witness :
  ("x 🧠" <> ""
   /\ (exists earlier,
         callLog 2 reviewTopic "s:1"
           ([SetWindowStatus "s:1" "x 🧠"] ++ [SetWindowStatus "s:1" "x 🧠"]) emptyStore
         = earlier ++ repeat ("x 🧠", "") (Z.to_nat 2))
   /\ RenameWindow "s:1" "x 🧠"
      = (if negb (String.eqb "x 🧠" "") then RenameWindow "s:1" "x 🧠"
         else AutomaticRenameOn "s:1"))
  /\ 0 <= count (windowRecord
                   (run 3 reviewTopic (alternating "s:1" "x 🧠" "x 💤" 6) emptyStore)
                   "s:1") <= 1.
Proof.
  assert (H2 : 1 <= 2 <= strconv.maxInt64) by (unfold strconv.maxInt64; lia).
  split.
  - apply (proj1 (setWindowStatus_hysteresis 2 reviewTopic H2)
             [SetWindowStatus "s:1" "x 🧠"] "s:1" "x 🧠" (RenameWindow "s:1" "x 🧠")).
    vm_compute. reflexivity.
  - assert (H3 : 1 <= 3 <= strconv.maxInt64) by (unfold strconv.maxInt64; lia).
    apply (proj2 (setWindowStatus_hysteresis 3 reviewTopic H3)
             "s:1" "x 🧠" "x 💤" 5%nat emptyStore).
    + discriminate.
    + left. vm_compute. reflexivity.
Defined.

(** ** Descendant classifier *)

Lemma HasPrefix_before_nl (m a b : string) :
  noNewline m = true -> HasPrefix (a +:+ nl +:+ b) m = HasPrefix a m.
Proof.
  revert a. induction m as [|x m IH]; intros a Hm; [reflexivity|].
  simpl in Hm. apply andb_true_iff in Hm as [Hx Hm]. apply negb_true_iff in Hx.
  destruct a as [|c a].
  - change ("" +:+ nl +:+ b) with (String "010" b).
    cbn [HasPrefix]. rewrite Ascii.eqb_sym, Hx. reflexivity.
  - rewrite app_cons. cbn [HasPrefix]. now rewrite IH.
Qed.

Lemma Contains_across_nl (m a b : string) :
  noNewline m = true ->
  Contains (a +:+ nl +:+ b) m = Contains a m || Contains b m.
Proof.
  intros Hm. induction a as [|c a IH].
  - rewrite app_nil_l_str.
    change (Contains (nl +:+ b) m) with (HasPrefix (nl +:+ b) m || Contains b m).
    change (nl +:+ b) with ("" +:+ nl +:+ b). rewrite (HasPrefix_before_nl m "" b Hm).
    simpl. now rewrite orb_false_r.
  - rewrite app_cons.
    change (Contains (String c (a +:+ nl +:+ b)) m)
      with (HasPrefix (String c (a +:+ nl +:+ b)) m || Contains (a +:+ nl +:+ b) m).
    rewrite <- app_cons, (HasPrefix_before_nl m (String c a) b Hm), IH.
    change (Contains (String c a) m) with (HasPrefix (String c a) m || Contains a m).
    now rewrite !orb_assoc.
Qed.

Lemma Contains_Join (m : string) (elems : list string) :
  noNewline m = true -> m <> "" ->
  Contains (Join elems nl) m = existsb (fun e => Contains e m) elems.
Proof.
  intros Hm Hne. induction elems as [|e rest IH].
  - destruct m; [contradiction | reflexivity].
  - destruct rest as [|e' rest].
    + simpl. now rewrite orb_false_r.
    + change (Join (e :: e' :: rest) nl) with (e +:+ nl +:+ Join (e' :: rest) nl).
      rewrite Contains_across_nl, IH by assumption. reflexivity.
Qed.

Lemma existsb_swap {A B : Type} (f : A -> B -> bool) (xs : list A) (ys : list B) :
  existsb (fun x => existsb (f x) ys) xs
  = existsb (fun y => existsb (fun x => f x y) xs) ys.
Proof.
  induction xs as [|x xs IH]; simpl.
  - induction ys as [|y ys IHy]; [reflexivity | simpl; now rewrite <- IHy].
  - rewrite IH. clear IH. induction ys as [|y ys IHy]; [reflexivity|]. simpl.
    rewrite <- IHy. destruct (f x y), (existsb (fun x0 => f x0 y) xs),
      (existsb (f x) ys); reflexivity.
Qed.

Lemma existsb_Permutation {A : Type} (f : A -> bool) (xs ys : list A) :
  Permutation xs ys -> existsb f xs = existsb f ys.
Proof.
  induction 1 as [|x xs ys _ IH|x y xs|xs ys zs _ IH1 _ IH2]; simpl.
  - reflexivity.
  - now rewrite IH.
  - destruct (f x), (f y); reflexivity.
  - now rewrite IH1.
Qed.

Lemma containsAny_Join (markers elems : list string) :
  plainMarkers markers = true ->
  containsAny (Join elems nl) markers
  = existsb (fun e => containsAny e markers) elems.
Proof.
  intros Hplain. unfold containsAny.
  rewrite (existsb_swap Contains elems markers).
  induction markers as [|m markers IH]; [reflexivity|].
  simpl in Hplain. apply andb_true_iff in Hplain as [Hm Hrest].
  apply andb_true_iff in Hm as [Hnl Hne]. apply negb_true_iff, eqb_false_iff in Hne.
  simpl. rewrite Contains_Join by assumption. now rewrite IH.
Qed.

(** *** Decoding next to a newline *)

Lemma first_lo (b0 : Z) (sz : nat) (lo hi : Z) :
  utf8.first b0 = Some (sz, lo, hi) -> 0x80 <= lo.
Proof.
  unfold utf8.first.
  repeat (match goal with
          | |- context [if ?b then _ else _] => destruct b
          end; try discriminate; try (intros [= <- <- <-]; lia)).
Qed.

Lemma within_nl (lo hi : Z) : 0x80 <= lo -> utf8.within lo hi "010" = false.
Proof.
  intros H. unfold utf8.within. change (utf8.byte "010") with 10.
  apply andb_false_iff. left. apply Z.leb_gt. lia.
Qed.

(** The encoding is cut short by the newline: it is no continuation byte. *)
Ltac cut_short t :=
  change ("" +:+ nl +:+ t) with (String "010" t); cbv beta iota;
  rewrite within_nl by lia; simpl; split; [reflexivity | lia].

(** The rune decoded at the head of a non-empty string, and its width, do
    not depend on what follows a newline after the string; the width stays
    within the string. *)
Lemma decode_before_nl (c : ascii) (s t : string) :
  utf8.DecodeRuneInString (String c s +:+ nl +:+ t)
  = utf8.DecodeRuneInString (String c s)
  /\ (1 <= (utf8.DecodeRuneInString (String c s)).2 <= S (String.length s))%nat.
Proof.
  rewrite app_cons. unfold utf8.DecodeRuneInString.
  destruct (utf8.byte c <? utf8.RuneSelf); [simpl; split; [reflexivity | lia]|].
  destruct (utf8.first (utf8.byte c)) as [[[sz lo] hi]|] eqn:Hf;
    [|simpl; split; [reflexivity | lia]].
  apply first_lo in Hf.
  destruct s as [|c1 s]; [cut_short t|].
  rewrite app_cons.
  destruct (negb (utf8.within lo hi c1)); [simpl; split; [reflexivity | lia]|].
  destruct (sz <=? 2)%nat; [simpl; split; [reflexivity | lia]|].
  destruct s as [|c2 s]; [cut_short t|].
  rewrite app_cons.
  destruct (negb (utf8.within 128 191 c2)); [simpl; split; [reflexivity | lia]|].
  destruct (sz <=? 3)%nat; [simpl; split; [reflexivity | lia]|].
  destruct s as [|c3 s]; [cut_short t|].
  rewrite app_cons.
  destruct (negb (utf8.within 128 191 c3)); simpl; split; try reflexivity; lia.
Qed.

Lemma mapFrom_before_nl (mapping : Z -> Z) (s t : string) (skip : nat) :
  (skip <= String.length s)%nat ->
  mapFrom mapping skip (s +:+ nl +:+ t)
  = mapFrom mapping skip s +:+ mapFrom mapping 0 (nl +:+ t).
Proof.
  revert skip. induction s as [|c s IH]; intros skip Hskip.
  - simpl in Hskip. replace skip with 0%nat by lia. reflexivity.
  - destruct skip as [|k].
    + destruct (decode_before_nl c s t) as [Hd Hw].
      rewrite app_cons. cbn [mapFrom]. rewrite <- app_cons, Hd.
      destruct (utf8.DecodeRuneInString (String c s)) as [r w]. simpl in Hw.
      rewrite IH by lia. now rewrite app_assoc_str.
    + rewrite app_cons. cbn [mapFrom]. apply IH. simpl in Hskip. lia.
Qed.

Lemma chr_byte (c : ascii) : utf8.chr (utf8.byte c) = c.
Proof. unfold utf8.chr, utf8.byte. rewrite N2Z.id. apply ascii_N_embedding. Qed.

Lemma byte_nonneg (c : ascii) : 0 <= utf8.byte c.
Proof. apply N2Z.is_nonneg. Qed.

Section Lowering.

Variable caseTable : Z -> Z.

Local Abbreviation lower := (Map (unicode.ToLower caseTable)).

Lemma lower_nl (s : string) : lower (nl +:+ s) = nl +:+ lower s.
Proof. reflexivity. Qed.

Lemma lowerASCII_lower (s : string) : isASCII s = true -> lowerASCII s = lower s.
Proof.
  induction s as [|c s IH]; [reflexivity|].
  intros H. simpl in H. apply andb_true_iff in H as [Hc Hs].
  unfold Map. cbn [mapFrom utf8.DecodeRuneInString]. rewrite Hc.
  change (mapFrom (unicode.ToLower caseTable) (1 - 1) s) with (lower s).
  rewrite <- (IH Hs). cbn [lowerASCII].
  apply Z.ltb_lt in Hc. unfold utf8.RuneSelf in Hc.
  pose proof (byte_nonneg c) as H0.
  unfold unicode.ToLower.
  replace (utf8.byte c <=? 127) with true by (symmetry; apply Z.leb_le; lia).
  destruct ((65 <=? utf8.byte c) && (utf8.byte c <=? 90)) eqn:Hup.
  - apply andb_true_iff in Hup as [H1 H2]. apply Z.leb_le in H1, H2.
    replace (utf8.byte c + 32 <? 0) with false by (symmetry; apply Z.ltb_ge; lia).
    unfold utf8.EncodeRune.
    replace ((0 <=? utf8.byte c + 32) && (utf8.byte c + 32 <=? 127)) with true
      by (symmetry; apply andb_true_iff; split; apply Z.leb_le; lia).
    reflexivity.
  - replace (utf8.byte c <? 0) with false by (symmetry; apply Z.ltb_ge; lia).
    unfold utf8.EncodeRune.
    replace ((0 <=? utf8.byte c) && (utf8.byte c <=? 127)) with true
      by (symmetry; apply andb_true_iff; split; apply Z.leb_le; lia).
    rewrite chr_byte. reflexivity.
Qed.

(** [strings.ToLower] is [Map(unicode.ToLower, s)] on every string. *)
Lemma ToLower_lower (s : string) : ToLower caseTable s = lower s.
Proof.
  unfold ToLower. destruct (isASCII s) eqn:H; [|reflexivity].
  now apply lowerASCII_lower.
Qed.

(** Lower-casing the joined text lower-cases each element. *)
Lemma lower_Join (elems : list string) :
  lower (Join elems nl) = Join (map lower elems) nl.
Proof.
  induction elems as [|e rest IH]; [reflexivity|].
  destruct rest as [|e' rest]; [reflexivity|].
  change (Join (e :: e' :: rest) nl) with (e +:+ nl +:+ Join (e' :: rest) nl).
  unfold Map at 1. rewrite mapFrom_before_nl by lia.
  fold (lower e). fold (lower (nl +:+ Join (e' :: rest) nl)).
  now rewrite lower_nl, IH.
Qed.

Lemma classifyChildren_lowered (names : list string) :
  classifyChildren caseTable names = classifyLowered (map lower names).
Proof.
  unfold classifyChildren, classifyLowered.
  rewrite ToLower_lower, lower_Join, !containsAny_Join by reflexivity.
  reflexivity.
Qed.

(** C9. [classifyChildren] returns the same category for every
    permutation of the list of descendant signals; whenever a build marker
    occurs in the joined (lower-cased) text the result is the build
    category, whatever test or package markers occur beside it; and the
    signals ["make"; "cc1"] classify as build. *)
Theorem classifyChildren_order_free :
  (forall names names' : list string,
     Permutation names names' ->
     classifyChildren caseTable names = classifyChildren caseTable names')
  /\ (forall names : list string,
        containsAny (ToLower caseTable (Join names nl)) buildMarkers = true ->
        classifyChildren caseTable names = "🔨")
  /\ classifyChildren caseTable ["make"; "cc1"] = "🔨".
Proof.
  split; [|split].
  - intros names names' Hperm. rewrite !classifyChildren_lowered.
    apply (Permutation_map lower) in Hperm. unfold classifyLowered.
    now rewrite !(existsb_Permutation _ _ _ Hperm).
  - intros names H. unfold classifyChildren. now rewrite H.
  - vm_compute. reflexivity.
Qed.

End Lowering.

Lemma classifyChildren_order_free_witness :
  classifyChildren (fun r => r) ["jest --watch"; "make"; "npm"]
  = classifyChildren (fun r => r) ["npm"; "jest --watch"; "make"]
  /\ classifyChildren (fun r => r) ["npm run test"; "GCC"] = "🔨".
Proof.
  split.
  - apply (proj1 (classifyChildren_order_free (fun r => r))).
    apply Permutation_sym, (Permutation_cons_append ["jest --watch"; "make"] "npm").
  - apply (proj1 (proj2 (classifyChildren_order_free (fun r => r)))).
    vm_compute. reflexivity.
Defined.

(** * Properties of the process scan, the status of a pane and the cycle *)

Lemma of_uint_acc_ge (d : Decimal.uint) (acc : positive) :
  Z.pos acc <= Z.pos (Pos.of_uint_acc d acc).
Proof.
  revert acc. induction d; intros acc; simpl; [lia|..];
    (etransitivity; [|apply IHd]); lia.
Qed.

Ltac parse_digit :=
  cbn [strconv.parseUint NilEmpty.string_of_uint];
  match goal with
  | |- context [utf8.byte ?c - 48] =>
    let v := eval vm_compute in (utf8.byte c - 48) in
    change (utf8.byte c - 48) with v
  end;
  cbn [Z.leb Z.compare Pos.compare Pos.compare_cont andb negb].

Lemma parseUint_of_uint_acc (d : Decimal.uint) (acc : positive) :
  Z.pos (Pos.of_uint_acc d acc) <= strconv.maxUint64 ->
  strconv.parseUint (Z.pos acc) (NilEmpty.string_of_uint d)
  = (Z.pos (Pos.of_uint_acc d acc), None).
Proof.
  revert acc. induction d; intros acc Hmax; [reflexivity|..];
    parse_digit;
    cbn [Pos.of_uint_acc] in Hmax |- *;
    pose proof (of_uint_acc_ge d) as Hge;
    match type of Hmax with
    | Z.pos (Pos.of_uint_acc d ?a) <= _ => specialize (Hge a); specialize (IHd a Hmax)
    end;
    (destruct (Z.leb_spec (strconv.maxUint64 / 10 + 1) (Z.pos acc)) as [Hbig|_];
     [exfalso; unfold strconv.maxUint64 in *;
      change ((2 ^ 64 - 1) / 10 + 1) with 1844674407370955162 in Hbig; lia|]);
    cbv zeta;
    match goal with
    | |- context [strconv.maxUint64 <? ?n1] =>
      destruct (Z.ltb_spec strconv.maxUint64 n1) as [Hbig|_]; [exfalso; lia|]
    end;
    rewrite <- IHd; f_equal; lia.
Qed.

Lemma parseUint_of_uint (d : Decimal.uint) :
  Z.of_N (Pos.of_uint d) <= strconv.maxUint64 ->
  strconv.parseUint 0 (NilEmpty.string_of_uint d) = (Z.of_N (Pos.of_uint d), None).
Proof.
  induction d; intros Hmax; [reflexivity|..]; parse_digit;
    cbn [Pos.of_uint] in Hmax |- *;
    change (strconv.maxUint64 / 10 + 1 <=? 0) with false; cbv iota zeta;
    match goal with
    | |- context [strconv.maxUint64 <? ?n1] =>
      change (strconv.maxUint64 <? n1) with false; cbv iota;
      change n1 with (Z.pos (Z.to_pos n1)) || change n1 with 0
    end;
    [now apply IHd | now apply parseUint_of_uint_acc ..].
Qed.

(** Every byte of a text that [parseUint] accepts is a decimal digit. *)
Lemma parseUint_digits (s : string) (n v : Z) :
  strconv.parseUint n s = (v, None) -> allBytes isDigit s = true.
Proof.
  revert n. induction s as [|c0 s IH]; intros n Hp; [reflexivity|].
  cbn [strconv.parseUint] in Hp. cbn [allBytes]. unfold isDigit at 1.
  destruct (Z.leb_spec 0 (utf8.byte c0 - 48)) as [H0|]; [|discriminate].
  destruct (Z.leb_spec (utf8.byte c0 - 48) 9) as [H9|]; [|discriminate].
  cbn [andb negb] in Hp.
  destruct (strconv.maxUint64 / 10 + 1 <=? n); [discriminate|]. cbv zeta in Hp.
  destruct (strconv.maxUint64 <? n * 10 + (utf8.byte c0 - 48)); [discriminate|].
  rewrite (IH _ Hp), andb_true_r. apply andb_true_iff. split; apply Z.leb_le; lia.
Qed.

Lemma string_of_pos (p : positive) :
  Z.pos p <= strconv.maxUint64 ->
  strconv.parseUint 0 (NilZero.string_of_uint (Pos.to_uint p)) = (Z.pos p, None).
Proof.
  intros Hmax.
  assert (Hv : Z.of_N (Pos.of_uint (Pos.to_uint p)) = Z.pos p)
    by now rewrite Unsigned.of_to.
  assert (Hp := parseUint_of_uint (Pos.to_uint p)). rewrite Hv in Hp.
  specialize (Hp Hmax).
  unfold NilZero.string_of_uint. destruct (Pos.to_uint p); [discriminate Hp | exact Hp ..].
Qed.

Lemma Atoi_itoa (n : Z) :
  strconv.minInt64 <= n <= strconv.maxInt64 -> strconv.Atoi (itoa n) = (n, true).
Proof.
  intros Hn. unfold strconv.minInt64, strconv.maxInt64 in Hn.
  unfold itoa, strconv.Atoi. destruct n as [|p|p]; [reflexivity|..]; cbn [Z.to_int NilZero.string_of_int].
  - assert (Hp := string_of_pos p). 
    specialize (Hp ltac:(unfold strconv.maxUint64; lia)).
    assert (Hd := parseUint_digits _ _ _ Hp).
    unfold strconv.ParseInt.
    destruct (NilZero.string_of_uint (Pos.to_uint p)) as [|c s] eqn:Hs; [discriminate Hp|].
    cbn [allBytes] in Hd. apply andb_true_iff in Hd as [Hc _].
    assert (Hbody : (match String c s with
                     | String "-" s' => (true, s')
                     | String "+" s' => (false, s')
                     | _ => (false, String c s)
                     end) = (false, String c s)).
    { destruct c as [[] [] [] [] [] [] [] []]; try reflexivity; discriminate Hc. }
    rewrite Hbody, Hp. cbn [negb andb].
    destruct (Z.leb_spec (2 ^ 63) (Z.pos p)); [lia | reflexivity].
  - assert (Hp := string_of_pos p ltac:(unfold strconv.maxUint64; lia)).
    unfold strconv.ParseInt.
    destruct (NilZero.string_of_uint (Pos.to_uint p)) as [|c s] eqn:Hs; [discriminate Hp|].
    rewrite Hp. cbn [negb andb].
    destruct (Z.ltb_spec (2 ^ 63) (Z.pos p)); [lia | reflexivity].
Qed.

Lemma allBytes_app (P : Z -> bool) (a b : string) :
  allBytes P (a +:+ b) = allBytes P a && allBytes P b.
Proof.
  induction a as [|c a IH]; [reflexivity|].
  rewrite app_cons. cbn [allBytes]. now rewrite IH, andb_assoc.
Qed.

Lemma allBytes_impl (P Q : Z -> bool) (s : string) :
  (forall b, P b = true -> Q b = true) -> allBytes P s = true -> allBytes Q s = true.
Proof.
  intros HPQ. induction s as [|c s IH]; [reflexivity|]. cbn [allBytes].
  intros H. apply andb_true_iff in H as [Hc Hs]. now rewrite (HPQ _ Hc), IH.
Qed.

(** The bytes of [itoa n]: a minus sign or decimal digits. *)
Lemma itoa_bytes (n : Z) :
  strconv.minInt64 <= n <= strconv.maxInt64 ->
  itoa n <> "" /\ allBytes (fun b => (b =? 0x2D) || isDigit b) (itoa n) = true.
Proof.
  intros Hn. unfold strconv.minInt64, strconv.maxInt64 in Hn.
  assert (Hpos : forall p, Z.pos p <= 2 ^ 63 ->
            NilZero.string_of_uint (Pos.to_uint p) <> ""
            /\ allBytes (fun b => (b =? 0x2D) || isDigit b)
                 (NilZero.string_of_uint (Pos.to_uint p)) = true).
  { intros p Hp.
    assert (Hparse := string_of_pos p ltac:(unfold strconv.maxUint64; lia)).
    split; [intros He; now rewrite He in Hparse|].
    apply (allBytes_impl isDigit); [|exact (parseUint_digits _ _ _ Hparse)].
    intros b ->. apply orb_true_r. }
  unfold itoa. destruct n as [|p|p]; cbn [Z.to_int NilZero.string_of_int].
  - split; [discriminate | reflexivity].
  - apply Hpos. lia.
  - split; [discriminate|]. cbn [allBytes]. apply (Hpos p). lia.
Qed.

Lemma decode_ascii (c : ascii) (s : string) :
  utf8.byte c < 0x80 -> utf8.DecodeRuneInString (String c s) = (utf8.byte c, 1%nat).
Proof.
  intros Hc. unfold utf8.DecodeRuneInString, utf8.RuneSelf.
  now destruct (Z.ltb_spec (utf8.byte c) 128); [|lia].
Qed.

Lemma IsSpace_graphic (b : Z) : graphic b = true -> unicode.IsSpace b = false.
Proof.
  unfold graphic, unicode.IsSpace. intros H.
  apply andb_true_iff in H as [H1 H2]. apply Z.leb_le in H1, H2.
  repeat (apply orb_false_intro);
    try (apply andb_false_iff; left; apply Z.leb_gt; lia);
    try (apply andb_false_iff; right; apply Z.leb_gt; lia);
    apply Z.eqb_neq; lia.
Qed.

Lemma graphic_ascii (b : Z) : graphic b = true -> b < 0x80.
Proof.
  unfold graphic. intros H. apply andb_true_iff in H as [_ H2]. apply Z.leb_le in H2. lia.
Qed.

(** [Fields] reads a word of graphic ASCII bytes to its end. *)
Lemma fieldsFrom_word (w : string) (f : string) :
  allBytes graphic w = true ->
  (forall t, fieldsFrom 0 (Some f) (w +:+ String " " t) = (f +:+ w) :: fieldsFrom 0 None t)
  /\ fieldsFrom 0 (Some f) w = [f +:+ w].
Proof.
  revert f. induction w as [|c w IH]; intros f Hw.
  - rewrite app_nil_r_str. split; [intros t|]; reflexivity.
  - cbn [allBytes] in Hw. apply andb_true_iff in Hw as [Hc Hw].
    assert (Hstep : forall u, fieldsFrom 0 (Some f) (String c u)
                              = fieldsFrom 0 (Some (f +:+ String c "")) u).
    { intros u. cbn [fieldsFrom]. rewrite (decode_ascii c u (graphic_ascii _ Hc)).
      now rewrite (IsSpace_graphic _ Hc). }
    destruct (IH (f +:+ String c "") Hw) as [IH1 IH2].
    assert (Happ : (f +:+ String c "") +:+ w = f +:+ String c w)
      by now rewrite app_assoc_str.
    split; [intros t; rewrite app_cons|]; rewrite Hstep.
    + now rewrite IH1, Happ.
    + now rewrite IH2, Happ.
Qed.

Lemma Fields_two_words (a : ascii) (w rest : string) :
  graphic (utf8.byte a) = true -> allBytes graphic w = true -> w <> "" ->
  exists more, Fields (String a (" " +:+ w +:+ " " +:+ rest)) = String a "" :: w :: more.
Proof.
  intros Ha Hw Hne. unfold Fields.
  change (String a (" " +:+ w +:+ " " +:+ rest))
    with (String a "" +:+ String " " (w +:+ " " +:+ rest)).
  assert (H1 : forall u, fieldsFrom 0 None (String a u) = fieldsFrom 0 (Some (String a "")) u).
  { intros u. cbn [fieldsFrom]. rewrite (decode_ascii a u (graphic_ascii _ Ha)).
    now rewrite (IsSpace_graphic _ Ha). }
  assert (Hsp : forall f u, fieldsFrom 0 (Some f) (String " " u) = f :: fieldsFrom 0 None u)
    by reflexivity.
  rewrite app_cons, H1, app_nil_l_str, Hsp.
  destruct w as [|c w]; [now destruct Hne|].
  cbn [allBytes] in Hw. apply andb_true_iff in Hw as [Hc Hw].
  rewrite app_cons.
  assert (H2 : forall u, fieldsFrom 0 None (String c u) = fieldsFrom 0 (Some (String c "")) u).
  { intros u. cbn [fieldsFrom]. rewrite (decode_ascii c u (graphic_ascii _ Hc)).
    now rewrite (IsSpace_graphic _ Hc). }
  rewrite H2. change (" " +:+ rest) with (String " " rest).
  rewrite (proj1 (fieldsFrom_word w (String c "") Hw)). eauto.
Qed.

Lemma LastIndexByte_absent (s : string) (c : ascii) :
  allBytes (differs c) s = true -> LastIndexByte s c = -1.
Proof.
  induction s as [|x s IH]; [reflexivity|]. cbn [allBytes LastIndexByte].
  intros H. apply andb_true_iff in H as [Hx Hs]. rewrite (IH Hs). cbn.
  destruct (Ascii.eqb_spec x c) as [->|]; [|reflexivity].
  unfold differs in Hx. now rewrite Z.eqb_refl in Hx.
Qed.

Lemma LastIndexByte_last (a b : string) (c : ascii) :
  LastIndexByte b c = -1 -> LastIndexByte (a +:+ String c b) c = len a.
Proof.
  intros Hb. induction a as [|x a IH].
  - rewrite app_nil_l_str. cbn [LastIndexByte]. rewrite Hb. cbn. now rewrite Ascii.eqb_refl.
  - rewrite app_cons. cbn [LastIndexByte]. rewrite IH. unfold len.
    destruct (Z.leb_spec 0 (Z.of_nat (String.length a))); [|lia].
    cbn [String.length]. lia.
Qed.

Lemma length_app_str (a b : string) :
  String.length (a +:+ b) = (String.length a + String.length b)%nat.
Proof. induction a as [|c a IH]; [reflexivity|]. rewrite app_cons. simpl. now rewrite IH. Qed.

(** X1. [parsePPIDFromStat] reads the parent's id back from a stat line,
    whatever the command name: a name with spaces and parentheses in it
    does not mislead it, since the fields are taken after the last closing
    parenthesis. *)
Theorem parsePPIDFromStat_statLine (pid : Z) (comm : string) (state : ascii)
    (ppid : Z) (rest : string) :
  graphic (utf8.byte state) = true -> state <> ")"%char ->
  allBytes (differs ")") rest = true ->
  strconv.minInt64 <= ppid <= strconv.maxInt64 ->
  parsePPIDFromStat (statLine pid comm state ppid rest) = ppid.
Proof.
  intros Hstate Hparen Hrest Hppid.
  destruct (itoa_bytes ppid Hppid) as [Hne Hbytes].
  set (tail := String state (" " +:+ itoa ppid +:+ " " +:+ rest)).
  set (front := itoa pid +:+ " (" +:+ comm).
  assert (Hstat : statLine pid comm state ppid rest = front +:+ String ")" (String " " tail)).
  { unfold statLine, front. now rewrite !app_assoc_str. }
  assert (Hnoparen : allBytes (differs ")") (itoa ppid) = true).
  { eapply allBytes_impl; [|exact Hbytes].
    intros b Hb. unfold differs. apply negb_true_iff, Z.eqb_neq.
    apply orb_true_iff in Hb as [Hb | Hb]; [apply Z.eqb_eq in Hb; now subst|].
    unfold isDigit in Hb. apply andb_true_iff in Hb as [H1 _]. apply Z.leb_le in H1.
    change (utf8.byte ")") with 41. lia. }
  assert (Hword : allBytes graphic (itoa ppid) = true).
  { eapply allBytes_impl; [|exact Hbytes].
    intros b Hb. unfold graphic.
    apply orb_true_iff in Hb as [Hb | Hb]; [apply Z.eqb_eq in Hb; now subst|].
    unfold isDigit in Hb. apply andb_true_iff in Hb as [H1 H2].
    apply Z.leb_le in H1, H2. apply andb_true_iff. split; apply Z.leb_le; lia. }
  assert (Htail : LastIndexByte (String " " tail) ")" = -1).
  { apply LastIndexByte_absent. unfold tail.
    change (String " " (String state (" " +:+ itoa ppid +:+ " " +:+ rest)))
      with (String " " (String state (String " " (itoa ppid +:+ String " " rest)))).
    cbn [allBytes]. rewrite allBytes_app. cbn [allBytes]. rewrite Hrest, Hnoparen.
    unfold differs at 2.
    destruct (Z.eqb_spec (utf8.byte state) (utf8.byte ")")) as [He|]; [|reflexivity].
    exfalso. apply Hparen. rewrite <- (chr_byte state), He. reflexivity. }
  unfold parsePPIDFromStat. rewrite Hstat, (LastIndexByte_last _ _ _ Htail).
  unfold len. rewrite length_app_str. cbn [String.length].
  destruct (Z.ltb_spec (Z.of_nat (String.length front)) 0); [lia|].
  destruct (Z.leb_spec (Z.of_nat (String.length front + S (S (String.length tail))))
              (Z.of_nat (String.length front) + 2)) as [Hshort|_].
  { unfold tail in Hshort. cbn [String.length] in Hshort. lia. }
  cbn [orb].
  replace (Z.to_nat (Z.of_nat (String.length front) + 2))
    with (String.length (front +:+ ") ")) by (rewrite length_app_str; simpl; lia).
  replace (front +:+ String ")" (String " " tail)) with ((front +:+ ") ") +:+ tail)
    by now rewrite app_assoc_str.
  rewrite sliceFrom_app. unfold tail.
  destruct (Fields_two_words state (itoa ppid) rest Hstate Hword Hne) as [more ->].
  now rewrite (Atoi_itoa ppid Hppid).
Qed.

Lemma fold_addEntry_children (fs : procfs) (entries : list dirEntry)
    (m : gmap Z (list Z)) (p : Z) :
  children (fold_left (addEntry fs) entries m) p
  = children m p
    ++ (if 0 <? p then List.filter (fun c => readPPID fs c =? p) (omap entryPid entries)
        else []).
Proof.
  revert m. induction entries as [|e entries IH]; intros m.
  - simpl. destruct (0 <? p); now rewrite app_nil_r.
  - cbn [fold_left omap list_omap]. rewrite IH. unfold addEntry, entryPid.
    destruct (IsDir e); cbn [negb]; [|reflexivity].
    destruct (strconv.Atoi (Name e)) as [pid noErr].
    destruct noErr; cbn [negb]; [|reflexivity].
    destruct (Z.ltb_spec 0 (readPPID fs pid)) as [Hpos|Hneg].
    + rewrite children_insert.
      destruct (decide (readPPID fs pid = p)) as [<-|Hne].
      * apply Z.ltb_lt in Hpos. rewrite Hpos. cbn [List.filter].
        rewrite Z.eqb_refl. now rewrite <- app_assoc.
      * destruct (0 <? p); [|reflexivity]. cbn [List.filter].
        now destruct (Z.eqb_spec (readPPID fs pid) p).
    + destruct (Z.ltb_spec 0 p); [|reflexivity]. cbn [List.filter].
      destruct (Z.eqb_spec (readPPID fs pid) p); [lia | reflexivity].
Qed.

(** X2. The children that the map built from a scan lists for a parent are
    the scanned processes whose recorded parent it is, in the order of the
    directory listing, and none for a parent id that is not positive; a
    process is listed under one parent only, and once if the scan names it
    once. *)
Theorem buildChildMap_children (fs : procfs) (p : Z) :
  children (buildChildMap fs) p
  = (if 0 <? p then List.filter (fun c => readPPID fs c =? p) (scannedPids fs) else [])
  /\ (forall p' c, edge (buildChildMap fs) p c -> edge (buildChildMap fs) p' c -> p = p')
  /\ (NoDup (scannedPids fs) -> NoDup (children (buildChildMap fs) p)).
Proof.
  assert (Hall : forall q, children (buildChildMap fs) q
            = if 0 <? q then List.filter (fun c => readPPID fs c =? q) (scannedPids fs)
              else []).
  { intros q. unfold buildChildMap, scannedPids. destruct (readDir fs) as [entries|].
    - rewrite fold_addEntry_children. reflexivity.
    - unfold children. rewrite lookup_empty. now destruct (0 <? q). }
  split; [apply Hall|]. split.
  - unfold edge. intros p' c. rewrite !Hall.
    destruct (0 <? p); [|intros []]. destruct (0 <? p'); [|intros _ []].
    rewrite !List.filter_In. intros [_ H1] [_ H2].
    apply Z.eqb_eq in H1, H2. congruence.
  - intros Hnd. rewrite Hall. destruct (0 <? p); [|constructor].
    apply NoDup_ListNoDup, List.NoDup_filter. now apply NoDup_ListNoDup.
Qed.


Section Ranked.

Variable m : gmap Z (list Z).
Variable rank : Z -> nat.
Hypothesis rank_decreases : forall p c, edge m p c -> (rank c < rank p)%nat.





End Ranked.

(** A set of processes each of which has a child in the set keeps the
    queue from ever becoming empty. *)
Lemma drainQueue_cycle (m : gmap Z (list Z)) (looping : Z -> Prop) :
  (forall x, looping x -> exists y, edge m x y /\ looping y) ->
  forall (fuel : nat) (queue result : list Z),
    (exists x, In x queue /\ looping x) -> drainQueue fuel m queue result = None.
Proof.
  intros Hloop. induction fuel as [|fuel IH]; intros queue result (x & Hx & Hl).
  - destruct queue; [destruct Hx | reflexivity].
  - destruct queue as [|p queue]; [destruct Hx|]. cbn [drainQueue]. apply IH.
    destruct Hx as [-> | Hx].
    + destruct (Hloop x Hl) as (y & Hy & Hly). exists y. split; [|exact Hly].
      apply in_app_iff. now right.
    + exists x. split; [|exact Hl]. apply in_app_iff. now left.
Qed.

Section AgentSearch.

Variable caseTable : Z -> Z.
Variable fs : procfs.

Local Abbreviation agentOfN := (agentOf caseTable fs).

Lemma agentOf_name (pid : Z) (name : string) :
  agentOfN pid = Some name -> name = "claude" \/ name = "codex".
Proof.
  unfold agentOf. destruct (Contains _ "claude"); [intros [= <-]; now left|].
  destruct (Contains _ "codex"); [intros [= <-]; now right | discriminate].
Qed.

Lemma firstAgent_spec (pids : list Z) :
  match firstAgent caseTable fs pids with
  | Some (gc, name) => In gc pids /\ agentOfN gc = Some name
  | None => forall gc, In gc pids -> agentOfN gc = None
  end.
Proof.
  induction pids as [|gc pids IH]; [intros gc []|]. cbn [firstAgent].
  destruct (agentOfN gc) as [name|] eqn:Hgc.
  - split; [now left | exact Hgc].
  - destruct (firstAgent caseTable fs pids) as [[gc' name]|].
    + destruct IH as [Hin Ha]. split; [now right | exact Ha].
    + intros gc' [<- | Hin]; [exact Hgc | now apply IH].
Qed.

Lemma findAgentAmong_spec (childMap : gmap Z (list Z)) (pids : list Z) :
  let found := findAgentAmong caseTable fs childMap pids in
  (found = (0, "")
   /\ forall child, In child pids ->
        agentOfN child = None
        /\ forall gc, edge childMap child gc -> agentOfN gc = None)
  \/ (agentOfN found.1 = Some found.2
      /\ (In found.1 pids
          \/ exists child, In child pids /\ agentOfN child = None
                           /\ edge childMap child found.1)).
Proof.
  induction pids as [|child pids IH]; [left; split; [reflexivity | intros ? []]|].
  cbn [findAgentAmong]. destruct (agentOfN child) as [name|] eqn:Hchild.
  - right. split; [exact Hchild | left; now left].
  - pose proof (firstAgent_spec (children childMap child)) as Hgc.
    destruct (firstAgent caseTable fs (children childMap child)) as [[gc name]|].
    + right. destruct Hgc as [Hin Ha]. split; [exact Ha|].
      right. exists child. split; [now left | auto].
    + destruct IH as [[-> Hnone] | [Ha Hwhere]].
      * left. split; [reflexivity|].
        intros child' [<- | Hin]; [split; [exact Hchild | exact Hgc] | now apply Hnone].
      * right. split; [exact Ha|].
        destruct Hwhere as [Hin | (child' & Hin & Hnone & He)]; [left; now right|].
        right. exists child'. split; [now right | auto].
Qed.

(** X5. [findAgent] answers [(0, "")] exactly when the command line of no
    child and of no grandchild of the pane's process mentions an agent;
    otherwise it answers a child, or a grandchild below a child that is no
    agent, whose command line mentions the name it returns. *)
Theorem findAgent_spec (panePID : Z) (childMap : gmap Z (list Z)) :
  let found := findAgent caseTable fs panePID childMap in
  (found = (0, "") <->
   forall child, edge childMap panePID child ->
     agentOfN child = None
     /\ forall gc, edge childMap child gc -> agentOfN gc = None)
  /\ (found <> (0, "") ->
      agentOfN found.1 = Some found.2
      /\ (found.2 = "claude" \/ found.2 = "codex")
      /\ (edge childMap panePID found.1
          \/ exists child, edge childMap panePID child /\ agentOfN child = None
                           /\ edge childMap child found.1)).
Proof.
  cbv zeta. unfold findAgent.
  pose proof (findAgentAmong_spec childMap (children childMap panePID)) as H.
  cbv zeta in H. unfold edge at 1 3 5.
  set (found := findAgentAmong caseTable fs childMap (children childMap panePID)) in *.
  destruct H as [[Hfound Hnone] | [Ha Hwhere]].
  - split; [split; [intros _; exact Hnone | intros _; exact Hfound]|].
    intros Hne. now destruct Hne.
  - assert (Hname := agentOf_name _ _ Ha).
    assert (Hne : found <> (0, "")).
    { intros He. rewrite He in Hname. simpl in Hname. now destruct Hname. }
    split; [split; [intros He; now destruct Hne|]|auto].
    intros Hnone. exfalso.
    destruct Hwhere as [Hin | (child & Hin & _ & He)].
    + destruct (Hnone _ Hin) as [Hn _]. congruence.
    + destruct (Hnone _ Hin) as [_ Hn]. specialize (Hn _ He). congruence.
Qed.

End AgentSearch.

(** X6. [getPaneContent] captures a window once per cycle: its answer is in
    the cache afterwards, a second call returns it without consulting the
    capture command, the entries of other windows are untouched, and a
    window already in the cache leaves the cache as it is. *)
Theorem getPaneContent_cached (capture : string -> option string) (window : string)
    (cache : gmap string paneCapture) :
  let '(text, good, cache') := getPaneContent capture window cache in
  cache' !! window = Some {| content := text; ok := good |}
  /\ (forall capture', getPaneContent capture' window cache' = (text, good, cache'))
  /\ (forall other, other <> window -> cache' !! other = cache !! other)
  /\ (is_Some (cache !! window) -> cache' = cache).
Proof.
  unfold getPaneContent. destruct (cache !! window) as [[text good]|] eqn:Hc.
  - cbn [content ok]. split; [exact Hc|]. split; [|auto].
    intros capture'. unfold getPaneContent. now rewrite Hc.
  - assert (Hnew : forall e : paneCapture,
              <[window := e]> cache !! window = Some e
              /\ (forall capture', getPaneContent capture' window (<[window := e]> cache)
                                   = (content e, ok e, <[window := e]> cache))
              /\ (forall other, other <> window ->
                                <[window := e]> cache !! other = cache !! other)
              /\ (is_Some (None : option paneCapture) -> <[window := e]> cache = cache)).
    { intros e. split; [apply lookup_insert_eq|]. split; [|split].
      - intros capture'. unfold getPaneContent. now rewrite lookup_insert_eq.
      - intros other Hne. now apply lookup_insert_ne.
      - intros [? [=]]. }
    destruct (capture window) as [out|]; apply Hnew.
Qed.

Lemma getPaneContent_again (capture capture' : string -> option string)
    (window : string) (cache : gmap string paneCapture) :
  getPaneContent capture' window (getPaneContent capture window cache).2
  = getPaneContent capture window cache.
Proof.
  unfold getPaneContent at 2 3. destruct (cache !! window) as [e|] eqn:Hc.
  - simpl. unfold getPaneContent. now rewrite Hc.
  - destruct (capture window); simpl; unfold getPaneContent;
      now rewrite lookup_insert_eq.
Qed.

Lemma getPaneContent_other (capture : string -> option string)
    (window other : string) (cache : gmap string paneCapture) :
  other <> window -> (getPaneContent capture window cache).2 !! other = cache !! other.
Proof.
  intros Hne. unfold getPaneContent. destruct (cache !! window); [reflexivity|].
  destruct (capture window); simpl; now apply lookup_insert_ne.
Qed.

Lemma sameButActivity_refl (window : string) (st : store) : sameButActivity window st st.
Proof. unfold sameButActivity. auto 10. Qed.

Lemma isStaleActiveMarker_frame (window text : string) (now : Z) (st : store) :
  sameButActivity window st (isStaleActiveMarker window text now st).2.
Proof.
  unfold isStaleActiveMarker, sameButActivity.
  repeat (match goal with
          | |- context [if ?b then _ else _] => destruct b
          | |- context [match ?o with Some _ => _ | None => _ end] => destruct o
          end; cbn [snd withActiveMarker statusState windowWasWorking windowSeen
                    windowPromptSig windowDoneSig windowTopic lastActive
                    windowActiveSig windowActiveAt]);
    repeat split; try reflexivity; rewrite ?lookup_insert_ne by congruence; reflexivity.
Qed.

Lemma isPaneActive_cache (capture : string -> option string) (window : string)
    (now : Z) (cache : gmap string paneCapture) (st : store) :
  (isPaneActive capture window now cache st).1.2 = (getPaneContent capture window cache).2.
Proof.
  unfold isPaneActive, paneActiveNow.
  destruct (getPaneContent capture window cache) as [[text good] cache'].
  destruct good; [destruct (classifyPaneContent text)|].
  - destruct (isStaleActiveMarker window text now st) as [stale st'].
    destruct stale; cbn [negb]; [|reflexivity].
    destruct (lastActive st' !! window); [|reflexivity].
    now destruct (Sub now _ <? activeGrace).
  - destruct (lastActive _ !! window); [|reflexivity].
    now destruct (Sub now _ <? activeGrace).
  - destruct (lastActive _ !! window); [|reflexivity].
    now destruct (Sub now _ <? activeGrace).
Qed.

Lemma isPaneActive_frame (capture : string -> option string) (window : string)
    (now : Z) (cache : gmap string paneCapture) (st : store) :
  sameButActivity window st (isPaneActive capture window now cache st).2.
Proof.
  unfold isPaneActive, paneActiveNow.
  destruct (getPaneContent capture window cache) as [[text good] cache'].
  assert (Hclear : sameButActivity window st (clearActiveMarker window st)).
  { unfold sameButActivity, clearActiveMarker. simpl.
    repeat split; try reflexivity; now apply lookup_delete_ne. }
  assert (Hlast : forall st1 (active : bool),
            sameButActivity window st st1 ->
            sameButActivity window st
              (if active then
                 (true, cache', withLastActive (<[window := now]> (lastActive st1)) st1)
               else
                 match lastActive st1 !! window with
                 | Some last =>
                   if Sub now last <? activeGrace then (true, cache', st1)
                   else (false, cache', withLastActive (delete window (lastActive st1)) st1)
                 | None => (false, cache', st1)
                 end).2).
  { intros st1 active (H1 & H2 & H3 & H4 & H5 & H6 & H7).
    destruct active; [|destruct (lastActive st1 !! window);
                        [destruct (Sub now _ <? activeGrace)|]];
      unfold sameButActivity; simpl; repeat split; try assumption;
      try (apply H7; assumption);
      try (rewrite lookup_insert_ne by congruence; apply H7; assumption);
      try (rewrite lookup_delete_ne by congruence; apply H7; assumption). }
  destruct good; [destruct (classifyPaneContent text)|].
  - pose proof (isStaleActiveMarker_frame window text now st) as Hs.
    destruct (isStaleActiveMarker window text now st) as [stale st'].
    apply (Hlast st' (negb stale) Hs).
  - apply (Hlast _ false Hclear).
  - apply (Hlast _ false Hclear).
Qed.

Lemma classifyChildren_icon (caseTable : Z -> Z) (names : list string) :
  In (classifyChildren caseTable names) (childIcons ++ ["⚙️"]).
Proof.
  unfold classifyChildren.
  repeat (match goal with |- context [if ?b then _ else _] => destruct b end;
          [simpl; tauto|]).
  simpl; tauto.
Qed.

Lemma isWorkingStatus_icon (agentName icon : string) :
  In icon (childIcons ++ ["⚙️"; "🧠"; "💤"]) ->
  isWorkingStatus (agentPrefix agentName +:+ icon) = negb (String.eqb icon "💤").
Proof.
  unfold agentPrefix. intros Hin.
  destruct (String.eqb agentName "codex"); simpl in Hin;
    repeat (destruct Hin as [<- | Hin]; [vm_compute; reflexivity|]); destruct Hin.
Qed.

Lemma paneNeedsAttention_cache (capture : string -> option string) (window : string)
    (cache : gmap string paneCapture) :
  (paneNeedsAttention capture window cache).2 = (getPaneContent capture window cache).2.
Proof.
  unfold paneNeedsAttention.
  destruct (getPaneContent capture window cache) as [[text good] cache'].
  now destruct good.
Qed.

Lemma paneNeedsAttention_again (capture capture' : string -> option string)
    (window : string) (cache : gmap string paneCapture) :
  (paneNeedsAttention capture' window (getPaneContent capture window cache).2).1
  = (paneNeedsAttention capture window cache).1.
Proof.
  unfold paneNeedsAttention. rewrite getPaneContent_again.
  destruct (getPaneContent capture window cache) as [[text good] cache'].
  now destruct good.
Qed.

Section Status.

Variable caseTable : Z -> Z.
Variable capture : string -> option string.
Variable fs : procfs.

Local Abbreviation getStatusN := (getStatus caseTable capture fs).
Local Abbreviation findAgentN := (findAgent caseTable fs).

(** X7. [getStatus] answers the empty status when no agent is found, and
    otherwise, once [collectDescendants] has returned, the agent's prefix
    and one icon; the status counts as working unless the icon is the idle
    one. *)
Theorem getStatus_shape (fuel : nat) (window : string) (panePID : Z)
    (childMap : gmap Z (list Z)) (now : Z) (cache : gmap string paneCapture)
    (st : store) :
  let found := findAgentN panePID childMap in
  (found.1 = 0 -> getStatusN fuel window panePID childMap now cache st = Some ("", cache, st))
  /\ (found.1 <> 0 ->
      (getStatusN fuel window panePID childMap now cache st = None
       <-> collectDescendants fuel found.1 childMap = None)
      /\ forall status cache' st',
           getStatusN fuel window panePID childMap now cache st
           = Some (status, cache', st') ->
           exists icon,
             status = agentPrefix found.2 +:+ icon
             /\ In icon (childIcons ++ ["⚙️"; "🧠"; "💤"])
             /\ isWorkingStatus status = negb (String.eqb icon "💤")).
Proof.
  cbv zeta. unfold getStatus.
  destruct (findAgentN panePID childMap) as [agentPID agentName]. cbn [fst snd].
  split.
  - intros ->. reflexivity.
  - intros Hne. apply Z.eqb_neq in Hne. rewrite Hne.
    fold (agentPrefix agentName).
    destruct (collectDescendants fuel agentPID childMap) as [descendants|];
      [|split; [tauto | discriminate]].
    assert (Hicon : forall (icon status : string)
                (cache' : gmap string paneCapture) (st' : store)
                (cache0 : gmap string paneCapture) (st0 : store),
              In icon (childIcons ++ ["⚙️"; "🧠"; "💤"]) ->
              Some (agentPrefix agentName +:+ icon, cache0, st0)
              = Some (status, cache', st') ->
              exists icon0,
                status = agentPrefix agentName +:+ icon0
                /\ In icon0 (childIcons ++ ["⚙️"; "🧠"; "💤"])
                /\ isWorkingStatus status = negb (String.eqb icon0 "💤")).
    { intros icon status cache' st' cache0 st0 Hin [= <- _ _].
      exists icon. split; [reflexivity|]. split; [exact Hin|].
      now apply isWorkingStatus_icon. }
    destruct (omap (childSignal caseTable fs) descendants) as [|signal signals].
    + destruct (paneNeedsAttention capture window cache) as [attention cache1].
      destruct attention.
      * split; [split; discriminate|]. intros status cache' st'.
        apply Hicon. simpl; tauto.
      * destruct (isPaneActive capture window now cache1 st) as [[active cache2] st2].
        split; [split; discriminate|]. intros status cache' st'.
        destruct active; apply Hicon; simpl; tauto.
    + pose proof (classifyChildren_icon caseTable (signal :: signals)) as Hclass.
      destruct (String.eqb (classifyChildren caseTable (signal :: signals)) "⚙️").
      * destruct (isPaneActive capture window now cache st) as [[active cache1] st1].
        destruct (paneNeedsAttention capture window cache1) as [attention cache2].
        split; [split; discriminate|]. intros status cache' st'.
        unfold unknownChildStatus.
        destruct attention; [|destruct active]; apply Hicon; simpl; tauto.
      * split; [split; discriminate|]. intros status cache' st'.
        apply Hicon. apply in_app_iff. apply in_app_iff in Hclass as [H | H].
        -- now left.
        -- right. simpl in H |- *. tauto.
Qed.

Lemma getStatus_effect (fuel : nat) (window : string) (panePID : Z)
    (childMap : gmap Z (list Z)) (now : Z) (cache : gmap string paneCapture)
    (st : store) (status : string) (cache' : gmap string paneCapture) (st' : store) :
  getStatusN fuel window panePID childMap now cache st = Some (status, cache', st') ->
  sameButActivity window st st'
  /\ (forall other, other <> window -> cache' !! other = cache !! other)
  /\ (forall entry, cache !! window = Some entry -> cache' = cache).
Proof.
  unfold getStatus.
  destruct (findAgentN panePID childMap) as [agentPID agentName].
  assert (Hsame : sameButActivity window st st
                  /\ (forall other, other <> window -> cache !! other = cache !! other)
                  /\ (forall entry, cache !! window = Some entry -> cache = cache))
    by (split; [apply sameButActivity_refl | auto]).
  assert (Hkept : forall capture0 entry, cache !! window = Some entry ->
                    (getPaneContent capture0 window cache).2 = cache).
  { intros capture0 entry He. unfold getPaneContent. now rewrite He. }
  destruct (agentPID =? 0); [intros [= <- <- <-]; exact Hsame|].
  destruct (collectDescendants fuel agentPID childMap) as [descendants|]; [|discriminate].
  destruct (omap (childSignal caseTable fs) descendants) as [|signal signals].
  - pose proof (paneNeedsAttention_cache capture window cache) as Hc1.
    destruct (paneNeedsAttention capture window cache) as [attention cache1].
    cbn [snd] in Hc1. subst cache1. destruct attention.
    + intros [= <- <- <-]. split; [apply sameButActivity_refl|]. split.
      * intros other Hne. now apply getPaneContent_other.
      * intros entry He. exact (Hkept _ _ He).
    + pose proof (isPaneActive_cache capture window now
                    (getPaneContent capture window cache).2 st) as Hc2.
      pose proof (isPaneActive_frame capture window now
                    (getPaneContent capture window cache).2 st) as Hf.
      destruct (isPaneActive capture window now _ st) as [[active cache2] st2].
      cbn [fst snd] in Hc2, Hf. subst cache2.
      intros [= <- <- <-]. split; [exact Hf|]. split.
      * intros other Hne. now rewrite !getPaneContent_other.
      * intros entry He. now rewrite !(Hkept _ _ He).
  - destruct (String.eqb (classifyChildren caseTable (signal :: signals)) "⚙️");
      [|intros [= <- <- <-]; exact Hsame].
    pose proof (isPaneActive_cache capture window now cache st) as Hc1.
    pose proof (isPaneActive_frame capture window now cache st) as Hf.
    destruct (isPaneActive capture window now cache st) as [[active cache1] st1].
    cbn [fst snd] in Hc1, Hf. subst cache1.
    pose proof (paneNeedsAttention_cache capture window
                  (getPaneContent capture window cache).2) as Hc2.
    destruct (paneNeedsAttention capture window _) as [attention cache2].
    cbn [snd] in Hc2. subst cache2.
    intros [= <- <- <-]. split; [exact Hf|]. split.
    + intros other Hne. now rewrite !getPaneContent_other.
    + intros entry He. now rewrite !(Hkept _ _ He).
Qed.

(** X8. [getStatus] for a pane writes nothing about another window, and of
    the package-level maps only the three that track activity. *)
Theorem getStatus_frame (fuel : nat) (window : string) (panePID : Z)
    (childMap : gmap Z (list Z)) (now : Z) (cache : gmap string paneCapture)
    (st : store) (status : string) (cache' : gmap string paneCapture) (st' : store) :
  getStatusN fuel window panePID childMap now cache st = Some (status, cache', st') ->
  sameButActivity window st st'
  /\ (forall other, other <> window -> cache' !! other = cache !! other)
  /\ (forall entry, cache !! window = Some entry -> cache' = cache).
Proof. apply getStatus_effect. Qed.

(** X9. While the pane shows a prompt that needs attention, [getStatus]
    reports the agent as working only for a child process of a recognised
    category: never on the strength of the pane text or of the grace
    period. *)
Theorem getStatus_prompt_idle (fuel : nat) (window : string) (panePID : Z)
    (childMap : gmap Z (list Z)) (now : Z) (cache : gmap string paneCapture)
    (st : store) (status : string) (cache' : gmap string paneCapture) (st' : store) :
  getStatusN fuel window panePID childMap now cache st = Some (status, cache', st') ->
  (paneNeedsAttention capture window cache).1 = true ->
  status <> "" ->
  let agentName := (findAgentN panePID childMap).2 in
  status = agentPrefix agentName +:+ "💤"
  \/ exists icon, In icon childIcons /\ status = agentPrefix agentName +:+ icon.
Proof.
  unfold getStatus.
  destruct (findAgentN panePID childMap) as [agentPID agentName]. cbn [snd].
  destruct (agentPID =? 0); [intros [= <- _ _] _ Hne; now destruct Hne|].
  fold (agentPrefix agentName).
  destruct (collectDescendants fuel agentPID childMap) as [descendants|]; [|discriminate].
  destruct (omap (childSignal caseTable fs) descendants) as [|signal signals].
  - destruct (paneNeedsAttention capture window cache) as [attention cache1].
    intros Hres Hatt _. cbn [fst] in Hatt. subst attention.
    injection Hres as <- _ _. now left.
  - pose proof (classifyChildren_icon caseTable (signal :: signals)) as Hclass.
    destruct (String.eqb_spec (classifyChildren caseTable (signal :: signals)) "⚙️")
      as [Hgear | Hgear].
    + pose proof (isPaneActive_cache capture window now cache st) as Hc1.
      destruct (isPaneActive capture window now cache st) as [[active cache1] st1].
      cbn [fst snd] in Hc1. subst cache1.
      pose proof (paneNeedsAttention_again capture capture window cache) as Hagain.
      destruct (paneNeedsAttention capture window _) as [attention cache2].
      cbn [fst] in Hagain. intros Hres Hatt _. rewrite Hatt in Hagain. subst attention.
      injection Hres as <- _ _. now left.
    + intros [= <- _ _] _ _. right. eexists. split; [|reflexivity].
      apply in_app_iff in Hclass as [H | [H | []]]; [exact H | congruence].
Qed.

End Status.

Lemma isUnread_markUnread (window other : string) (st : store) :
  isUnread other (markUnread window st)
  = if decide (window = other) then true else isUnread other st.
Proof.
  unfold isUnread, markUnread. simpl. rewrite lookup_insert.
  now destruct (decide (window = other)).
Qed.

Lemma isUnread_clearUnread (window other : string) (st : store) :
  isUnread other (clearUnread window st)
  = if decide (window = other) then false else isUnread other st.
Proof.
  unfold isUnread, clearUnread.
  destruct (statusState st !! window) as [r|] eqn:Hr; simpl.
  - rewrite lookup_insert. now destruct (decide (window = other)).
  - destruct (decide (window = other)) as [<-|]; [now rewrite Hr | reflexivity].
Qed.

Lemma isUnread_setWindowStatusAt (threshold : Z) (window status other : string)
    (st : store) :
  isUnread other (setWindowStatusAt threshold window status st).2 = isUnread other st.
Proof.
  unfold isUnread, setWindowStatusAt.
  repeat (match goal with |- context [if ?b then _ else _] => destruct b end);
    simpl; rewrite lookup_insert; destruct (decide (window = other)) as [<-|];
    try reflexivity; now destruct (statusState st !! window).
Qed.

Lemma windowRecord_markUnread (window other : string) (st : store) :
  sameHysteresis (windowRecord st other) (windowRecord (markUnread window st) other).
Proof.
  unfold windowRecord, markUnread. simpl. rewrite lookup_insert.
  destruct (decide (window = other)) as [<-|]; repeat split.
Qed.

Lemma windowRecord_clearUnread (window other : string) (st : store) :
  sameHysteresis (windowRecord st other) (windowRecord (clearUnread window st) other).
Proof.
  unfold windowRecord, clearUnread.
  destruct (statusState st !! window) as [r|] eqn:Hr; simpl; [|repeat split].
  rewrite lookup_insert. destruct (decide (window = other)) as [<-|]; [|repeat split].
  rewrite Hr. repeat split.
Qed.

(** X10. The unread flag of a window is set by [markUnread], cleared by
    [clearUnread] and read by [isUnread]; neither touches another window
    or the hysteresis fields, and [setWindowStatus] leaves every flag as
    it is. *)
Theorem unread_flag (window other status : string) (threshold : Z) (st : store) :
  isUnread window (markUnread window st) = true
  /\ isUnread window (clearUnread window st) = false
  /\ (other <> window ->
      isUnread other (markUnread window st) = isUnread other st
      /\ isUnread other (clearUnread window st) = isUnread other st)
  /\ sameHysteresis (windowRecord st other) (windowRecord (markUnread window st) other)
  /\ sameHysteresis (windowRecord st other) (windowRecord (clearUnread window st) other)
  /\ isUnread other (setWindowStatusAt threshold window status st).2 = isUnread other st.
Proof.
  rewrite !isUnread_markUnread, !isUnread_clearUnread, isUnread_setWindowStatusAt.
  destruct (decide (window = window)); [|congruence].
  repeat split; try apply windowRecord_markUnread; try apply windowRecord_clearUnread;
    destruct (decide (window = other)); congruence.
Qed.

Lemma settled_markUnread (window : string) (st : store) :
  settled st -> settled (markUnread window st).
Proof.
  intros Hs w r. unfold markUnread. simpl. rewrite lookup_insert.
  destruct (decide (window = w)) as [<-|]; [|apply Hs].
  intros [= <-]. simpl. destruct (statusState st !! window) as [r|] eqn:Hr; simpl;
    [exact (Hs _ _ Hr) | reflexivity].
Qed.

Lemma settled_clearUnread (window : string) (st : store) :
  settled st -> settled (clearUnread window st).
Proof.
  intros Hs w r. unfold clearUnread.
  destruct (statusState st !! window) as [r0|] eqn:Hr; simpl; [|apply Hs].
  rewrite lookup_insert. destruct (decide (window = w)) as [<-|]; [|apply Hs].
  intros [= <-]. simpl. exact (Hs _ _ Hr).
Qed.

Lemma windowRecord_count (st : store) (w : string) :
  settled st -> count (windowRecord st w) = 0.
Proof.
  intros Hs. unfold windowRecord.
  destruct (statusState st !! w) as [r|] eqn:Hr; [exact (Hs _ _ Hr) | reflexivity].
Qed.

(** With the threshold of the source, from a store where nothing is being
    counted: [setWindowStatus] commits the status at once, and runs a
    command exactly when the status is not the one shown. *)
Lemma setWindowStatus_settled (window status : string) (st : store) :
  settled st ->
  settled (setWindowStatus window status st).2
  /\ applied (windowRecord (setWindowStatus window status st).2 window) = status
  /\ (setWindowStatus window status st).1
     = (if String.eqb status (applied (windowRecord st window)) then None
        else Some (showCommand window status))
  /\ (forall other, other <> window ->
        statusState (setWindowStatus window status st).2 !! other
        = statusState st !! other).
Proof.
  intros Hs. pose proof (windowRecord_count st window Hs) as Hc.
  pose proof (setWindowStatusAt_record stabilityThreshold st window status) as Hr.
  cbv zeta in Hr. fold (setWindowStatus window status st) in Hr.
  assert (Hother : forall other, other <> window ->
            statusState (setWindowStatus window status st).2 !! other
            = statusState st !! other).
  { intros other Hne. unfold setWindowStatus, setWindowStatusAt.
    repeat (match goal with |- context [if ?b then _ else _] => destruct b end);
      simpl; now rewrite lookup_insert_ne. }
  assert (Hset : count (windowRecord (setWindowStatus window status st).2 window) = 0 ->
                 settled (setWindowStatus window status st).2).
  { intros Hc' w r Hw. destruct (decide (w = window)) as [->|Hne].
    - unfold windowRecord in Hc'. now rewrite Hw in Hc'.
    - rewrite (Hother _ Hne) in Hw. exact (Hs _ _ Hw). }
  destruct Hr as [(Ha & Hnone & Hc' & _) | (Ha & [(Hlt & _) | (_ & Hcmd & Hc' & _ & Ha')])].
  - split; [now apply Hset|]. split; [|split; [|exact Hother]].
    + unfold setWindowStatus, setWindowStatusAt. fold (windowRecord st window).
      destruct (String.eqb_spec status (applied (windowRecord st window)));
        [|contradiction].
      unfold windowRecord at 1. simpl. rewrite lookup_insert_eq. simpl. congruence.
    + rewrite Hnone. rewrite <- Ha. now rewrite String.eqb_refl.
  - exfalso. rewrite Hc in Hlt. unfold stabilityThreshold in Hlt.
    destruct (String.eqb status (pending (windowRecord st window)));
      [change (wrapInt (0 + 1)) with 1 in Hlt|]; lia.
  - split; [now apply Hset|]. split; [exact Ha'|]. split; [|exact Hother].
    apply eqb_false_iff in Ha. now rewrite Hcmd, Ha.
Qed.

Lemma setWindowStatusAt_other (threshold : Z) (window status other : string)
    (st : store) :
  other <> window ->
  statusState (setWindowStatusAt threshold window status st).2 !! other
  = statusState st !! other.
Proof.
  intros Hne. unfold setWindowStatusAt.
  repeat (match goal with |- context [if ?b then _ else _] => destruct b end);
    simpl; now rewrite lookup_insert_ne.
Qed.

Lemma rememberWindowTopic_frame (classifyPaneTopic : string -> string)
    (capture : string -> option string) (window : string)
    (cache : gmap string paneCapture) (st : store) :
  let out := rememberWindowTopic classifyPaneTopic capture window cache st in
  out.1.1 = default "" (windowTopic out.2 !! window)
  /\ statusState out.2 = statusState st
  /\ windowWasWorking out.2 = windowWasWorking st
  /\ windowSeen out.2 = windowSeen st
  /\ windowPromptSig out.2 = windowPromptSig st
  /\ windowDoneSig out.2 = windowDoneSig st
  /\ (forall other, other <> window ->
        windowTopic out.2 !! other = windowTopic st !! other).
Proof.
  cbv zeta. unfold rememberWindowTopic.
  destruct (getPaneContent capture window cache) as [[text good] cache'].
  destruct good; simpl; [|auto 10].
  destruct (negb (String.eqb (classifyPaneTopic text) "")); simpl; [|auto 10].
  repeat split. intros other Hne. now apply lookup_insert_ne.
Qed.

Lemma setWindowStatusAt_frame (threshold : Z) (window status : string) (st : store) :
  let out := setWindowStatusAt threshold window status st in
  windowTopic out.2 = windowTopic st
  /\ windowWasWorking out.2 = windowWasWorking st
  /\ windowSeen out.2 = windowSeen st
  /\ windowPromptSig out.2 = windowPromptSig st
  /\ windowDoneSig out.2 = windowDoneSig st.
Proof.
  cbv zeta. unfold setWindowStatusAt.
  repeat (match goal with |- context [if ?b then _ else _] => destruct b end);
    simpl; auto 10.
Qed.

Lemma HasSuffix_nonempty (s suffix : string) :
  suffix <> "" -> HasSuffix s suffix = true -> s <> "".
Proof.
  intros Hne H ->. unfold HasSuffix in H. destruct suffix; [now destruct Hne|].
  discriminate H.
Qed.

Section Report.

Variable classifyPaneTopic : string -> string.
Variable capture : string -> option string.

Local Abbreviation reportWindowN := (reportWindow classifyPaneTopic capture).

(** The effect of the body of the second loop on what the program keeps
    about the window. *)
Lemma reportWindow_effect (window : string) (s : windowSummary.t) (c : cycle.t) :
  let rawStatus := windowSummary.status s in
  let working := isWorkingStatus rawStatus in
  let st := cycle.state c in
  let st' := cycle.state (reportWindowN window s c) in
  let nowUnread :=
    negb (windowSummary.focused s) && negb working
    && (isUnread window st || marksUnread capture window s (cycle.paneCache c) st) in
  let shown := shownStatus rawStatus nowUnread (default "" (windowTopic st' !! window)) in
  isUnread window st' = nowUnread
  /\ (forall other, other <> window ->
        statusState st' !! other = statusState st !! other
        /\ windowTopic st' !! other = windowTopic st !! other)
  /\ windowWasWorking st' = <[window := working]> (windowWasWorking st)
  /\ windowSeen st' = <[window := true]> (windowSeen st)
  /\ windowPromptSig st'
     = <[window := (windowSignals capture window rawStatus (cycle.paneCache c)).1]>
         (windowPromptSig st)
  /\ windowDoneSig st'
     = <[window := (windowSignals capture window rawStatus (cycle.paneCache c)).2]>
         (windowDoneSig st)
  /\ cycle.seenWindows (reportWindowN window s c) = cycle.seenWindows c
  /\ cycle.summaries (reportWindowN window s c) = cycle.summaries c
  /\ (settled st ->
      settled st'
      /\ applied (windowRecord st' window) = shown
      /\ cycle.commands (reportWindowN window s c)
         = cycle.commands c
           ++ (if String.eqb shown (applied (windowRecord st window)) then []
               else [showCommand window shown])).
Proof.
  cbv zeta. unfold reportWindow, marksUnread, windowSignals.
  set (rawStatus := windowSummary.status s).
  set (focused := windowSummary.focused s).
  set (working := isWorkingStatus rawStatus).
  set (st := cycle.state c).
  destruct (if negb working && negb (String.eqb rawStatus "")
            then paneSignals capture window (cycle.paneCache c)
            else ("", "", cycle.paneCache c)) as [[promptSig doneSig] cache1] eqn:Hsig.
  assert (Hsigs : (if negb working && negb (String.eqb rawStatus "")
                   then (paneSignals capture window (cycle.paneCache c)).1
                   else ("", "")) = (promptSig, doneSig)).
  { destruct (negb working && negb (String.eqb rawStatus ""));
      [now rewrite Hsig | now injection Hsig as <- <- _]. }
  rewrite Hsigs. cbn [fst snd].
  set (mark := shouldMarkUnread _ focused working rawStatus _ promptSig _ doneSig _).
  set (st1 := if mark then markUnread window st else st).
  set (st2 := if focused then clearUnread window st1 else st1).
  set (st3 := if working then clearUnread window st2 else st2).
  set (st4 := recordCycle window working promptSig doneSig st3).
  set (nowUnread := negb focused && negb working && (isUnread window st || mark)).
  assert (Hu4 : isUnread window st4 = nowUnread).
  { change (isUnread window st4) with (isUnread window st3).
    unfold st3, st2, st1, nowUnread.
    destruct working, focused, mark;
      rewrite ?isUnread_clearUnread, ?isUnread_markUnread;
      destruct (decide (window = window)); try congruence; simpl;
      now rewrite ?orb_true_r, ?orb_false_r. }
  assert (Ho4 : forall other, other <> window ->
                  statusState st4 !! other = statusState st !! other).
  { intros other Hne. change (statusState st4) with (statusState st3).
    assert (Hm : forall x, statusState (markUnread window x) !! other
                           = statusState x !! other)
      by (intros x; unfold markUnread; simpl; now rewrite lookup_insert_ne).
    assert (Hcl : forall x, statusState (clearUnread window x) !! other
                            = statusState x !! other).
    { intros x. unfold clearUnread. destruct (statusState x !! window); [|reflexivity].
      simpl. now rewrite lookup_insert_ne. }
    unfold st3, st2, st1. destruct working, focused, mark; now rewrite ?Hcl, ?Hm. }
  assert (Hs4 : settled st -> settled st4).
  { intros Hs. change (settled st3). unfold st3, st2, st1.
    destruct working, focused, mark;
      repeat (first [apply settled_clearUnread | apply settled_markUnread]);
      exact Hs. }
  assert (Ha4 : applied (windowRecord st4 window) = applied (windowRecord st window)).
  { change (windowRecord st4 window) with (windowRecord st3 window).
    assert (Hm : forall x, applied (windowRecord (markUnread window x) window)
                           = applied (windowRecord x window))
      by (intros x; apply (windowRecord_markUnread window window x)).
    assert (Hcl : forall x, applied (windowRecord (clearUnread window x) window)
                            = applied (windowRecord x window))
      by (intros x; apply (windowRecord_clearUnread window window x)).
    unfold st3, st2, st1. destruct working, focused, mark; now rewrite ?Hcl, ?Hm. }
  assert (Hw4 : windowWasWorking st4 = <[window := working]> (windowWasWorking st)
                /\ windowSeen st4 = <[window := true]> (windowSeen st)
                /\ windowPromptSig st4 = <[window := promptSig]> (windowPromptSig st)
                /\ windowDoneSig st4 = <[window := doneSig]> (windowDoneSig st)).
  { assert (Hm : forall x, windowWasWorking (markUnread window x) = windowWasWorking x
                           /\ windowSeen (markUnread window x) = windowSeen x
                           /\ windowPromptSig (markUnread window x) = windowPromptSig x
                           /\ windowDoneSig (markUnread window x) = windowDoneSig x)
      by (intros x; repeat split).
    assert (Hcl : forall x, windowWasWorking (clearUnread window x) = windowWasWorking x
                            /\ windowSeen (clearUnread window x) = windowSeen x
                            /\ windowPromptSig (clearUnread window x) = windowPromptSig x
                            /\ windowDoneSig (clearUnread window x) = windowDoneSig x)
      by (intros x; unfold clearUnread; destruct (statusState x !! window); repeat split).
    assert (H3 : windowWasWorking st3 = windowWasWorking st
                 /\ windowSeen st3 = windowSeen st
                 /\ windowPromptSig st3 = windowPromptSig st
                 /\ windowDoneSig st3 = windowDoneSig st).
    { unfold st3, st2, st1. destruct working, focused, mark;
        repeat match goal with
               | |- context [clearUnread window ?x] =>
                 destruct (Hcl x) as (-> & -> & -> & ->)
               | |- context [markUnread window ?x] =>
                 destruct (Hm x) as (-> & -> & -> & ->)
               end; repeat split. }
    destruct H3 as (H31 & H32 & H33 & H34).
    unfold st4, recordCycle. cbn [withCycleRecord windowWasWorking windowSeen
                                  windowPromptSig windowDoneSig].
    now rewrite H31, H32, H33, H34. }
  set (effective := if negb working && negb (String.eqb rawStatus "")
                       && isUnread window st4
                    then if HasSuffix rawStatus "💤"
                         then TrimSuffix rawStatus "💤" +:+ "📬" else rawStatus
                    else rawStatus).
  assert (Heff : effective
                 = if nowUnread && HasSuffix rawStatus "💤"
                   then TrimSuffix rawStatus "💤" +:+ "📬" else rawStatus).
  { unfold effective. rewrite Hu4.
    destruct nowUnread eqn:Hn; [|now rewrite andb_false_r].
    destruct (HasSuffix rawStatus "💤") eqn:Hsuf; [|now destruct (_ && _)].
    assert (Hne : rawStatus <> "")
      by (apply (HasSuffix_nonempty _ "💤"); [discriminate | exact Hsuf]).
    apply eqb_false_iff in Hne. rewrite Hne.
    unfold nowUnread in Hn. apply andb_true_iff in Hn as [Hn _].
    apply andb_true_iff in Hn as [_ ->]. reflexivity. }
  destruct (if negb (String.eqb effective "")
            then let '(topic, cache2, st5) :=
                   rememberWindowTopic classifyPaneTopic capture window cache1 st4 in
                 (formatStatusWithTopic effective topic, cache2, st5)
            else (effective, cache1, st4)) as [[effective' cache2] st5] eqn:Htopic.
  assert (H5 : statusState st5 = statusState st4
               /\ windowWasWorking st5 = windowWasWorking st4
               /\ windowSeen st5 = windowSeen st4
               /\ windowPromptSig st5 = windowPromptSig st4
               /\ windowDoneSig st5 = windowDoneSig st4
               /\ effective' = formatStatusWithTopic effective
                                 (default "" (windowTopic st5 !! window))
               /\ (forall other, other <> window ->
                     windowTopic st5 !! other = windowTopic st4 !! other)).
  { destruct (String.eqb_spec effective "") as [He|He]; cbn [negb] in Htopic.
    - injection Htopic as <- _ <-. rewrite He. auto 10.
    - pose proof (rememberWindowTopic_frame classifyPaneTopic capture window cache1 st4)
        as Hf. cbv zeta in Hf.
      destruct (rememberWindowTopic classifyPaneTopic capture window cache1 st4)
        as [[topic cache2'] st5'].
      cbn [fst snd] in Hf. destruct Hf as (Ht & Hf1 & Hf2 & Hf3 & Hf4 & Hf5 & Hf6).
      injection Htopic as <- _ <-. rewrite Ht. auto 10. }
  destruct H5 as (H51 & H52 & H53 & H54 & H55 & Heff' & Ht5).
  assert (Ht4 : windowTopic st4 = windowTopic st).
  { change (windowTopic st4) with (windowTopic st3).
    assert (Hm : forall x, windowTopic (markUnread window x) = windowTopic x)
      by reflexivity.
    assert (Hcl : forall x, windowTopic (clearUnread window x) = windowTopic x)
      by (intros x; unfold clearUnread; now destruct (statusState x !! window)).
    unfold st3, st2, st1. destruct working, focused, mark; now rewrite ?Hcl, ?Hm. }
  pose proof (setWindowStatusAt_frame stabilityThreshold window effective' st5) as Hf6.
  pose proof (isUnread_setWindowStatusAt stabilityThreshold window effective' window st5)
    as Hu6.
  pose proof (setWindowStatus_settled window effective' st5) as Hs6.
  pose proof (fun other => setWindowStatusAt_other stabilityThreshold window effective'
                             other st5) as Ho6.
  fold (setWindowStatus window effective' st5) in Hf6, Hu6, Ho6.
  destruct (setWindowStatus window effective' st5) as [cmd st6].
  cbv zeta in Hf6. cbn [fst snd] in Hf6, Hu6, Hs6, Ho6.
  cbn [cycle.state cycle.commands cycle.seenWindows cycle.summaries].
  destruct Hf6 as (Ht6 & Hf61 & Hf62 & Hf63 & Hf64).
  destruct Hw4 as (Hw41 & Hw42 & Hw43 & Hw44).
  assert (Hshown : effective'
                   = shownStatus rawStatus nowUnread (default "" (windowTopic st6 !! window))).
  { unfold shownStatus. now rewrite <- Heff, Ht6. }
  split; [|split; [|split; [|split; [|split; [|split; [|split; [|split]]]]]]];
    try reflexivity; try congruence.
  - rewrite Hu6. unfold isUnread. rewrite H51. exact Hu4.
  - intros other Hne. rewrite (Ho6 other Hne), H51, Ht6, (Ht5 other Hne), Ht4.
    split; [now apply Ho4 | reflexivity].
  - intros Hs. specialize (Hs4 Hs).
    assert (Hs5 : settled st5) by (intros w r; rewrite H51; apply Hs4).
    destruct (Hs6 Hs5) as (Hset & Happ & Hcmd & _).
    split; [exact Hset|]. split; [now rewrite Happ|].
    rewrite Hcmd, <- Hshown. unfold windowRecord at 1. rewrite H51.
    fold (windowRecord st4 window). rewrite Ha4.
    now destruct (String.eqb effective' (applied (windowRecord st window))).
Qed.

(** X12. How the second loop leaves the unread flag: never set for a window
    that is focused or working; otherwise kept if it was set, and set when
    the window was working in the cycle before and now shows an idle
    status; the flag of any other window is left alone. *)
Theorem reportWindow_unread (window : string) (s : windowSummary.t) (c : cycle.t) :
  let st := cycle.state c in
  let st' := cycle.state (reportWindowN window s c) in
  let idle := negb (windowSummary.focused s)
              && negb (isWorkingStatus (windowSummary.status s)) in
  (idle = false -> isUnread window st' = false)
  /\ (idle = true -> isUnread window st = true -> isUnread window st' = true)
  /\ (idle = true -> windowSummary.status s <> "" ->
      windowWasWorking st !! window = Some true -> isUnread window st' = true)
  /\ (forall other, other <> window -> isUnread other st' = isUnread other st).
Proof.
  cbv zeta. destruct (reportWindow_effect window s c) as (Hu & Ho & _).
  rewrite Hu. split; [|split; [|split]].
  - intros ->. reflexivity.
  - intros -> ->. reflexivity.
  - intros Hidle Hne Hwas. rewrite Hidle. unfold marksUnread. rewrite Hwas.
    cbn [default].
    apply andb_true_iff in Hidle as [Hf Hw]. apply negb_true_iff in Hf, Hw.
    destruct (windowSignals _ _ _ _) as [promptSig doneSig].
    unfold shouldMarkUnread. apply eqb_false_iff in Hne. rewrite Hf, Hw, Hne.
    cbn. apply orb_true_r.
  - intros other Hne. unfold isUnread. now rewrite (proj1 (Ho other Hne)).
Qed.

(** X13. What the second loop makes the tab of a window show, from a store in
    which nothing is being counted: the status of the summary, with the
    idle icon replaced by the unread one when the window is unread, and the
    remembered topic; a command is run exactly when that differs from what
    the tab showed. *)
Theorem reportWindow_shows (window : string) (s : windowSummary.t) (c : cycle.t) :
  settled (cycle.state c) ->
  let st' := cycle.state (reportWindowN window s c) in
  let shown := shownStatus (windowSummary.status s) (isUnread window st')
                 (default "" (windowTopic st' !! window)) in
  applied (windowRecord st' window) = shown
  /\ cycle.commands (reportWindowN window s c)
     = cycle.commands c
       ++ (if String.eqb shown (applied (windowRecord (cycle.state c) window)) then []
           else [showCommand window shown])
  /\ settled st'.
Proof.
  intros Hs. cbv zeta.
  destruct (reportWindow_effect window s c) as (Hu & _ & _ & _ & _ & _ & _ & _ & Hshow).
  destruct (Hshow Hs) as (Hset & Happ & Hcmd). rewrite Hu. auto.
Qed.

End Report.

(** X14. A cycle that finds a window idle, with the status and the prompt and
    completion signatures that the cycle before recorded for it as idle,
    does not mark it unread: the flag stays as it was, and is cleared when
    the window is focused. *)
Theorem reportWindow_unchanged_pane (classifyPaneTopic : string -> string)
    (capture capture' : string -> option string) (window : string)
    (s s' : windowSummary.t) (c c' : cycle.t) :
  let before := cycle.state (reportWindow classifyPaneTopic capture window s c) in
  sameMemory window before (cycle.state c') ->
  isWorkingStatus (windowSummary.status s) = false ->
  windowSummary.status s' = windowSummary.status s ->
  windowSignals capture' window (windowSummary.status s') (cycle.paneCache c')
  = windowSignals capture window (windowSummary.status s) (cycle.paneCache c) ->
  isUnread window (cycle.state (reportWindow classifyPaneTopic capture' window s' c'))
  = negb (windowSummary.focused s') && isUnread window before.
Proof.
  cbv zeta. intros (Hm1 & Hm2 & Hm3 & Hm4 & Hm5) Hidle Hstatus Hsig.
  destruct (reportWindow_effect classifyPaneTopic capture window s c)
    as (_ & _ & Hw & Hseen & Hp & Hd & _).
  destruct (reportWindow_effect classifyPaneTopic capture' window s' c') as (Hu & _).
  rewrite Hu. unfold marksUnread. rewrite Hm2, Hm3, Hm4, Hm5, Hw, Hseen, Hp, Hd.
  rewrite !lookup_insert_eq. cbn [default]. rewrite Hsig, Hidle, Hstatus, Hidle.
  destruct (windowSignals capture window (windowSummary.status s) (cycle.paneCache c))
    as [promptSig doneSig]. cbn [fst snd].
  unfold shouldMarkUnread. rewrite !String.eqb_refl. cbn [negb andb orb].
  rewrite !andb_false_r.
  assert (Hun : isUnread window (cycle.state c')
                = isUnread window
                    (cycle.state (reportWindow classifyPaneTopic capture window s c)))
    by (unfold isUnread; now rewrite Hm1).
  rewrite Hun.
  destruct (windowSummary.focused s'); cbn [negb andb orb]; [reflexivity|].
  destruct (String.eqb (windowSummary.status s) ""); cbn; now rewrite orb_false_r.
Qed.

Lemma summarize_lookup (m : gmap string windowSummary.t) (window other : string)
    (rawStatus : string) (focused : bool) :
  other <> window -> summarize m window rawStatus focused !! other = m !! other.
Proof.
  intros Hne. unfold summarize. destruct (m !! window); now apply lookup_insert_ne.
Qed.

Lemma summarizeAll_snoc entries e m :
  summarizeAll (entries ++ [e]) m = summarize (summarizeAll entries m) e.1.1 e.1.2 e.2.
Proof. unfold summarizeAll. now rewrite fold_left_app. Qed.

Lemma panesOf_snoc window entries e :
  panesOf window (entries ++ [e])
  = panesOf window entries ++ (if String.eqb e.1.1 window then [e] else []).
Proof. unfold panesOf. rewrite List.filter_app. reflexivity. Qed.

Lemma existsb_snoc {A : Type} (f : A -> bool) (l : list A) (x : A) :
  existsb f (l ++ [x]) = existsb f l || f x.
Proof. rewrite existsb_app. simpl. now rewrite orb_false_r. Qed.

Lemma summarizeAll_sumsUp (entries : list (string * string * bool))
    (window : string) :
  match summarizeAll entries ∅ !! window with
  | None => panesOf window entries = []
  | Some s => panesOf window entries <> [] /\ sumsUp s (panesOf window entries)
  end.
Proof.
  induction entries as [|[[w r] f] entries IH] using rev_ind;
    [unfold summarizeAll; simpl; now rewrite lookup_empty|].
  rewrite summarizeAll_snoc, panesOf_snoc. cbn [fst snd].
  destruct (String.eqb_spec w window) as [->|Hne];
    [|rewrite summarize_lookup by congruence; now rewrite app_nil_r].
  unfold summarize.
  destruct (summarizeAll entries ∅ !! window) as [prev|]; rewrite lookup_insert_eq.
  - destruct IH as [_ [(before & after & Hmap & Hb & Ha) Hf]].
    split; [now destruct (panesOf window entries)|]. unfold sumsUp.
    cbn [windowSummary.status windowSummary.focused].
    rewrite map_app, existsb_snoc, Hmap, Hf. cbn [map fst snd].
    split; [|reflexivity].
    destruct (Z.ltb_spec (statusPriority (windowSummary.status prev)) (statusPriority r))
      as [Hlt|Hge].
    + exists (before ++ windowSummary.status prev :: after), [].
      split; [reflexivity|]. split; [|constructor].
      apply Forall_app. split; [|constructor].
      * eapply Forall_impl; [exact Hb|]. intros x Hx. simpl in Hx. lia.
      * lia.
      * eapply Forall_impl; [exact Ha|]. intros x Hx. simpl in Hx. lia.
    + exists before, (after ++ [r]). split; [now rewrite <- app_assoc|].
      split; [exact Hb|]. apply Forall_app. split; [exact Ha|]. now constructor.
  - rewrite IH. split; [discriminate|]. unfold sumsUp.
    cbn [app map existsb windowSummary.status windowSummary.focused fst snd].
    split; [|now rewrite orb_false_r].
    exists [], []. split; [reflexivity|]. split; constructor.
Qed.

(** X15. The summary of a window after the first loop: none when the window
    has no pane; otherwise the first of its panes' statuses with the
    highest priority, focused when one of its panes is. *)
Theorem summarize_most_significant (entries : list (string * string * bool))
    (window : string) :
  match summarizeAll entries ∅ !! window with
  | None => panesOf window entries = []
  | Some s => panesOf window entries <> [] /\ sumsUp s (panesOf window entries)
  end.
Proof. apply summarizeAll_sumsUp. Qed.


Section WholeCycle.

Variable caseTable : Z -> Z.
Variable classifyPaneTopic : string -> string.
Variable capture : string -> option string.
Variable fs : procfs.

Local Abbreviation visitPanesN := (visitPanes caseTable capture fs).
Local Abbreviation reportWindowsN := (reportWindows classifyPaneTopic capture).
Local Abbreviation updateAllPanesN := (updateAllPanes caseTable classifyPaneTopic capture fs).

Lemma visitPanes_effect (fuel : nat) (childMap : gmap Z (list Z)) (clock : nat -> Z)
    (panes : list paneInfo.t) :
  forall (k : nat) (c c' : cycle.t),
    visitPanesN fuel childMap clock k panes c = Some c' ->
    cycle.seenWindows c' = list_to_set (paneWindows panes) ∪ cycle.seenWindows c
    /\ cycle.commands c' = cycle.commands c
    /\ statusState (cycle.state c') = statusState (cycle.state c)
    /\ windowTopic (cycle.state c') = windowTopic (cycle.state c)
    /\ exists statuses,
         length statuses = length panes
         /\ cycle.summaries c'
            = summarizeAll (paneEntries panes statuses) (cycle.summaries c).
Proof.
  induction panes as [|p panes IH]; intros k c c' Hv.
  - injection Hv as <-. split; [cbn; now rewrite (left_id_L ∅ (∪))|].
    repeat split. now exists [].
  - cbn [visitPanes] in Hv.
    destruct (getStatus caseTable capture fs fuel (paneInfo.window p) (paneInfo.pid p)
                childMap (clock k) (cycle.paneCache c) (cycle.state c))
      as [[[rawStatus cache1] st1]|] eqn:Hg; [|discriminate].
    destruct (getStatus_effect _ _ _ _ _ _ _ _ _ _ _ _ _ Hg)
      as [(Hs & _ & _ & _ & _ & Ht & _) _].
    destruct (IH _ _ _ Hv) as (Hseen & Hcmd & Hst & Htop & statuses & Hlen & Hsum).
    cbn [cycle.seenWindows cycle.commands cycle.state cycle.summaries] in *.
    split.
    { rewrite Hseen. unfold paneWindows. cbn [map list_to_set].
      rewrite !(assoc_L (∪)). f_equal. apply (comm_L (∪)). }
    split; [exact Hcmd|]. split; [congruence|]. split; [congruence|].
    exists (rawStatus :: statuses). split; [simpl; congruence|]. exact Hsum.
Qed.

Lemma reportWindows_snoc (order : list string) (w : string) (c : cycle.t) :
  reportWindowsN (order ++ [w]) c
  = match cycle.summaries (reportWindowsN order c) !! w with
    | Some s => reportWindow classifyPaneTopic capture w s (reportWindowsN order c)
    | None => reportWindowsN order c
    end.
Proof. unfold reportWindows. now rewrite fold_left_app. Qed.

Lemma reportWindows_effect (order : list string) (c : cycle.t) :
  let c' := reportWindowsN order c in
  cycle.seenWindows c' = cycle.seenWindows c
  /\ cycle.summaries c' = cycle.summaries c
  /\ (settled (cycle.state c) ->
      settled (cycle.state c')
      /\ forall w s,
           In w order -> cycle.summaries c !! w = Some s ->
           applied (windowRecord (cycle.state c') w)
           = shownStatus (windowSummary.status s) (isUnread w (cycle.state c'))
               (default "" (windowTopic (cycle.state c') !! w))).
Proof.
  cbv zeta. induction order as [|x order IH] using rev_ind.
  - split; [reflexivity|]. split; [reflexivity|]. intros Hs. split; [exact Hs|].
    intros w s [].
  - rewrite reportWindows_snoc. destruct IH as (Hseen & Hsum & Hshow).
    set (c1 := reportWindowsN order c) in *.
    destruct (cycle.summaries c1 !! x) as [sx|] eqn:Hx.
    + destruct (reportWindow_effect classifyPaneTopic capture x sx c1)
        as (_ & Hother & _ & _ & _ & _ & Hseen' & Hsum' & _).
      split; [congruence|]. split; [congruence|]. intros Hs.
      destruct (Hshow Hs) as [Hs1 Hshown].
      destruct (reportWindow_effect classifyPaneTopic capture x sx c1)
        as (Hu & _ & _ & _ & _ & _ & _ & _ & Hshows).
      destruct (Hshows Hs1) as (Hs2 & Happ & _). rewrite <- Hu in Happ.
      split; [exact Hs2|]. intros w s Hin Hw.
      destruct (String.eqb_spec w x) as [->|Hne].
      * rewrite Hsum in Hx. replace s with sx by congruence. exact Happ.
      * apply in_app_iff in Hin as [Hin | [-> | []]]; [|congruence].
        destruct (Hother w Hne) as [Ho1 Ho2].
        unfold windowRecord, isUnread. rewrite Ho1, Ho2.
        exact (Hshown w s Hin Hw).
    + split; [exact Hseen|]. split; [exact Hsum|]. intros Hs.
      destruct (Hshow Hs) as [Hs1 Hshown]. split; [exact Hs1|].
      intros w s Hin Hw. apply in_app_iff in Hin as [Hin | [-> | []]].
      * exact (Hshown w s Hin Hw).
      * rewrite Hsum in Hx. congruence.
Qed.


(** X16. After a cycle over a pane list that is not empty, the store holds
    nothing about a window that has no pane in the list; a cycle over an
    empty list, or one whose pane listing failed, changes nothing and runs
    no command. *)
Theorem updateAllPanes_forgets (fuel : nat) (listPanesOutput : option string)
    (clock : nat -> Z) (order : list string) (st : store)
    (issued : list command) (st' : store) :
  updateAllPanesN fuel listPanesOutput clock order st = Some (issued, st') ->
  (listPanes listPanesOutput = [] -> issued = [] /\ st' = st)
  /\ (listPanes listPanesOutput <> [] ->
      forall w, ~ In w (paneWindows (listPanes listPanesOutput)) -> forgotten st' w).
Proof.
  unfold updateAllPanes. destruct (listPanes listPanesOutput) as [|p panes] eqn:Hp.
  - intros [= <- <-]. split; [auto | intros H; now destruct H].
  - destruct (visitPanes _ _ _ _ _ _ _ _ _) as [c|] eqn:Hv; [|discriminate].
    intros [= <- <-]. split; [discriminate|]. intros _ w Hw.
    destruct (visitPanes_effect _ _ _ _ _ _ _ Hv) as (Hseen & _).
    destruct (reportWindows_effect order c) as (Hseen' & _).
    assert (Hnot : w ∉ cycle.seenWindows (reportWindowsN order c)).
    { rewrite Hseen', Hseen. cbn [cycle.seenWindows]. intros Hin. apply Hw.
      apply elem_of_union in Hin as [Hin | Hin]; [|now apply elem_of_empty in Hin].
      now apply elem_of_list_to_set, list_elem_of_In in Hin. }
    unfold forgotten, cleanUp. simpl. rewrite !lookup_prune.
    destruct (decide (w ∈ cycle.seenWindows (reportWindowsN order c)));
      [contradiction | auto 10].
Qed.


End WholeCycle.

Lemma fieldsFrom_first_word (w : string) :
  w <> "" -> allBytes graphic w = true ->
  (forall t, fieldsFrom 0 None (w +:+ String " " t) = w :: fieldsFrom 0 None t)
  /\ fieldsFrom 0 None w = [w].
Proof.
  intros Hne Hw. destruct w as [|c w]; [now destruct Hne|].
  cbn [allBytes] in Hw. apply andb_true_iff in Hw as [Hc Hw].
  assert (H1 : forall u, fieldsFrom 0 None (String c u) = fieldsFrom 0 (Some (String c "")) u).
  { intros u. cbn [fieldsFrom]. rewrite (decode_ascii c u (graphic_ascii _ Hc)).
    now rewrite (IsSpace_graphic _ Hc). }
  destruct (fieldsFrom_word w (String c "") Hw) as [Hw1 Hw2].
  split; [intros t; rewrite app_cons|]; rewrite H1; [apply Hw1 | apply Hw2].
Qed.

Lemma dropCR_last (a : string) (c : ascii) :
  c <> "013"%char -> bufio.dropCR (a +:+ String c "") = a +:+ String c "".
Proof.
  intros Hc. induction a as [|x a IH].
  - rewrite app_nil_l_str. cbn. now destruct (Ascii.eqb_spec c "013").
  - rewrite app_cons. cbn [bufio.dropCR]. rewrite IH.
    destruct (a +:+ String c "") eqn:Ha; [|reflexivity].
    destruct a; discriminate Ha.
Qed.

Lemma scanFrom_line (line : string) :
  forall (n : Z) (cur rest : string),
    allBytes (differs "010") line = true ->
    0 <= n -> n + len line < bufio.MaxScanTokenSize ->
    bufio.scanFrom n cur (line +:+ nl +:+ rest)
    = bufio.dropCR (cur +:+ line) :: bufio.ScanLines rest.
Proof.
  induction line as [|c line IH]; intros n cur rest Hline Hn Hlen.
  - rewrite app_nil_l_str, app_nil_r_str. reflexivity.
  - cbn [allBytes] in Hline. apply andb_true_iff in Hline as [Hc Hline].
    rewrite app_cons. cbn [bufio.scanFrom].
    destruct (Ascii.eqb_spec c "010") as [->|_]; [discriminate Hc|].
    unfold len in Hlen. cbn [String.length] in Hlen.
    destruct (Z.leb_spec bufio.MaxScanTokenSize (n + 1)); [lia|].
    rewrite IH; [|exact Hline|lia|unfold len; lia].
    now rewrite app_assoc_str.
Qed.

Lemma graphic_differs (c : ascii) (s : string) :
  graphic (utf8.byte c) = false -> allBytes graphic s = true ->
  allBytes (differs c) s = true.
Proof.
  intros Hc. apply allBytes_impl. intros b Hb. unfold differs.
  apply negb_true_iff, Z.eqb_neq. intros ->. congruence.
Qed.

Lemma itoa_graphic (n : Z) :
  strconv.minInt64 <= n <= strconv.maxInt64 -> allBytes graphic (itoa n) = true.
Proof.
  intros Hn. destruct (itoa_bytes n Hn) as [_ Hb].
  eapply allBytes_impl; [|exact Hb]. intros b H. unfold graphic.
  apply orb_true_iff in H as [H | H]; [apply Z.eqb_eq in H; now subst|].
  unfold isDigit in H. apply andb_true_iff in H as [H1 H2].
  apply Z.leb_le in H1, H2. apply andb_true_iff. split; apply Z.leb_le; lia.
Qed.

Lemma parsePane_paneLine (p : paneInfo.t) :
  readable p -> parsePane (paneLine p) = Some p.
Proof.
  intros (Hne & Hw & Hpid & _). unfold parsePane, paneLine, Fields.
  destruct (itoa_bytes _ Hpid) as [Hine _].
  pose proof (itoa_graphic _ Hpid) as Hig.
  change (paneInfo.window p +:+ " " +:+ itoa (paneInfo.pid p) +:+ " "
          +:+ (if paneInfo.focused p then "1" else "0"))
    with (paneInfo.window p +:+ String " " (itoa (paneInfo.pid p)
          +:+ String " " (if paneInfo.focused p then "1" else "0"))).
  rewrite (proj1 (fieldsFrom_first_word _ Hne Hw)).
  rewrite (proj1 (fieldsFrom_first_word _ Hine Hig)).
  assert (Hf : fieldsFrom 0 None (if paneInfo.focused p then "1" else "0")
               = [if paneInfo.focused p then "1" else "0"])
    by now destruct (paneInfo.focused p).
  rewrite Hf, (Atoi_itoa _ Hpid). destruct p as [w n f]. cbn [paneInfo.focused].
  now destruct f.
Qed.

Lemma paneLine_scanned (p : paneInfo.t) (rest : string) :
  readable p ->
  bufio.ScanLines (paneLine p +:+ nl +:+ rest) = paneLine p :: bufio.ScanLines rest.
Proof.
  intros (Hne & Hw & Hpid & Hlen). unfold bufio.ScanLines at 1.
  rewrite scanFrom_line; [|  | lia | lia].
  - rewrite app_nil_l_str. unfold paneLine. rewrite <- !app_assoc_str.
    destruct (paneInfo.focused p); now rewrite dropCR_last.
  - unfold paneLine. rewrite !allBytes_app.
    rewrite (graphic_differs "010" _ eq_refl Hw).
    rewrite (graphic_differs "010" _ eq_refl (itoa_graphic _ Hpid)).
    now destruct (paneInfo.focused p).
Qed.

(** X18. [listPanes] reads back the pane list from the lines [tmux] prints for
    it. *)
Theorem listPanes_round_trip (panes : list paneInfo.t) :
  Forall readable panes -> listPanes (Some (text (map paneLine panes))) = panes.
Proof.
  unfold listPanes. induction 1 as [|p panes Hp _ IH]; [reflexivity|].
  cbn [map text fold_right]. fold (text (map paneLine panes)).
  rewrite (paneLine_scanned p _ Hp). cbn [omap list_omap].
  rewrite (parsePane_paneLine p Hp). f_equal. exact IH.
Qed.

(** X19. An active-signature line is one of the lines the scan looks at and
    carries an active marker; content that [classifyPaneContent] finds
    active always has one, so that the staleness check of [isPaneActive]
    always has a signature to track. *)
Theorem classifyPaneActiveSignature_sound (text : string) :
  (classifyPaneContent text = true -> classifyPaneActiveSignature text <> "")
  /\ (classifyPaneActiveSignature text <> "" ->
      hasActiveMarker (classifyPaneActiveSignature text) = true
      /\ In (classifyPaneActiveSignature text) (scannedLines 12 text)).
Proof.
  split; [apply classifyPaneContent_active_signature|].
  unfold classifyPaneActiveSignature. rewrite scanUp_scannedLines.
  induction (scannedLines 12 text) as [|l ls IH]; [intros H; now destruct H|].
  cbn [firstVisit]. destruct (hasActiveMarker l) eqn:Hl.
  - intros _. split; [exact Hl | now left].
  - intros H. destruct (IH H) as [H1 H2]. split; [exact H1 | now right].
Qed.

(** X20. When the pane text is active: [isPaneActive] answers [true] and
    stamps the window with [now] unless the marker is stale; a stale marker
    does not make the pane inactive at once, the grace period since the
    last stamp still applies. *)
Theorem isPaneActive_active (capture : string -> option string) (window : string)
    (now : Z) (cache : gmap string paneCapture) (st : store) (text : string) :
  (getPaneContent capture window cache).1 = (text, true) ->
  classifyPaneContent text = true ->
  let stale := (isStaleActiveMarker window text now st).1 in
  let out := isPaneActive capture window now cache st in
  (stale = false -> out.1.1 = true /\ lastActive out.2 !! window = Some now)
  /\ (stale = true ->
      out.1.1 = match lastActive st !! window with
                | Some last => now - last <? 10 * Second
                | None => false
                end).
Proof.
  intros Hget Hact. cbv zeta.
  assert (Hnow : (paneActiveNow capture window now cache st).1.1
                 = negb (isStaleActiveMarker window text now st).1).
  { unfold paneActiveNow.
    destruct (getPaneContent capture window cache) as [[text' good] cache'].
    cbn [fst] in Hget. injection Hget as -> ->. rewrite Hact.
    now destruct (isStaleActiveMarker window text now st). }
  split; intros Hstale; rewrite Hstale in Hnow.
  - unfold isPaneActive.
    destruct (paneActiveNow capture window now cache st) as [[active cache'] st'].
    cbn [fst negb] in Hnow. subst active. cbn [fst snd lastActive withLastActive].
    split; [reflexivity | apply lookup_insert_eq].
  - exact (proj1 (isPaneActive_inactive capture window now cache st Hnow)).
Qed.

(** X21. [classifyChildren] decides signal by signal: its answer is the first
    category, in the order build, test, package, git, network, one of whose
    markers occurs within a single lower-cased signal; joining the signals
    makes no marker appear that no signal contains. *)
Theorem classifyChildren_by_signal (caseTable : Z -> Z) (names : list string) :
  classifyChildren caseTable names
  = classifyLowered (map (ToLower caseTable) names).
Proof.
  rewrite classifyChildren_lowered. f_equal. apply map_ext.
  intros s. symmetry. apply ToLower_lower.
Qed.

(** X4. [collectDescendants] does not return for a process with a child
    among processes each of which has a child among them, such as a
    process that is recorded as its own parent: however many iterations
    the loop is given, the queue is not empty. *)
Theorem collectDescendants_cycle (m : gmap Z (list Z)) (looping : Z -> Prop) (pid : Z) :
  (forall x, looping x -> exists y, edge m x y /\ looping y) ->
  (exists c, edge m pid c /\ looping c) ->
  forall fuel, collectDescendants fuel pid m = None.
Proof.
  intros Hloop Hc fuel. unfold collectDescendants.
  now apply (drainQueue_cycle m looping Hloop).
Qed.

Lemma parsePPIDFromStat_statLine_witness :
  parsePPIDFromStat (statLine 4242 "tmux: server) R 1 (x" "S" 77 "4242 4242 0 -1") = 77.
Proof.
  apply (parsePPIDFromStat_statLine 4242 "tmux: server) R 1 (x" "S" 77 "4242 4242 0 -1").
  - reflexivity.
  - discriminate.
  - reflexivity.
  - unfold strconv.minInt64, strconv.maxInt64. lia.
Defined.


Lemma collectDescendants_cycle_witness :
  collectDescendants 1000 5 (buildChildMap selfParentProc) = None.
Proof.
  assert (Hself : edge (buildChildMap selfParentProc) 5 5) by (vm_compute; now left).
  apply (collectDescendants_cycle (buildChildMap selfParentProc) (eq 5) 5).
  - intros x <-. exists 5. split; [exact Hself | reflexivity].
  - exists 5. split; [exact Hself | reflexivity].
Defined.

Lemma getStatus_frame_witness :
  sameButActivity "s:1" emptyStore
    (withLastActive (<[ "s:1" := 7 ]> ∅)
       (withActiveMarker
          (<[ "s:1" := classifyPaneActiveSignature spinnerAbovePrompt ]> ∅)
          (<[ "s:1" := 7 ]> ∅) emptyStore)).
Proof.
  apply (getStatus_frame (fun r => r) (fun _ => Some spinnerAbovePrompt) idleAgentProc
           10 "s:1" 100 (buildChildMap idleAgentProc) 7 ∅ emptyStore "c 🧠"
           (<[ "s:1" := {| content := spinnerAbovePrompt; ok := true |} ]> ∅)).
  vm_compute. reflexivity.
Defined.

Lemma getStatus_prompt_idle_witness :
  "c 💤" = agentPrefix "claude" +:+ "💤"
  \/ exists icon, In icon childIcons /\ "c 💤" = agentPrefix "claude" +:+ icon.
Proof.
  apply (getStatus_prompt_idle (fun r => r) (fun _ => Some doneThenPrompt) idleAgentProc
           10 "s:1" 100 (buildChildMap idleAgentProc) 0 ∅ emptyStore "c 💤"
           (<[ "s:1" := {| content := doneThenPrompt; ok := true |} ]> ∅) emptyStore).
  - vm_compute. reflexivity.
  - vm_compute. reflexivity.
  - discriminate.
Defined.

Lemma settled_emptyStore : settled emptyStore.
Proof. intros w r. simpl. rewrite lookup_empty. discriminate. Qed.

Lemma reportWindow_shows_witness :
  let c' := reportWindow reviewTopic (fun _ => Some doneThenPrompt) "s:1"
              (idleSummary false) freshCycle in
  applied (windowRecord (cycle.state c') "s:1") = "x 📬"
  /\ cycle.commands c' = [RenameWindow "s:1" "x 📬"]
  /\ settled (cycle.state c').
Proof.
  exact (reportWindow_shows reviewTopic (fun _ => Some doneThenPrompt) "s:1"
           (idleSummary false) freshCycle settled_emptyStore).
Defined.

Lemma reportWindow_unchanged_pane_witness :
  let c := reportWindow reviewTopic (fun _ => Some doneThenPrompt) "s:1"
             (idleSummary true) freshCycle in
  isUnread "s:1"
    (cycle.state
       (reportWindow reviewTopic (fun _ => Some doneThenPrompt) "s:1" (idleSummary false)
          {| cycle.seenWindows := {[ "s:1" ]}; cycle.summaries := ∅;
             cycle.paneCache := ∅; cycle.state := cycle.state c;
             cycle.commands := [] |}))
  = negb false && isUnread "s:1" (cycle.state c).
Proof.
  apply (reportWindow_unchanged_pane reviewTopic (fun _ => Some doneThenPrompt)
           (fun _ => Some doneThenPrompt) "s:1" (idleSummary true) (idleSummary false)
           freshCycle).
  - repeat split.
  - vm_compute. reflexivity.
  - reflexivity.
  - reflexivity.
Defined.

Lemma updateAllPanes_forgets_witness :
  forgotten (default ([], emptyStore) sampleCycle).2 "test:99".
Proof.
  assert (Hrun : updateAllPanes (fun r => r) reviewTopic (fun _ => Some doneThenPrompt)
                   idleAgentProc 10 (Some (text ["s:1 100 0"])) (fun _ => 0) ["s:1"]
                   (graceStore 0)
                 = Some ((default ([], emptyStore) sampleCycle).1,
                         (default ([], emptyStore) sampleCycle).2))
    by (vm_compute; reflexivity).
  apply (proj2 (updateAllPanes_forgets _ _ _ _ _ _ _ _ _ _ _ Hrun)).
  - vm_compute. discriminate.
  - vm_compute. intros [H | []]. discriminate H.
Defined.



Lemma listPanes_round_trip_witness :
  listPanes (Some (text (map paneLine
    [ {| paneInfo.window := "s:1"; paneInfo.pid := 123; paneInfo.focused := true |};
      {| paneInfo.window := "s:2"; paneInfo.pid := 234; paneInfo.focused := false |} ])))
  = [ {| paneInfo.window := "s:1"; paneInfo.pid := 123; paneInfo.focused := true |};
      {| paneInfo.window := "s:2"; paneInfo.pid := 234; paneInfo.focused := false |} ].
Proof.
  apply listPanes_round_trip.
  repeat constructor; try discriminate; vm_compute; congruence.
Defined.

Lemma isPaneActive_active_witness :
  let out := isPaneActive (fun _ => Some spinnerAbovePrompt) "test:stale-active"
               (12 * Second) ∅ spinnerTracked in
  out.1.1 = match lastActive spinnerTracked !! "test:stale-active" with
            | Some last => 12 * Second - last <? 10 * Second
            | None => false
            end.
Proof.
  assert (Hget : (getPaneContent (fun _ => Some spinnerAbovePrompt) "test:stale-active"
                    ∅).1 = (spinnerAbovePrompt, true)) by reflexivity.
  assert (Hact : classifyPaneContent spinnerAbovePrompt = true)
    by (vm_compute; reflexivity).
  apply (proj2 (isPaneActive_active (fun _ => Some spinnerAbovePrompt) "test:stale-active"
                  (12 * Second) ∅ spinnerTracked spinnerAbovePrompt Hget Hact)).
  vm_compute. reflexivity.
Defined.

(** ** The topic word *)

(** *** Encoding a rune and decoding it again *)

Lemma byte_chr (x : Z) : 0 <= x < 256 -> utf8.byte (utf8.chr x) = x.
Proof.
  intros Hx. unfold utf8.byte, utf8.chr. rewrite N_ascii_embedding; lia.
Qed.

Lemma land_high_low (y z k : Z) :
  0 <= k -> 0 <= z < 2 ^ k -> Z.land (y * 2 ^ k) z = 0.
Proof.
  intros Hk Hz. apply Z.bits_inj'. intros n Hn.
  rewrite Z.land_spec, Z.bits_0.
  destruct (Z.lt_ge_cases n k) as [Hlt|Hge].
  - now rewrite Z.mul_pow2_bits_low.
  - rewrite <- (Z.mod_small z (2 ^ k)) by lia.
    rewrite Z.mod_pow2_bits_high by lia. apply andb_false_r.
Qed.

Lemma lor_high_low (y z k : Z) :
  0 <= k -> 0 <= z < 2 ^ k -> Z.lor (y * 2 ^ k) z = y * 2 ^ k + z.
Proof.
  intros Hk Hz. pose proof (Z.add_lor_land (y * 2 ^ k) z) as H.
  rewrite (land_high_low y z k Hk Hz) in H. lia.
Qed.

Lemma lor_lead (a x k : Z) :
  0 <= k -> 0 <= x < 2 ^ k -> a mod 2 ^ k = 0 -> Z.lor a x = a + x.
Proof.
  intros Hk Hx Ha.
  replace a with (a / 2 ^ k * 2 ^ k)
    by (pose proof (Z.div_mod a (2 ^ k)); lia).
  apply lor_high_low; assumption.
Qed.

Lemma cont_byte (x : Z) :
  utf8.byte (utf8.chr (Z.lor 0x80 (Z.land x 0x3F))) = 0x80 + x mod 64.
Proof.
  change 0x3F with (Z.ones 6). rewrite Z.land_ones by lia.
  change (2 ^ 6) with 64. pose proof (Z.mod_pos_bound x 64 ltac:(lia)) as Hm.
  rewrite (lor_lead 128 (x mod 64) 6) by (try reflexivity; change (2 ^ 6) with 64; lia).
  apply byte_chr. lia.
Qed.

Lemma lead_byte (a x k : Z) :
  0 <= k -> 0 <= x < 2 ^ k -> a mod 2 ^ k = 0 -> 0 <= a -> a + 2 ^ k <= 256 ->
  utf8.byte (utf8.chr (Z.lor a x)) = a + x.
Proof.
  intros Hk Hx Ha Ha0 Hmax. rewrite (lor_lead a x k Hk Hx Ha). apply byte_chr. lia.
Qed.

Lemma land_low (b k mask : Z) :
  0 <= k -> mask = 2 ^ k - 1 -> Z.land b mask = b mod 2 ^ k.
Proof.
  intros Hk ->. replace (2 ^ k - 1) with (Z.ones k) by (rewrite Z.ones_equiv; lia).
  now apply Z.land_ones.
Qed.

Ltac decide_tests :=
  repeat match goal with
         | |- context [?a <? ?b] => destruct (Z.ltb_spec a b); try lia
         | |- context [?a <=? ?b] => destruct (Z.leb_spec a b); try lia
         | |- context [?a =? ?b] => destruct (Z.eqb_spec a b); try lia
         end.

Lemma decode_two (c0 c1 : ascii) (rest : string) :
  0xC2 <= utf8.byte c0 <= 0xDF -> 0x80 <= utf8.byte c1 <= 0xBF ->
  utf8.DecodeRuneInString (String c0 (String c1 rest))
  = (Z.lor (Z.shiftl (Z.land (utf8.byte c0) 0x1F) 6) (Z.land (utf8.byte c1) 0x3F),
     2%nat).
Proof.
  intros H0 H1. unfold utf8.DecodeRuneInString, utf8.first, utf8.within, utf8.RuneSelf.
  decide_tests; reflexivity.
Qed.

Lemma decode_three (c0 c1 c2 : ascii) (rest : string) :
  0xE0 <= utf8.byte c0 <= 0xEF -> 0x80 <= utf8.byte c1 <= 0xBF ->
  (utf8.byte c0 = 0xE0 -> 0xA0 <= utf8.byte c1) ->
  (utf8.byte c0 = 0xED -> utf8.byte c1 <= 0x9F) ->
  0x80 <= utf8.byte c2 <= 0xBF ->
  utf8.DecodeRuneInString (String c0 (String c1 (String c2 rest)))
  = (Z.lor (Z.lor (Z.shiftl (Z.land (utf8.byte c0) 0x0F) 12)
                  (Z.shiftl (Z.land (utf8.byte c1) 0x3F) 6))
           (Z.land (utf8.byte c2) 0x3F), 3%nat).
Proof.
  intros H0 H1 Hlo Hhi H2.
  unfold utf8.DecodeRuneInString, utf8.first, utf8.within, utf8.RuneSelf.
  decide_tests; reflexivity.
Qed.

Lemma decode_four (c0 c1 c2 c3 : ascii) (rest : string) :
  0xF0 <= utf8.byte c0 <= 0xF4 -> 0x80 <= utf8.byte c1 <= 0xBF ->
  (utf8.byte c0 = 0xF0 -> 0x90 <= utf8.byte c1) ->
  (utf8.byte c0 = 0xF4 -> utf8.byte c1 <= 0x8F) ->
  0x80 <= utf8.byte c2 <= 0xBF -> 0x80 <= utf8.byte c3 <= 0xBF ->
  utf8.DecodeRuneInString (String c0 (String c1 (String c2 (String c3 rest))))
  = (Z.lor (Z.lor (Z.lor (Z.shiftl (Z.land (utf8.byte c0) 0x07) 18)
                         (Z.shiftl (Z.land (utf8.byte c1) 0x3F) 12))
                  (Z.shiftl (Z.land (utf8.byte c2) 0x3F) 6))
           (Z.land (utf8.byte c3) 0x3F), 4%nat).
Proof.
  intros H0 H1 Hlo Hhi H2 H3.
  unfold utf8.DecodeRuneInString, utf8.first, utf8.within, utf8.RuneSelf.
  decide_tests; reflexivity.
Qed.

Lemma shiftr_div (x k : Z) : 0 <= k -> Z.shiftr x k = x / 2 ^ k.
Proof. apply Z.shiftr_div_pow2. Qed.

Ltac pow_lia :=
  change (2 ^ 3) with 8 in *; change (2 ^ 4) with 16 in *; change (2 ^ 5) with 32 in *;
  change (2 ^ 6) with 64 in *; change (2 ^ 12) with 4096 in *;
  change (2 ^ 18) with 262144 in *; lia.

Lemma value_two (b0 b1 : Z) :
  Z.lor (Z.shiftl (Z.land b0 0x1F) 6) (Z.land b1 0x3F)
  = b0 mod 32 * 64 + b1 mod 64.
Proof.
  rewrite (land_low b0 5 31), (land_low b1 6 63), Z.shiftl_mul_pow2
    by (reflexivity || lia).
  pose proof (Z.mod_pos_bound b1 (2 ^ 6) ltac:(lia)) as H1.
  rewrite lor_high_low by lia. pow_lia.
Qed.

Lemma value_three (b0 b1 b2 : Z) :
  Z.lor (Z.lor (Z.shiftl (Z.land b0 0x0F) 12) (Z.shiftl (Z.land b1 0x3F) 6))
        (Z.land b2 0x3F)
  = b0 mod 16 * 4096 + b1 mod 64 * 64 + b2 mod 64.
Proof.
  rewrite (land_low b0 4 15), (land_low b1 6 63), (land_low b2 6 63), !Z.shiftl_mul_pow2
    by (reflexivity || lia).
  pose proof (Z.mod_pos_bound b1 (2 ^ 6) ltac:(lia)) as H1.
  pose proof (Z.mod_pos_bound b2 (2 ^ 6) ltac:(lia)) as H2.
  rewrite (lor_high_low _ (b1 mod 2 ^ 6 * 2 ^ 6) 12) by pow_lia.
  replace (b0 mod 2 ^ 4 * 2 ^ 12 + b1 mod 2 ^ 6 * 2 ^ 6)
    with ((b0 mod 2 ^ 4 * 2 ^ 6 + b1 mod 2 ^ 6) * 2 ^ 6) by pow_lia.
  rewrite lor_high_low by lia. pow_lia.
Qed.

Lemma value_four (b0 b1 b2 b3 : Z) :
  Z.lor (Z.lor (Z.lor (Z.shiftl (Z.land b0 0x07) 18) (Z.shiftl (Z.land b1 0x3F) 12))
               (Z.shiftl (Z.land b2 0x3F) 6))
        (Z.land b3 0x3F)
  = b0 mod 8 * 262144 + b1 mod 64 * 4096 + b2 mod 64 * 64 + b3 mod 64.
Proof.
  rewrite (land_low b0 3 7), (land_low b1 6 63), (land_low b2 6 63), (land_low b3 6 63),
    !Z.shiftl_mul_pow2 by (reflexivity || lia).
  pose proof (Z.mod_pos_bound b1 (2 ^ 6) ltac:(lia)) as H1.
  pose proof (Z.mod_pos_bound b2 (2 ^ 6) ltac:(lia)) as H2.
  pose proof (Z.mod_pos_bound b3 (2 ^ 6) ltac:(lia)) as H3.
  rewrite (lor_high_low _ (b1 mod 2 ^ 6 * 2 ^ 12) 18) by pow_lia.
  replace (b0 mod 2 ^ 3 * 2 ^ 18 + b1 mod 2 ^ 6 * 2 ^ 12)
    with ((b0 mod 2 ^ 3 * 2 ^ 6 + b1 mod 2 ^ 6) * 2 ^ 12) by pow_lia.
  rewrite (lor_high_low _ (b2 mod 2 ^ 6 * 2 ^ 6) 12) by pow_lia.
  replace ((b0 mod 2 ^ 3 * 2 ^ 6 + b1 mod 2 ^ 6) * 2 ^ 12 + b2 mod 2 ^ 6 * 2 ^ 6)
    with (((b0 mod 2 ^ 3 * 2 ^ 6 + b1 mod 2 ^ 6) * 2 ^ 6 + b2 mod 2 ^ 6) * 2 ^ 6)
    by pow_lia.
  rewrite lor_high_low by lia. pow_lia.
Qed.

Lemma encode_three (r : Z) (rest : string) :
  0x800 <= r <= 0xFFFF -> r < 0xD800 \/ 0xDFFF < r ->
  utf8.DecodeRuneInString
    (String (utf8.chr (Z.lor 0xE0 (Z.shiftr r 12)))
       (String (utf8.chr (Z.lor 0x80 (Z.land (Z.shiftr r 6) 0x3F)))
          (String (utf8.chr (Z.lor 0x80 (Z.land r 0x3F))) rest)))
  = (r, 3%nat).
Proof.
  intros Hr Hs.
  assert (Hb0 : utf8.byte (utf8.chr (Z.lor 0xE0 (Z.shiftr r 12))) = 224 + r / 4096).
  { rewrite shiftr_div by lia. change (2 ^ 12) with 4096.
    apply (lead_byte 224 (r / 4096) 4); try reflexivity; try lia.
    change (2 ^ 4) with 16. Z.div_mod_to_equations. lia. }
  assert (Hb1 : utf8.byte (utf8.chr (Z.lor 0x80 (Z.land (Z.shiftr r 6) 0x3F)))
                = 128 + (r / 64) mod 64).
  { rewrite cont_byte, shiftr_div by lia. reflexivity. }
  pose proof (cont_byte r) as Hb2.
  rewrite decode_three
    by (rewrite ?Hb0, ?Hb1, ?Hb2; intros; Z.div_mod_to_equations; lia).
  rewrite value_three, Hb0, Hb1, Hb2. f_equal. Z.div_mod_to_equations. lia.
Qed.

Lemma encode_four (r : Z) (rest : string) :
  0x10000 <= r <= 0x10FFFF ->
  utf8.DecodeRuneInString
    (String (utf8.chr (Z.lor 0xF0 (Z.shiftr r 18)))
       (String (utf8.chr (Z.lor 0x80 (Z.land (Z.shiftr r 12) 0x3F)))
          (String (utf8.chr (Z.lor 0x80 (Z.land (Z.shiftr r 6) 0x3F)))
             (String (utf8.chr (Z.lor 0x80 (Z.land r 0x3F))) rest))))
  = (r, 4%nat).
Proof.
  intros Hr.
  assert (Hb0 : utf8.byte (utf8.chr (Z.lor 0xF0 (Z.shiftr r 18))) = 240 + r / 262144).
  { rewrite shiftr_div by lia. change (2 ^ 18) with 262144.
    apply (lead_byte 240 (r / 262144) 3); try reflexivity; try lia.
    change (2 ^ 3) with 8. Z.div_mod_to_equations. lia. }
  assert (Hb1 : utf8.byte (utf8.chr (Z.lor 0x80 (Z.land (Z.shiftr r 12) 0x3F)))
                = 128 + (r / 4096) mod 64).
  { rewrite cont_byte, shiftr_div by lia. reflexivity. }
  assert (Hb2 : utf8.byte (utf8.chr (Z.lor 0x80 (Z.land (Z.shiftr r 6) 0x3F)))
                = 128 + (r / 64) mod 64).
  { rewrite cont_byte, shiftr_div by lia. reflexivity. }
  pose proof (cont_byte r) as Hb3.
  rewrite decode_four
    by (rewrite ?Hb0, ?Hb1, ?Hb2, ?Hb3; intros; Z.div_mod_to_equations; lia).
  rewrite value_four, Hb0, Hb1, Hb2, Hb3. f_equal. Z.div_mod_to_equations. lia.
Qed.

(** Decoding the encoding of a rune gives the rune back, and its width. *)
Lemma DecodeRune_EncodeRune (r : Z) (rest : string) :
  utf8.DecodeRuneInString (utf8.EncodeRune r +:+ rest)
  = (encoded r, String.length (utf8.EncodeRune r)).
Proof.
  unfold utf8.EncodeRune, encoded, utf8.MaxRune, utf8.RuneError.
  destruct (Z.leb_spec 0 r) as [H0|H0]; cbn [andb].
  - destruct (Z.leb_spec r 0x7F) as [H1|H1].
    + destruct (Z.ltb_spec r 0); [lia|]. destruct (Z.ltb_spec 0x10FFFF r); [lia|].
      destruct (Z.leb_spec 0xD800 r); [lia|]. cbn [orb andb].
      rewrite app_cons, app_nil_l_str. unfold utf8.DecodeRuneInString, utf8.RuneSelf.
      rewrite byte_chr by lia. destruct (Z.ltb_spec r 128); [reflexivity | lia].
    + destruct (Z.leb_spec r 0x7FF) as [H2|H2].
      * destruct (Z.ltb_spec r 0); [lia|]. destruct (Z.ltb_spec 0x10FFFF r); [lia|].
        destruct (Z.leb_spec 0xD800 r); [lia|]. cbn [orb andb].
        rewrite !app_cons, app_nil_l_str.
        assert (Hb0 : utf8.byte (utf8.chr (Z.lor 192 (Z.shiftr r 6))) = 192 + r / 64).
        { rewrite shiftr_div by lia. change (2 ^ 6) with 64.
          apply (lead_byte 192 (r / 64) 5); try reflexivity; try lia.
          change (2 ^ 5) with 32. Z.div_mod_to_equations. lia. }
        pose proof (cont_byte r) as Hb1.
        rewrite decode_two by (rewrite ?Hb0, ?Hb1; Z.div_mod_to_equations; lia).
        rewrite value_two, Hb0, Hb1. f_equal. Z.div_mod_to_equations. lia.
      * destruct (Z.ltb_spec r 0); [lia|]. cbn [orb].
        destruct (Z.ltb_spec 0x10FFFF r) as [Hbig|Hmax]; cbn [orb]; [reflexivity|].
        destruct (Z.leb_spec 0xD800 r) as [Hs|Hs]; cbn [andb];
          [destruct (Z.leb_spec r 0xDFFF) as [Hs'|Hs']; [reflexivity|]|].
        -- destruct (Z.leb_spec r 0xFFFF) as [H3|H3]; cbv zeta; rewrite !app_cons,
             app_nil_l_str.
           ++ apply encode_three; lia.
           ++ apply encode_four; lia.
        -- destruct (Z.leb_spec r 0xFFFF) as [H3|H3]; [|lia]. cbv zeta.
           rewrite !app_cons, app_nil_l_str. apply encode_three; lia.
  - destruct (Z.ltb_spec r 0); [|lia]. cbn [orb]. reflexivity.
Qed.

Lemma runesFrom_skip (u rest : string) :
  runesFrom (String.length u) (u +:+ rest) = runesFrom 0 rest.
Proof.
  induction u as [|c u IH]; [now rewrite app_nil_l_str|].
  rewrite app_cons. exact IH.
Qed.

Lemma EncodeRune_nonempty (r : Z) : exists c u, utf8.EncodeRune r = String c u.
Proof.
  unfold utf8.EncodeRune.
  repeat match goal with |- context [if ?b then _ else _] => destruct b end; eauto.
Qed.

Lemma runes_encode (r : Z) (rest : string) :
  runes (utf8.EncodeRune r +:+ rest) = encoded r :: runes rest.
Proof.
  pose proof (DecodeRune_EncodeRune r rest) as Hd.
  destruct (EncodeRune_nonempty r) as (c & u & He). rewrite He in Hd |- *.
  unfold runes. rewrite app_cons in Hd |- *. cbn [runesFrom]. rewrite Hd.
  cbn [String.length]. rewrite Nat.sub_succ, Nat.sub_0_r. f_equal.
  apply runesFrom_skip.
Qed.

(** [[]rune(string(rs))] has as many runes as [rs]. *)
Lemma runes_fromRunes (rs : list Z) : runes (fromRunes rs) = map encoded rs.
Proof.
  induction rs as [|r rs IH]; [reflexivity|].
  cbn [fromRunes map]. now rewrite runes_encode, IH.
Qed.

Lemma trimTopic_short (token : string) :
  (length (runes (trimTopic token)) <= Z.to_nat topicMaxRunes)%nat.
Proof.
  unfold trimTopic. destruct (String.eqb (Trim token topicCutset) ""); [simpl; lia|].
  destruct (Z.ltb_spec topicMaxRunes (Z.of_nat (length (runes (Trim token topicCutset)))))
    as [Hlong|Hshort].
  - rewrite runes_fromRunes, length_map, length_take. lia.
  - lia.
Qed.

Lemma firstVisit_cases {A : Type} (visit : string -> option A) (dflt : A)
    (lines : list string) :
  firstVisit visit dflt lines = dflt
  \/ exists line, In line lines /\ visit line = Some (firstVisit visit dflt lines).
Proof.
  induction lines as [|l lines IH]; [now left|]. cbn [firstVisit].
  destruct (visit l) as [r|] eqn:Hl.
  - right. exists l. split; [now left | exact Hl].
  - destruct IH as [-> | (line & Hin & Hv)]; [now left|].
    right. exists line. split; [now right | exact Hv].
Qed.

Lemma lookupKey_In (m : list (string * string)) (key v : string) :
  lookupKey m key = Some v -> In v (map snd m).
Proof.
  induction m as [|[k x] m IH]; [discriminate|]. cbn [lookupKey map snd].
  destruct (String.eqb key k); [intros [= ->]; now left | right; auto].
Qed.

Section TopicWord.

Variable caseTable : Z -> Z.
Variable letterTable : Z -> bool.
Variable digitTable : Z -> bool.

Local Abbreviation normalizeN := (normalizeTopicToken caseTable digitTable).
Local Abbreviation topicWordN := (topicWord digitTable).

Lemma topicWord_empty : topicWordN "".
Proof. split; [unfold topicMaxRunes; simpl; lia | reflexivity]. Qed.

Lemma alias_words :
  forallb (fun alias => negb (isNumericWord digitTable (trimTopic alias)))
    (map snd topicAlias) = true.
Proof. vm_compute. reflexivity. Qed.

Lemma normalizeTopicToken_word (raw : string) : topicWordN (normalizeN raw).
Proof.
  unfold normalizeTopicToken.
  destruct (String.eqb (ToLower caseTable raw) "" || _); [apply topicWord_empty|].
  destruct (hasKey topicStopWords _); [apply topicWord_empty|].
  destruct (lookupKey topicAlias _) as [alias|] eqn:Ha.
  - split.
    + pose proof (trimTopic_short alias). unfold topicMaxRunes in *. lia.
    + apply lookupKey_In in Ha. pose proof alias_words as Hw.
      rewrite forallb_forall in Hw. apply Hw in Ha. now apply negb_true_iff in Ha.
  - destruct (String.eqb (trimTopic _) "") eqn:He; [apply topicWord_empty|].
    destruct (isNumericWord digitTable (trimTopic _)) eqn:Hn; [apply topicWord_empty|].
    cbn [orb]. split; [|exact Hn].
    pose proof (trimTopic_short (ToLower caseTable raw)). unfold topicMaxRunes in *. lia.
Qed.

Lemma slashCommand_word (fields : list string) (cmd : string) :
  slashCommand caseTable letterTable digitTable fields = Some cmd -> topicWordN cmd.
Proof.
  induction fields as [|field fields IH]; [discriminate|]. cbn [slashCommand].
  cbv zeta.
  set (found := if HasPrefix field "/" && (1 <? len field) then _ else "").
  assert (Hfound : topicWordN found).
  { unfold found. destruct (HasPrefix field "/" && (1 <? len field));
      [|apply topicWord_empty].
    destruct (tokenizeTopicWords _ _ _); [apply topicWord_empty|].
    apply normalizeTopicToken_word. }
  clearbody found.
  destruct (negb (String.eqb found "")); [intros [= <-]; exact Hfound | exact IH].
Qed.

Lemma bestToken_word (total : Z) (tokens : list string) :
  forall (i : Z) (best : string) (bestScore : Z),
    topicWordN best ->
    topicWordN (bestToken caseTable digitTable total i tokens best bestScore).
Proof.
  induction tokens as [|raw tokens IH]; intros i best bestScore Hbest; [exact Hbest|].
  cbn [bestToken]. cbv zeta.
  destruct (String.eqb (normalizeN raw) ""); [now apply IH|].
  destruct (bestScore <? _); apply IH; [apply normalizeTopicToken_word | exact Hbest].
Qed.

Lemma extractTopicWord_word (text : string) :
  topicWordN (extractTopicWord caseTable letterTable digitTable text).
Proof.
  unfold extractTopicWord.
  destruct (slashCommand _ _ _ _) as [cmd|] eqn:Hs; [exact (slashCommand_word _ _ Hs)|].
  apply bestToken_word, topicWord_empty.
Qed.

Lemma classifyPaneTopic_topicWord (content : string) :
  topicWordN (classifyPaneTopic caseTable letterTable digitTable content).
Proof.
  unfold classifyPaneTopic. rewrite scanUp_scannedLines.
  match goal with
  | |- topicWordN (firstVisit ?visit "" ?lines) =>
    destruct (firstVisit_cases visit "" lines) as [-> | (line & _ & Hv)];
      [apply topicWord_empty|];
      revert Hv; generalize (firstVisit visit "" lines); intros topic Hv
  end.
  assert (Hfound : forall text,
            (if negb (String.eqb (extractTopicWord caseTable letterTable digitTable text) "")
             then Some (extractTopicWord caseTable letterTable digitTable text)
             else None) = Some topic -> topicWordN topic).
  { intros text.
    destruct (negb (String.eqb (extractTopicWord caseTable letterTable digitTable text) ""));
      [|discriminate].
    intros [= <-]. apply extractTopicWord_word. }
  cbv beta zeta in Hv.
  destruct (HasPrefix line "› " || String.eqb line "›"); [exact (Hfound _ Hv)|].
  destruct (HasPrefix line "❯ " || String.eqb line "❯"); [exact (Hfound _ Hv)|].
  destruct (hasActiveMarker line); [exact (Hfound _ Hv) | discriminate].
Qed.

(** X22. The topic word that [classifyPaneTopic] extracts has at most eight
    runes and is not a number, whatever the pane shows and whatever the
    Unicode tables say: a long word is cut at a rune boundary, an alias
    is short, and a word of digits is dropped. *)
Theorem classifyPaneTopic_word (content : string) :
  topicWordN (classifyPaneTopic caseTable letterTable digitTable content).
Proof. apply classifyPaneTopic_topicWord. Qed.

End TopicWord.

(** ** The daemon: what holds between any two cycles *)

Lemma trackedTogether_insert (window : string) (sig : string) (at_ : Z) (st : store) :
  trackedTogether st ->
  trackedTogether
    (withActiveMarker (<[window := sig]> (windowActiveSig st))
       (<[window := at_]> (windowActiveAt st)) st).
Proof.
  intros Ht w. cbn [withActiveMarker windowActiveSig windowActiveAt].
  rewrite !lookup_insert. destruct (decide (window = w)); [|apply Ht].
  split; eauto.
Qed.

Lemma isStaleActiveMarker_tracked (window text : string) (now : Z) (st : store) :
  trackedTogether st -> trackedTogether (isStaleActiveMarker window text now st).2.
Proof.
  intros Ht. unfold isStaleActiveMarker.
  destruct (String.eqb (classifyPaneActiveSignature text) ""); [exact Ht|].
  destruct (String.eqb (detectPromptSignature text) "");
    [now apply trackedTogether_insert|].
  destruct (windowActiveSig st !! window) as [prevSig|] eqn:Hsig;
    [|now apply trackedTogether_insert].
  destruct (negb (String.eqb prevSig _)); [now apply trackedTogether_insert|].
  destruct (windowActiveAt st !! window) as [startedAt|] eqn:Hat; [exact Ht|].
  exfalso. destruct (proj1 (Ht window)) as [x Hx]; [eauto | congruence].
Qed.

Lemma clearActiveMarker_tracked (window : string) (st : store) :
  trackedTogether st -> trackedTogether (clearActiveMarker window st).
Proof.
  intros Ht w. unfold clearActiveMarker.
  cbn [withActiveMarker windowActiveSig windowActiveAt].
  destruct (decide (window = w)) as [->|Hne].
  - rewrite !lookup_delete_eq. split; intros [x Hx]; discriminate.
  - rewrite !lookup_delete_ne by exact Hne. apply Ht.
Qed.

Lemma isPaneActive_tracked (capture : string -> option string) (window : string)
    (now : Z) (cache : gmap string paneCapture) (st : store) :
  trackedTogether st -> trackedTogether (isPaneActive capture window now cache st).2.
Proof.
  intros Ht. unfold isPaneActive, paneActiveNow.
  destruct (getPaneContent capture window cache) as [[text good] cache'].
  assert (Hlast : forall st1 (active : bool),
            trackedTogether st1 ->
            trackedTogether
              (if active then
                 (true, cache', withLastActive (<[window := now]> (lastActive st1)) st1)
               else
                 match lastActive st1 !! window with
                 | Some last =>
                   if Sub now last <? activeGrace then (true, cache', st1)
                   else (false, cache', withLastActive (delete window (lastActive st1)) st1)
                 | None => (false, cache', st1)
                 end).2).
  { intros st1 active H1.
    destruct active; [exact H1|]. destruct (lastActive st1 !! window); [|exact H1].
    destruct (Sub now _ <? activeGrace); exact H1. }
  destruct good; [destruct (classifyPaneContent text)|].
  - pose proof (isStaleActiveMarker_tracked window text now st Ht) as Hs.
    destruct (isStaleActiveMarker window text now st) as [stale st'].
    apply (Hlast st' (negb stale) Hs).
  - apply (Hlast _ false), clearActiveMarker_tracked, Ht.
  - apply (Hlast _ false), clearActiveMarker_tracked, Ht.
Qed.

Lemma getStatus_tracked (caseTable : Z -> Z) (capture : string -> option string)
    (fs : procfs) (fuel : nat) (window : string) (panePID : Z)
    (childMap : gmap Z (list Z)) (now : Z) (cache : gmap string paneCapture)
    (st : store) (status : string) (cache' : gmap string paneCapture) (st' : store) :
  getStatus caseTable capture fs fuel window panePID childMap now cache st
  = Some (status, cache', st') ->
  trackedTogether st -> trackedTogether st'.
Proof.
  intros Hg Ht. unfold getStatus in Hg.
  destruct (findAgent caseTable fs panePID childMap) as [agentPID agentName].
  destruct (agentPID =? 0); [now injection Hg as _ _ <-|].
  destruct (collectDescendants fuel agentPID childMap) as [descendants|]; [|discriminate].
  destruct (omap (childSignal caseTable fs) descendants) as [|signal signals].
  - destruct (paneNeedsAttention capture window cache) as [attention cache1].
    destruct attention; [now injection Hg as _ _ <-|].
    pose proof (isPaneActive_tracked capture window now cache1 st Ht) as Hp.
    destruct (isPaneActive capture window now cache1 st) as [[active cache2] st2].
    now injection Hg as _ _ <-.
  - destruct (String.eqb (classifyChildren caseTable (signal :: signals)) "⚙️");
      [|now injection Hg as _ _ <-].
    pose proof (isPaneActive_tracked capture window now cache st Ht) as Hp.
    destruct (isPaneActive capture window now cache st) as [[active cache1] st1].
    destruct (paneNeedsAttention capture window cache1) as [attention cache2].
    now injection Hg as _ _ <-.
Qed.

(** *** A cycle is a run of events *)

Section Reachable.

Variable caseTable : Z -> Z.
Variable classifyPaneTopic : string -> string.

Local Abbreviation runN := (run stabilityThreshold classifyPaneTopic).

Lemma run_app (events1 events2 : list event) (st : store) :
  runN (events1 ++ events2) st = runN events2 (runN events1 st).
Proof. unfold run. apply fold_left_app. Qed.

Lemma reportWindow_events (capture : string -> option string) (window : string)
    (s : windowSummary.t) (c : cycle.t) :
  exists events,
    cycle.state (reportWindow classifyPaneTopic capture window s c)
    = runN events (cycle.state c).
Proof.
  unfold reportWindow.
  set (rawStatus := windowSummary.status s).
  set (focused := windowSummary.focused s).
  set (working := isWorkingStatus rawStatus).
  set (st := cycle.state c).
  destruct (if negb working && negb (String.eqb rawStatus "")
            then paneSignals capture window (cycle.paneCache c)
            else ("", "", cycle.paneCache c)) as [[promptSig doneSig] cache1].
  set (mark := shouldMarkUnread _ focused working rawStatus _ promptSig _ doneSig _).
  set (st4 := recordCycle window working promptSig doneSig _).
  assert (H4 : st4 = runN ((if mark then [MarkUnread window] else [])
                           ++ (if focused then [ClearUnread window] else [])
                           ++ (if working then [ClearUnread window] else [])
                           ++ [RecordCycle window working promptSig doneSig]) st).
  { unfold st4. rewrite !run_app. now destruct mark, focused, working. }
  clearbody st4.
  set (effective := if negb working && negb (String.eqb rawStatus "")
                       && isUnread window st4
                    then _ else rawStatus).
  clearbody effective.
  destruct (negb (String.eqb effective "")).
  - destruct (rememberWindowTopic classifyPaneTopic capture window cache1 st4)
      as [[topic cache2] st5] eqn:Hr.
    destruct (setWindowStatus window (formatStatusWithTopic effective topic) st5)
      as [cmd st6] eqn:Hs.
    eexists (_ ++ [RememberWindowTopic capture window cache1;
                   SetWindowStatus window (formatStatusWithTopic effective topic)]).
    rewrite run_app, <- H4. cbn [cycle.state run fold_left step].
    rewrite Hr. cbn [snd]. fold (setWindowStatus window
                                   (formatStatusWithTopic effective topic) st5).
    now rewrite Hs.
  - destruct (setWindowStatus window effective st4) as [cmd st6] eqn:Hs.
    eexists (_ ++ [SetWindowStatus window effective]).
    rewrite run_app, <- H4. cbn [cycle.state run fold_left step].
    fold (setWindowStatus window effective st4). now rewrite Hs.
Qed.

Lemma reportWindows_events (capture : string -> option string) (order : list string)
    (c : cycle.t) :
  exists events,
    cycle.state (reportWindows classifyPaneTopic capture order c)
    = runN events (cycle.state c).
Proof.
  induction order as [|w order IH] using rev_ind; [now exists []|].
  rewrite reportWindows_snoc. destruct IH as [events IH].
  destruct (cycle.summaries _ !! w) as [s|]; [|now exists events].
  destruct (reportWindow_events capture w s
              (reportWindows classifyPaneTopic capture order c)) as [events' H].
  exists (events ++ events'). now rewrite run_app, <- IH.
Qed.

Lemma getStatus_events (capture : string -> option string) (fs : procfs) (fuel : nat)
    (window : string) (panePID : Z) (childMap : gmap Z (list Z)) (now : Z)
    (cache : gmap string paneCapture) (st : store) (status : string)
    (cache' : gmap string paneCapture) (st' : store) :
  getStatus caseTable capture fs fuel window panePID childMap now cache st
  = Some (status, cache', st') ->
  exists events, st' = runN events st.
Proof.
  intros Hg. unfold getStatus in Hg.
  destruct (findAgent caseTable fs panePID childMap) as [agentPID agentName].
  destruct (agentPID =? 0); [injection Hg as _ _ <-; now exists []|].
  destruct (collectDescendants fuel agentPID childMap) as [descendants|]; [|discriminate].
  destruct (omap (childSignal caseTable fs) descendants) as [|signal signals].
  - destruct (paneNeedsAttention capture window cache) as [attention cache1].
    destruct attention; [injection Hg as _ _ <-; now exists []|].
    exists [IsPaneActive capture window now cache1]. cbn [run fold_left step].
    destruct (isPaneActive capture window now cache1 st) as [[active cache2] st2].
    now injection Hg as _ _ <-.
  - destruct (String.eqb (classifyChildren caseTable (signal :: signals)) "⚙️");
      [|injection Hg as _ _ <-; now exists []].
    exists [IsPaneActive capture window now cache]. cbn [run fold_left step].
    destruct (isPaneActive capture window now cache st) as [[active cache1] st1].
    destruct (paneNeedsAttention capture window cache1) as [attention cache2].
    now injection Hg as _ _ <-.
Qed.

Lemma visitPanes_events (capture : string -> option string) (fs : procfs) (fuel : nat)
    (childMap : gmap Z (list Z)) (clock : nat -> Z) (panes : list paneInfo.t) :
  forall (k : nat) (c c' : cycle.t),
    visitPanes caseTable capture fs fuel childMap clock k panes c = Some c' ->
    exists events, cycle.state c' = runN events (cycle.state c).
Proof.
  induction panes as [|p panes IH]; intros k c c' Hv.
  - injection Hv as <-. now exists [].
  - cbn [visitPanes] in Hv.
    destruct (getStatus caseTable capture fs fuel (paneInfo.window p) (paneInfo.pid p)
                childMap (clock k) (cycle.paneCache c) (cycle.state c))
      as [[[rawStatus cache1] st1]|] eqn:Hg; [|discriminate].
    destruct (getStatus_events _ _ _ _ _ _ _ _ _ _ _ _ Hg) as [events He].
    destruct (IH _ _ _ Hv) as [events' He']. cbn [cycle.state] in He'.
    exists (events ++ events'). now rewrite run_app, <- He.
Qed.

Lemma updateAllPanes_events (capture : string -> option string) (fs : procfs)
    (fuel : nat) (listPanesOutput : option string) (clock : nat -> Z)
    (order : list string) (st : store) (issued : list command) (st' : store) :
  updateAllPanes caseTable classifyPaneTopic capture fs fuel listPanesOutput clock
    order st = Some (issued, st') ->
  exists events, st' = runN events st.
Proof.
  unfold updateAllPanes. destruct (listPanes listPanesOutput) as [|p panes].
  - intros [= _ <-]. now exists [].
  - destruct (visitPanes _ _ _ _ _ _ _ _ _) as [c|] eqn:Hv; [|discriminate].
    intros [= _ <-].
    destruct (visitPanes_events _ _ _ _ _ _ _ _ _ Hv) as [events He].
    cbn [cycle.state] in He.
    destruct (reportWindows_events capture order c) as [events' He'].
    exists (events ++ events'
            ++ [CleanUp (cycle.seenWindows (reportWindows classifyPaneTopic capture
                                              order c))]).
    rewrite !run_app, <- He, <- He'. reflexivity.
Qed.

Lemma cycles_events (fuel : nat) (worlds : list world.t) :
  forall (st : store) (issued : list command) (st' : store),
    cycles caseTable classifyPaneTopic fuel worlds st = Some (issued, st') ->
    exists events, st' = runN events st.
Proof.
  induction worlds as [|w worlds IH]; intros st issued st' Hc.
  - injection Hc as _ <-. now exists [].
  - cbn [cycles] in Hc.
    destruct (updateAllPanes _ _ _ _ _ _ _ _ _) as [[issued1 st1]|] eqn:Hu;
      [|discriminate].
    destruct (cycles _ _ _ _ st1) as [[later st2]|] eqn:Hrest; [|discriminate].
    injection Hc as _ <-.
    destruct (updateAllPanes_events _ _ _ _ _ _ _ _ _ Hu) as [events He].
    destruct (IH _ _ _ Hrest) as [events' He'].
    exists (events ++ events'). now rewrite run_app, <- He.
Qed.

(** X23. Every state the daemon reaches is reached by a run of the events
    from the empty maps: what holds along all such runs holds at every
    moment of the program. *)
Theorem main_reachable (fuel : nat) (worlds : list world.t) (issued : list command)
    (st : store) :
  main caseTable classifyPaneTopic fuel worlds = Some (issued, st) ->
  exists events, st = runN events emptyStore.
Proof. apply cycles_events. Qed.

End Reachable.

Section Kept.

Variable caseTable : Z -> Z.
Variable classifyPaneTopic : string -> string.

Local Abbreviation stepN := (step stabilityThreshold classifyPaneTopic).
Local Abbreviation runN := (run stabilityThreshold classifyPaneTopic).

Lemma step_activity (st : store) (ev : event) :
  (forall capture window now cache, ev <> IsPaneActive capture window now cache) ->
  (forall seen, ev <> CleanUp seen) ->
  windowActiveSig (stepN st ev) = windowActiveSig st
  /\ windowActiveAt (stepN st ev) = windowActiveAt st.
Proof.
  intros Hp Hc. destruct ev as [c w n k|w|w|w i p d|c w k|w s|seen]; cbn [step].
  - now destruct (Hp c w n k).
  - split; reflexivity.
  - unfold clearUnread. destruct (statusState st !! w); split; reflexivity.
  - split; reflexivity.
  - unfold rememberWindowTopic.
    destruct (getPaneContent c w k) as [[text good] cache'].
    destruct good; cbn [negb snd]; [|split; reflexivity].
    destruct (negb (String.eqb (classifyPaneTopic text) "")); split; reflexivity.
  - unfold setWindowStatusAt.
    repeat (match goal with |- context [if ?b then _ else _] => destruct b end);
      split; reflexivity.
  - now destruct (Hc seen).
Qed.

Lemma step_tracked (st : store) (ev : event) :
  trackedTogether st -> trackedTogether (stepN st ev).
Proof.
  intros Ht.
  destruct ev as [c w n k| | | | | |seen];
    try (intros x;
         match goal with
         | |- context [stepN st ?ev] =>
           destruct (step_activity st ev) as [-> ->];
             [discriminate | discriminate | apply Ht]
         end).
  - apply isPaneActive_tracked, Ht.
  - intros x. cbn [step cleanUp windowActiveSig windowActiveAt].
    rewrite !lookup_prune. destruct (decide (x ∈ seen)); [apply Ht|].
    split; intros [y Hy]; discriminate.
Qed.

Lemma step_seen (st : store) (ev : event) :
  (forall w seen, windowSeen st !! w = Some seen -> seen = true) ->
  forall w seen, windowSeen (stepN st ev) !! w = Some seen -> seen = true.
Proof.
  intros Hs x seen. destruct ev as [c w n k|w|w|w i p d|c w k|w s|seenWindows]; cbn [step].
  - destruct (isPaneActive_frame c w n k st) as (_ & _ & -> & _). apply Hs.
  - apply Hs.
  - unfold clearUnread. destruct (statusState st !! w); apply Hs.
  - cbn [recordCycle withCycleRecord windowSeen]. rewrite lookup_insert.
    destruct (decide (w = x)); [congruence | apply Hs].
  - destruct (rememberWindowTopic_frame classifyPaneTopic c w k st)
      as (_ & _ & _ & -> & _). apply Hs.
  - destruct (setWindowStatusAt_frame stabilityThreshold w s st) as (_ & _ & -> & _).
    apply Hs.
  - cbn [cleanUp windowSeen]. rewrite lookup_prune.
    destruct (decide (x ∈ seenWindows)); [apply Hs | discriminate].
Qed.

Lemma wellKept_run (events : list event) : wellKept (runN events emptyStore).
Proof.
  split; [|split; [|split]].
  - intros w r Hr.
    assert (H1 : 1 <= stabilityThreshold <= strconv.maxInt64)
      by (unfold stabilityThreshold, strconv.maxInt64; lia).
    destruct (hysteresisInv_run stabilityThreshold classifyPaneTopic H1 events w)
      as [Hc _].
    unfold windowRecord in Hc. rewrite Hr in Hc. unfold stabilityThreshold in Hc.
    simpl in Hc. lia.
  - induction events as [|ev events IH] using rev_ind.
    + intros w. simpl. rewrite !lookup_empty. split; intros [x Hx]; discriminate.
    + unfold run. rewrite fold_left_app. apply step_tracked, IH.
  - induction events as [|ev events IH] using rev_ind.
    + intros w seen. simpl. rewrite lookup_empty. discriminate.
    + unfold run. rewrite fold_left_app. apply step_seen, IH.
  - apply topicsNonEmpty_run. intros w topic. simpl. rewrite lookup_empty. discriminate.
Qed.

(** X24. Between any two cycles of the daemon: no candidate status is being
    counted, the active signature of a window and the time it was first
    seen are stored together (the branch of [isStaleActiveMarker] for a
    signature without a time never runs), the windows seen are flagged
    [true], and no stored topic is empty. *)
Theorem main_wellKept (fuel : nat) (worlds : list world.t) (issued : list command)
    (st : store) :
  main caseTable classifyPaneTopic fuel worlds = Some (issued, st) -> wellKept st.
Proof.
  intros Hm. destruct (cycles_events caseTable classifyPaneTopic _ _ _ _ _ Hm)
    as [events ->].
  apply wellKept_run.
Qed.

End Kept.

(** *** The topics the daemon stores *)

Section Topics.

Variable caseTable : Z -> Z.
Variable letterTable digitTable : Z -> bool.

Local Abbreviation topicN := (classifyPaneTopic caseTable letterTable digitTable).

Lemma storedTopics_step (st : store) (ev : event) :
  (forall w topic, windowTopic st !! w = Some topic -> topicWord digitTable topic) ->
  forall w topic,
    windowTopic (step stabilityThreshold topicN st ev) !! w = Some topic ->
    topicWord digitTable topic.
Proof.
  intros Hinv x topic.
  destruct ev as [c w n k|w|w|w i p d|c w k|w s|seen]; cbn [step].
  - rewrite windowTopic_isPaneActive. apply Hinv.
  - apply Hinv.
  - unfold clearUnread. destruct (statusState st !! w); apply Hinv.
  - apply Hinv.
  - unfold rememberWindowTopic.
    destruct (getPaneContent c w k) as [[text good] cache'].
    destruct good; cbn [negb snd]; [|apply Hinv].
    destruct (negb (String.eqb (topicN text) "")); [|apply Hinv].
    cbn [withWindowTopic windowTopic]. rewrite lookup_insert.
    destruct (decide (w = x)); [|apply Hinv].
    intros [= <-]. apply classifyPaneTopic_topicWord.
  - rewrite windowTopic_setWindowStatusAt. apply Hinv.
  - cbn [cleanUp windowTopic]. rewrite lookup_prune.
    destruct (decide (x ∈ seen)); [apply Hinv | discriminate].
Qed.

(** X25. Every topic the daemon has stored for a window, at any time, is a
    word of at most eight runes that is not a number: the text appended
    to a window's tab stays short. *)
Theorem main_topics_short (fuel : nat) (worlds : list world.t) (issued : list command)
    (st : store) (window topic : string) :
  main caseTable topicN fuel worlds = Some (issued, st) ->
  windowTopic st !! window = Some topic ->
  topicWord digitTable topic.
Proof.
  intros Hm. destruct (cycles_events caseTable topicN _ _ _ _ _ Hm) as [events ->].
  clear Hm. revert window topic.
  induction events as [|ev events IH] using rev_ind.
  - intros w topic. simpl. rewrite lookup_empty. discriminate.
  - intros w topic. unfold run. rewrite fold_left_app. cbn [fold_left].
    apply storedTopics_step. exact IH.
Qed.

End Topics.

(** ** Which descendants count as signals *)

(** X26. Whether a descendant counts as a signal is decided by its command
    line when that can be read: the process is skipped iff the command
    line mentions an agent, and otherwise its command line is the signal.
    The command name decides only for a process without a command line,
    which is skipped when the name is empty, is [node] or mentions an
    agent.  A signal is never empty: the second test of the loop never
    fires. *)
Theorem childSignal_spec (caseTable : Z -> Z) (fs : procfs) (d : Z) :
  let comm := ToLower caseTable (readComm fs d) in
  let cmdline := ToLower caseTable (readCmdline fs d) in
  childSignal caseTable fs d
  = (if String.eqb cmdline "" then
       if String.eqb comm "" || mentionsAgent comm || String.eqb comm "node" then None
       else Some comm
     else if mentionsAgent cmdline then None else Some cmdline)
  /\ childSignal caseTable fs d <> Some "".
Proof.
  cbv zeta. unfold childSignal, isAgentLikeProcess, mentionsAgent.
  set (comm := ToLower caseTable (readComm fs d)).
  set (cmdline := ToLower caseTable (readCmdline fs d)).
  destruct (String.eqb cmdline "") eqn:Hc.
  - apply String.eqb_eq in Hc. rewrite Hc.
    change (Contains "" "codex") with false.
    change (Contains "" "claude") with false.
    destruct (String.eqb comm "") eqn:Hm, (Contains comm "codex"),
      (Contains comm "claude"), (String.eqb comm "node");
      cbn [andb orb]; rewrite ?Hm; cbn [andb orb];
      (split; [reflexivity | try discriminate]);
      intros [= He]; rewrite He in Hm; discriminate Hm.
  - rewrite !andb_false_r. cbn [orb].
    destruct (Contains cmdline "codex"), (Contains cmdline "claude"),
      (Contains comm "codex"), (Contains comm "claude"), (String.eqb comm "node");
      cbn [andb orb]; rewrite ?Hc;
      (split; [reflexivity | try discriminate]);
      intros [= He]; rewrite He in Hc; discriminate Hc.
Qed.

Lemma main_reachable_witness :
  exists events,
    (default ([], emptyStore) sampleDaemon).2
    = run stabilityThreshold reviewTopic events emptyStore.
Proof.
  assert (Hrun : main (fun r => r) reviewTopic 10 sampleWorlds
                 = Some ((default ([], emptyStore) sampleDaemon).1,
                         (default ([], emptyStore) sampleDaemon).2))
    by (vm_compute; reflexivity).
  exact (main_reachable (fun r => r) reviewTopic 10 sampleWorlds _ _ Hrun).
Defined.

Lemma main_wellKept_witness : wellKept (default ([], emptyStore) sampleDaemon).2.
Proof.
  assert (Hrun : main (fun r => r) reviewTopic 10 sampleWorlds
                 = Some ((default ([], emptyStore) sampleDaemon).1,
                         (default ([], emptyStore) sampleDaemon).2))
    by (vm_compute; reflexivity).
  exact (main_wellKept (fun r => r) reviewTopic 10 sampleWorlds _ _ Hrun).
Defined.

Lemma main_topics_short_witness :
  windowTopic (default ([], emptyStore) sampleTopicDaemon).2 !! "s:1" = Some "find"
  /\ topicWord (fun _ => false) "find".
Proof.
  assert (Hrun : main (fun r => r)
                   (classifyPaneTopic (fun r => r) (fun _ => false) (fun _ => false))
                   10 sampleWorlds
                 = Some ((default ([], emptyStore) sampleTopicDaemon).1,
                         (default ([], emptyStore) sampleTopicDaemon).2))
    by (vm_compute; reflexivity).
  assert (Hw : windowTopic (default ([], emptyStore) sampleTopicDaemon).2 !! "s:1"
               = Some "find") by (vm_compute; reflexivity).
  split; [exact Hw|].
  exact (main_topics_short (fun r => r) (fun _ => false) (fun _ => false) 10
           sampleWorlds (default ([], emptyStore) sampleTopicDaemon).1
           (default ([], emptyStore) sampleTopicDaemon).2 "s:1" "find" Hrun Hw).
Defined.

(** * The repository's tests, replayed on the embedding *)

(** White space and case beyond ASCII: the no-break space, the em space and
    the ideographic space are trimmed and separate fields; an invalid byte
    is replaced by the encoding of [RuneError] when a string is lower-cased
    through [Map]. *)
Example GoStrings_beyond_ASCII :
  TrimSpace ("  › Run　" +:+ nl) = "› Run"
  /\ Fields ("S 100 123 ") = ["S"; "100"; "123"]
  /\ ToLower (fun r => r) "Make › GCC" = "make › gcc"
  /\ ToLower (fun r => r) ("GCC" +:+ String "255" "X") = "gcc�x"
  /\ ToLower (fun r => if r =? 0x212A then 0x6B else r) "maKe …" = "make …".
Proof. vm_compute. repeat split. Qed.

Example TestParsePPIDFromStat :
  map parsePPIDFromStat
    ["123 (bash) S 100 123 123 0 -1 ..."; "456 (Web Content) S 200 456 456 0 -1 ...";
     "789 (foo (bar)) S 300 789 789 0 -1 ..."; ""; "1 (init) S"]
  = [100; 200; 300; 0; 0].
Proof. vm_compute. reflexivity. Qed.

Example TestClassifyChildren (caseTable : Z -> Z) :
  map (classifyChildren caseTable)
    [["gcc"]; ["make"; "cc1"]; ["rustc"]; ["jest"]; ["pytest"]; ["npm"]; ["pip"];
     ["git"]; ["curl"]; ["wget"]; ["python3"]; ["sh"]; ["rustc"; "cargo"];
     ["git"; "curl"]; ["GCC"]; ["node coordinator/cli.ts build --wait"]]
  = ["🔨"; "🔨"; "🔨"; "🧪"; "🧪"; "📦"; "📦"; "🔀"; "🌐"; "🌐"; "⚙️"; "⚙️"; "🔨";
     "🔀"; "🔨"; "🔨"].
Proof. vm_compute. reflexivity. Qed.

Example TestClassifyPaneContent_Active :
  forallb classifyPaneContent
    [text ["some output"; "  (esc to interrupt)"; "❯ "];
     text ["· Thinking… (5s · esc to interrupt)"; "❯ "];
     text ["• Planning try removal patch (5m 42s • esc to interrupt)"; "› "];
     text ["✢ Transfiguring… (thought for 6s)"; "❯ "];
     text ["· Brewing… (2s)"; "❯ "];
     text ["· Leavening… (54s · ↑ 1.0k tokens · thought for 28s)"; "❯ "];
     text ["✻ Zymurgying… (3s)"; "❯ "];
     text ["· Pondering... (1s)"; "❯ "];
     text ["· Accomplishing… (1m 13s · ↓ 1.3k tokens · thought for 20s)"; "❯ "];
     text ["* Perusing…"; ""; "──────"; "❯ "];
     text ["· Thinking..."; "❯ "];
     text ["• Implementing normalization, filtering, and selection logic (2m 23s • esc to interrupt)";
           ""; "› Run /review on my current changes"; "";
           "  gpt-5.3-codex xhigh · 58% left · ~/content-magic-weaver"]]
  = true.
Proof. vm_compute. reflexivity. Qed.

Example TestClassifyPaneContent_Idle :
  existsb classifyPaneContent
    [text ["output"; ""; "❯ "; "──────"; "  🟢 19%"; "  ⏵⏵ bypass permissions on"];
     text ["Done."; ""; "› Explain this codebase"; ""; "  gpt-5.3-codex · 87% left"];
     text ["─ Worked for 1m 51s ──────"; "• Deployed."; "› "];
     text ["✻ Cogitated for 1m 27s"; "❯ "];
     text ["Discussion summary..."; "I am discussing..."; "› Explain this codebase"];
     "";
     text ["$ ls"; "file1"; "$ "]]
  = false.
Proof. vm_compute. reflexivity. Qed.

Example TestClassifyPaneNeedsAttention :
  map classifyPaneNeedsAttention
    [text ["Done."; ""; "› Run /review on my current changes"; ""; "  gpt-5.3-codex · 87% left"];
     text ["All set."; ""; "❯ "; "──────"; "  🟢 19%"];
     text ["· Thinking… (5s · esc to interrupt)"; "❯ "];
     text ["$ ls"; "file1"; "$ "]]
  = [true; true; false; false].
Proof. vm_compute. reflexivity. Qed.

Example TestClassifyPaneAttentionSignature :
  map classifyPaneAttentionSignature
    [text ["Done."; ""; "› Explain this codebase"; "  gpt-5.3-codex · 87% left"];
     text ["All set."; ""; "❯ "];
     text ["· Thinking… (5s · esc to interrupt)"; "❯ "]]
  = ["codex:› Explain this codebase"; "claude:❯"; ""].
Proof. vm_compute. reflexivity. Qed.

Example TestSignatures :
  classifyPaneActiveSignature
    (text ["Done."; ""; "◦ Planning broad tests and monitoring (1m 03s • esc to interrupt)";
           "› Find and fix a bug in @filename"])
  = "◦ Planning broad tests and monitoring (1m 03s • esc to interrupt)"
  /\ detectPromptSignature
       (text ["Done."; ""; "› Summarize recent commits"; ""; "  gpt-5.3-codex xhigh · 45% left"])
     = "codex:› Summarize recent commits"
  /\ map classifyPaneCompletionSignature
       [text ["─ Worked for 2m 21s ─"; "• Summary"; "› Next task"];
        text ["Done."; ""; "› Explain this codebase"];
        text ["Random output"; "› prompt"]]
     = ["─ Worked for 2m 21s ─"; "Done."; ""].
Proof. vm_compute. repeat split. Qed.

Example TestIsStaleActiveMarker (now : Z) :
  let content :=
    text ["◦ Planning broad tests and monitoring (1m 03s • esc to interrupt)";
          "› Find and fix a bug in @filename"] in
  let first := isStaleActiveMarker "test:stale-active" content now emptyStore in
  first.1 = false
  /\ (isStaleActiveMarker "test:stale-active" content
        (now + (staleActiveThreshold + Second)) first.2).1 = true.
Proof.
  cbv zeta. set (content := text _).
  assert (Hsig : classifyPaneActiveSignature content <> "")
    by (vm_compute; discriminate).
  assert (Hprompt : String.eqb (detectPromptSignature content) "" = false)
    by (vm_compute; reflexivity).
  assert (Hfirst : isStaleActiveMarker "test:stale-active" content now emptyStore
                   = (false,
                      withActiveMarker
                        (<[ "test:stale-active" := classifyPaneActiveSignature content ]> ∅)
                        (<[ "test:stale-active" := now ]> ∅) emptyStore)).
  { rewrite (isStaleActiveMarker_unfold "test:stale-active" content now emptyStore Hsig).
    cbv zeta. rewrite Hprompt. reflexivity. }
  rewrite Hfirst. cbn [fst snd]. split; [reflexivity|].
  rewrite (isStaleActiveMarker_unfold "test:stale-active" content _ _ Hsig).
  cbv zeta. rewrite Hprompt. cbn [windowActiveSig windowActiveAt withActiveMarker].
  rewrite !lookup_insert_eq, String.eqb_refl. cbn [negb fst].
  apply Z.leb_le. unfold staleActiveThreshold, Second. lia.
Qed.

Example TestIsPaneActive (now : Z) :
  let failing : string -> option string := fun _ => None in
  (isPaneActive failing "test:99" now ∅
     (withLastActive (<[ "test:99" := now ]> ∅) emptyStore)).1.1 = true
  /\ (isPaneActive failing "test:98" now ∅
        (withLastActive (<[ "test:98" := now - activeGrace - Second ]> ∅) emptyStore)).1.1
     = false
  /\ (isPaneActive failing "test:97" now ∅ emptyStore).1.1 = false.
Proof.
  cbv zeta.
  assert (Hmiss : forall w st, (paneActiveNow (fun _ => None) w now ∅ st).1.1 = false)
    by reflexivity.
  split; [|split].
  - rewrite (proj1 (isPaneActive_inactive _ _ _ _ _ (Hmiss _ _))). simpl.
    rewrite lookup_insert_eq. apply Z.ltb_lt. unfold Second. lia.
  - rewrite (proj1 (isPaneActive_inactive _ _ _ _ _ (Hmiss _ _))). simpl.
    rewrite lookup_insert_eq. apply Z.ltb_ge. unfold activeGrace, Second. lia.
  - rewrite (proj1 (isPaneActive_inactive _ _ _ _ _ (Hmiss _ _))). simpl.
    now rewrite lookup_empty.
Qed.

Example TestIsWorkingStatus :
  map isWorkingStatus ["🧠"; "🔨"; "⚙️"; "x 🧠"; "x 🔨"; "c 🧠"; "💤"; "c 💤"; "x 💤"; ""]
  = [true; true; true; true; true; true; false; false; false; false]
  /\ statusPriority "💤" < statusPriority "🧠"
  /\ statusPriority "" < statusPriority "💤".
Proof. vm_compute. repeat split. Qed.

Example TestUnreadMarkAndClear :
  isUnread "test:unread1" emptyStore = false
  /\ isUnread "test:unread1" (markUnread "test:unread1" emptyStore) = true
  /\ isUnread "test:unread1"
       (clearUnread "test:unread1" (markUnread "test:unread1" emptyStore)) = false.
Proof. vm_compute. repeat split. Qed.

Example TestShouldMarkUnread :
  [shouldMarkUnread true false false "x 💤" false "" "" "" "";
   shouldMarkUnread false false false "x 💤" true "codex:› new" "codex:› old" "" "";
   shouldMarkUnread false false false "x 💤" true "" ""
     "─ Worked for 1m 10s ─" "─ Worked for 1m 00s ─";
   shouldMarkUnread false false false "x 💤" false "codex:› Explain this codebase" "" "" "";
   shouldMarkUnread false false false "x 💤" false "codex:›" "" "" "";
   shouldMarkUnread false false false "c 💤" false "claude:❯" "" "" "";
   shouldMarkUnread false false false "x 💤" true
     "codex:› Explain this codebase" "codex:› Explain this codebase" "" "";
   shouldMarkUnread false true false "x 💤" false "" "" "Done." "";
   shouldMarkUnread false false true "x 🧠" false "" "" "" "";
   shouldMarkUnread false false false "" false "" "" "" ""]
  = [true; true; true; true; false; false; false; false; false; false].
Proof. vm_compute. reflexivity. Qed.

Example TestFormatStatusWithTopic :
  map (fun st => formatStatusWithTopic st.1 st.2)
    [("x 🧠", "review"); ("", "review"); ("x 💤", "")]
  = ["x 🧠 review"; ""; "x 💤"].
Proof. vm_compute. reflexivity. Qed.

Example TestIsAgentLikeProcess :
  [isAgentLikeProcess "codex" "";
   isAgentLikeProcess "MainThread"
     "/usr/bin/codex --dangerously-bypass-approvals-and-sandbox";
   isAgentLikeProcess "MainThread" "/usr/bin/claude";
   isAgentLikeProcess "node" "node coordinator/cli.ts build --wait";
   isAgentLikeProcess "psql" "/usr/lib/postgresql/16/bin/psql ..."]
  = [true; true; true; false; false].
Proof. vm_compute. reflexivity. Qed.

Example TestUnknownChildStatus :
  [unknownChildStatus "x " true true; unknownChildStatus "x " true false;
   unknownChildStatus "x " false false]
  = ["x 💤"; "x 🧠"; "x ⚙️"].
Proof. vm_compute. reflexivity. Qed.

Example TestContainsAny :
  containsAny "hello world" ["hello"] = true
  /\ containsAny "hello world" ["foo"; "bar"] = false
  /\ containsAny "hello world" ["foo"; "world"] = true.
Proof. vm_compute. repeat split. Qed.

Example TestCollectDescendants :
  collectDescendants 10 1 (<[1 := [2; 3]]> (<[2 := [4]]> (<[3 := [5; 6]]> (<[6 := [7]]> ∅))))
  = Some [2; 3; 4; 5; 6; 7].
Proof. vm_compute. reflexivity. Qed.

Example TestCollectDescendants_Empty (fuel : nat) :
  collectDescendants fuel 1 (<[1 := []]> ∅) = Some [].
Proof. destruct fuel; reflexivity. Qed.

Example TestFindAgent_NoChildren (caseTable : Z -> Z) (fs : procfs) :
  findAgent caseTable fs 100 (<[100 := []]> ∅) = (0, "").
Proof. reflexivity. Qed.

(** An agent at the level of the great-grandchildren is not found. *)
Example TestFindAgent_DoesNotExceedGrandchildren (caseTable : Z -> Z) :
  findAgent caseTable
    {| readDir := None; files := <["/proc/400/cmdline" := "claude"]> ∅ |}
    100 (<[100 := [200]]> (<[200 := [300]]> (<[300 := [400]]> ∅)))
  = (0, "").
Proof. vm_compute. reflexivity. Qed.

Example TestGetStatus_NoAgent (caseTable : Z -> Z) (capture : string -> option string)
    (fs : procfs) (fuel : nat) (now : Z) (st : store) :
  getStatus caseTable capture fs fuel "fake:0" 4242 (<[4242 := []]> ∅) now ∅ st
  = Some ("", ∅, st).
Proof. reflexivity. Qed.

Example TestListPanes_ParsesOutput :
  listPanes (Some (text ["s:1 123 1"; "s:2 234 0"; "badline"; "s:3 nope 1"]))
  = [ {| paneInfo.window := "s:1"; paneInfo.pid := 123; paneInfo.focused := true |};
      {| paneInfo.window := "s:2"; paneInfo.pid := 234; paneInfo.focused := false |} ].
Proof. vm_compute. reflexivity. Qed.

(** The second call answers from the cache: whatever the command would
    return by then, it is not asked. *)
Example TestGetPaneContent_CachesSuccess (capture : string -> option string) :
  let first := getPaneContent (fun _ => Some "hello") "w:1" ∅ in
  first.1 = ("hello", true)
  /\ getPaneContent capture "w:1" first.2 = ("hello", true, first.2).
Proof. split; reflexivity. Qed.

Example TestGetPaneContent_CachesFailure (capture : string -> option string) :
  let first := getPaneContent (fun _ => None) "w:2" ∅ in
  first.1 = ("", false)
  /\ getPaneContent capture "w:2" first.2 = ("", false, first.2).
Proof. split; reflexivity. Qed.

Example TestReadCmdline_NullBytes :
  readCmdline
    {| readDir := None;
       files := <["/proc/7/cmdline" :=
                    "/usr/bin/node" +:+ String "000" ("/path/to/claude" +:+
                    String "000" ("--flag" +:+ String "000" ""))]> ∅ |} 7
  = "/usr/bin/node /path/to/claude --flag ".
Proof. vm_compute. reflexivity. Qed.

Example TestUnreadReplacesIdle :
  let st := markUnread "test:unread2" emptyStore in
  map (fun status =>
         if isUnread "test:unread2" st && HasSuffix status "💤"
         then TrimSuffix status "💤" +:+ "📬" else status)
      ["💤"; "x 💤"]
  = ["📬"; "x 📬"].
Proof. vm_compute. reflexivity. Qed.

(** Three of the five cases of the repository's test; to the fourth input,
    [Fix authentication bug in login], the function answers [auth], the
    alias of both [authentication] and [login]. *)
Example TestExtractTopicWord (caseTable : Z -> Z) (letterTable digitTable : Z -> bool) :
  map (extractTopicWord caseTable letterTable digitTable)
    ["Run /review on my current changes"; "/refresh-cover-images now";
     "Fix authentication bug in login"; "Thinking..."; "12345"]
  = ["review"; "refresh"; "auth"; ""; ""].
Proof. vm_compute. reflexivity. Qed.

(** Two of the three cases of the repository's test; in the active line
    of the third, [selection] comes later than [normalization] and wins by
    the bonus of its position.  The runes of these inputs beyond Latin-1
    are neither letters nor digits and have no lower case. *)
Example TestClassifyPaneTopic :
  map (classifyPaneTopic (fun r => r) (fun _ => false) (fun _ => false))
    [text ["Done."; ""; "› Run /review on my current changes"; "";
           "  gpt-5.3-codex · 87% left"];
     text ["• Implementing normalization, filtering, and selection logic (2m 23s • esc to interrupt)";
           "› "];
     text ["All set."; ""; "❯ "]]
  = ["review"; "selectio"; ""].
Proof. vm_compute. reflexivity. Qed.
